(** * Bio.SearchIO._objects: QueryResult, Hit and HSP containers

    A shallow embedding of [Bio/SearchIO/_objects.py] (Python 2).

    Conventions of the embedding:
    - every class is a [Module] holding a record [t] for the instance
      dictionary and one definition per method, under the method's name;
    - an attribute that may be absent from the instance dictionary
      ([hasattr] is false) is an [option] field, [None] meaning absent;
    - Python [int]/[long] values are [Z]; Python [float] values are IEEE 754
      binary64 numbers, computed with the Standard Library's [SpecFloat];
    - a method that mutates [self] is a function of the state monad [M]
      below, returning either a value or the raised exception together
      with the instance as the method left it;
    - objects are embedded by value: a container holds its items, and an
      assignment to an attribute of a contained item rebuilds the item
      inside the container. *)

From Stdlib Require Import ZArith List String Bool Lia.
From Stdlib Require Import Floats.SpecFloat.
From Stdlib Require Import DecimalString.
From Stdlib Require Import Sorting.Sorted Sorting.Permutation.
Import ListNotations.

Open Scope string_scope.
Open Scope Z_scope.

Notation "a +++ b" := (String.append a b) (at level 60, right associativity).

(** ** Exceptions and the state/exception monad *)

Inductive exn :=
| ValueError (msg : string)
| TypeError (msg : string)
| AttributeError (msg : string)
| KeyError (key : string)
| IndexError (msg : string)
| ZeroDivisionError (msg : string)
| OverflowError (msg : string).

Inductive result (A : Type) :=
| Ok (a : A)
| Raise (e : exn).
Arguments Ok {A} a.
Arguments Raise {A} e.

(** A method of an object with instance state [S] returning an [A]. *)
Definition M (S A : Type) : Type := S -> result A * S.

Definition ret {S A} (a : A) : M S A := fun s => (Ok a, s).
Definition raise {S A} (e : exn) : M S A := fun s => (Raise e, s).
Definition bind {S A B} (m : M S A) (k : A -> M S B) : M S B :=
  fun s => match m s with
           | (Ok a, s') => k a s'
           | (Raise e, s') => (Raise e, s')
           end.

Notation "x <- m ;; k" := (bind m (fun x => k))
  (at level 61, m at next level, right associativity).
Notation "m ;;; k" := (bind m (fun _ => k))
  (at level 61, right associativity).

(** [try: body  except AttributeError: raise AttributeError(msg)] *)
Definition try_except_AttributeError {S A} (body : M S A) (msg : string)
  : M S A :=
  fun s => match body s with
           | (Raise (AttributeError _), s') => (Raise (AttributeError msg), s')
           | r => r
           end.

(** [m] never leaves a state satisfying [P]. *)
Definition preserves {S A} (P : S -> Prop) (m : M S A) : Prop :=
  forall s, P s -> P (snd (m s)).

(** [hasattr(self, name)] and [self.name] for an optional attribute. *)
Definition hasattr {S A} (field : S -> option A) : M S bool :=
  fun s => (Ok (match field s with Some _ => true | None => false end), s).

Definition getattr {S A} (name : string) (field : S -> option A) : M S A :=
  fun s => match field s with
           | Some v => (Ok v, s)
           | None => (Raise (AttributeError
                        ("object has no attribute '" +++ name +++ "'")), s)
           end.

(** ** Python floats (IEEE 754 binary64) *)

Definition float := spec_float.
Definition fprec : Z := 53.
Definition femax : Z := 1024.

(** The float nearest to an integer (round half to even). *)
Definition float_of_Z (z : Z) : float := binary_normalize fprec femax z 0 false.

(** [float(n)] for an integer [n]: an integer beyond the range of a double
    raises [OverflowError]. *)
Definition py_float {S} (n : Z) : M S float :=
  match float_of_Z n with
  | S754_infinity _ => raise (OverflowError "long int too large to convert to float")
  | f => ret f
  end.

Definition float_is_zero (f : float) : bool :=
  match f with S754_zero _ => true | _ => false end.

(** [n / d] for an integer [n] and a float [d]: [n] is converted first,
    then a zero divisor raises [ZeroDivisionError]. *)
Definition int_div_float {S} (n : Z) (d : float) : M S float :=
  a <- py_float n ;;
  if float_is_zero d then raise (ZeroDivisionError "float division by zero")
  else ret (SFdiv fprec femax a d).

(** [x * n] for a float [x] and an integer [n]. *)
Definition float_mul_int {S} (x : float) (n : Z) : M S float :=
  b <- py_float n ;;
  ret (SFmul fprec femax x b).

(** ** External collaborators: alphabets, sequences, alignments *)

(** Modelled from the spec: the alphabet tag of [Bio.Alphabet], an opaque
    value describing residue semantics that is handed on to the sequence
    capability.  A tag is identified by its name. *)
Inductive Alphabet := AlphabetTag (name : string).

Definition single_letter_alphabet : Alphabet := AlphabetTag "SingleLetterAlphabet".
Definition generic_dna : Alphabet := AlphabetTag "DNAAlphabet".
Definition generic_protein : Alphabet := AlphabetTag "ProteinAlphabet".

(** Modelled from the spec: [Bio.Seq.Seq], raw residues with an alphabet
    tag. *)
Record Seq := mkSeq { seq_data : string; seq_alphabet : Alphabet }.

(** Modelled from the spec: [Bio.SeqRecord.SeqRecord], a sequence with
    settable id, name and description. *)
Record SeqRecord := mkSeqRecord {
  seq : Seq;
  seq_id : string;
  seq_name : string;
  seq_description : string }.

(** Modelled from the spec: [Bio.Align.MultipleSeqAlignment], here the
    paired alignment of the records it is given under an alphabet tag. *)
Record MultipleSeqAlignment := mkMultipleSeqAlignment {
  msa_records : list SeqRecord;
  msa_alphabet : Alphabet }.

(** A value handed to a constructor where the source expects a sequence:
    a string, a SeqRecord, or some other object (for instance an alphabet
    tag that ended up in that position).  Records are embedded by value:
    [ArgSeqRecord r] stands for a SeqRecord object that nothing else
    refers to.  The source renames the object it is given in place, so a
    record that the HSP already holds (as query, as hit, or as a row of
    a kept alignment) changes there too; such shared arguments are not
    covered, and the statements about what an assignment leaves
    untouched are made for arguments that are not records. *)
Inductive seq_arg :=
| ArgStr (s : string)
| ArgSeqRecord (r : SeqRecord)
| ArgAlphabet (a : Alphabet).

(** Truth value of such an argument: the empty string is false, every
    other object here is true. *)
Definition seq_arg_truth (a : seq_arg) : bool :=
  match a with
  | ArgStr s => negb (String.eqb s "")
  | ArgSeqRecord _ => true
  | ArgAlphabet _ => true
  end.

(** The [seq_type] argument of [_prep_seq]: ['hit'] or ['query']. *)
Inductive seq_type := hit_type | query_type.

Definition seq_type_str (ty : seq_type) : string :=
  match ty with hit_type => "hit" | query_type => "query" end.

Definition seq_type_capitalize (ty : seq_type) : string :=
  match ty with hit_type => "Hit" | query_type => "Query" end.

(** ** class HSP *)

Module HSP.

Record t := mk {
  hit_id : string;
  query_id : string;
  alphabet : Alphabet;
  alignment_annotation : list (string * string);
  _ali_len : option Z;
  _ident_num : option Z;
  _mismatch_num : option Z;
  _gap_num : option Z;
  pos_num : option Z;
  _ident_pct : option float;
  _pos_pct : option float;
  _gap_pct : option float }.

(** Attribute assignments [self.<field> = v]. *)
Definition set_hit_id (v : string) (h : t) : t :=
  mk v (query_id h) (alphabet h) (alignment_annotation h) (_ali_len h)
     (_ident_num h) (_mismatch_num h) (_gap_num h) (pos_num h)
     (_ident_pct h) (_pos_pct h) (_gap_pct h).
Definition set_query_id (v : string) (h : t) : t :=
  mk (hit_id h) v (alphabet h) (alignment_annotation h) (_ali_len h)
     (_ident_num h) (_mismatch_num h) (_gap_num h) (pos_num h)
     (_ident_pct h) (_pos_pct h) (_gap_pct h).
Definition set__ali_len (v : Z) (h : t) : t :=
  mk (hit_id h) (query_id h) (alphabet h) (alignment_annotation h) (Some v)
     (_ident_num h) (_mismatch_num h) (_gap_num h) (pos_num h)
     (_ident_pct h) (_pos_pct h) (_gap_pct h).
Definition set__ident_num (v : Z) (h : t) : t :=
  mk (hit_id h) (query_id h) (alphabet h) (alignment_annotation h) (_ali_len h)
     (Some v) (_mismatch_num h) (_gap_num h) (pos_num h)
     (_ident_pct h) (_pos_pct h) (_gap_pct h).
Definition set__mismatch_num (v : Z) (h : t) : t :=
  mk (hit_id h) (query_id h) (alphabet h) (alignment_annotation h) (_ali_len h)
     (_ident_num h) (Some v) (_gap_num h) (pos_num h)
     (_ident_pct h) (_pos_pct h) (_gap_pct h).
Definition set__gap_num (v : Z) (h : t) : t :=
  mk (hit_id h) (query_id h) (alphabet h) (alignment_annotation h) (_ali_len h)
     (_ident_num h) (_mismatch_num h) (Some v) (pos_num h)
     (_ident_pct h) (_pos_pct h) (_gap_pct h).
Definition set_pos_num (v : Z) (h : t) : t :=
  mk (hit_id h) (query_id h) (alphabet h) (alignment_annotation h) (_ali_len h)
     (_ident_num h) (_mismatch_num h) (_gap_num h) (Some v)
     (_ident_pct h) (_pos_pct h) (_gap_pct h).
Definition set__ident_pct (v : float) (h : t) : t :=
  mk (hit_id h) (query_id h) (alphabet h) (alignment_annotation h) (_ali_len h)
     (_ident_num h) (_mismatch_num h) (_gap_num h) (pos_num h)
     (Some v) (_pos_pct h) (_gap_pct h).
Definition set__pos_pct (v : float) (h : t) : t :=
  mk (hit_id h) (query_id h) (alphabet h) (alignment_annotation h) (_ali_len h)
     (_ident_num h) (_mismatch_num h) (_gap_num h) (pos_num h)
     (_ident_pct h) (Some v) (_gap_pct h).
Definition set__gap_pct (v : float) (h : t) : t :=
  mk (hit_id h) (query_id h) (alphabet h) (alignment_annotation h) (_ali_len h)
     (_ident_num h) (_mismatch_num h) (_gap_num h) (pos_num h)
     (_ident_pct h) (_pos_pct h) (Some v).

Definition assign {A} (set : A -> t -> t) (v : A) : M t unit :=
  fun self => (Ok tt, set v self).

(** [HSP.__init__(self, hit_id=None, query_id=None, hit_seq='',
    query_seq='', alphabet=single_letter_alphabet)]: the two sequence
    arguments are accepted and not used. *)
Definition __init__ (hit_id query_id : option string)
    (hit_seq query_seq : seq_arg) (alphabet : Alphabet) : result t :=
  match hit_id with
  | None => Raise (ValueError "Hit ID string is required for HSP creation")
  | Some hid =>
    match query_id with
    | None => Raise (ValueError "Query ID string is required for HSP creation")
    | Some qid =>
      Ok (mk hid qid alphabet [] None None None None None None None None)
    end
  end.

(** [_prep_seq(self, seq, seq_id, seq_type, desc='')]; the assertion
    [seq_type in ['hit', 'query']] holds by the type of [ty].  For a
    SeqRecord the value returned is that of the object given after
    [seq.id = seq_id; seq.name = seq_name; seq.description = desc]; that
    the object itself is changed is not visible in a record embedded by
    value (see [seq_arg]). *)
Definition _prep_seq (self : t) (s : seq_arg) (seq_id : string)
    (ty : seq_type) (desc : string) : result SeqRecord :=
  let seq_name := "aligned " +++ seq_type_str ty +++ " sequence" in
  match s with
  | ArgSeqRecord r => Ok (mkSeqRecord (seq r) seq_id seq_name desc)
  | ArgStr str =>
      Ok (mkSeqRecord (mkSeq str (alphabet self)) seq_id seq_name desc)
  | ArgAlphabet _ =>
      Raise (TypeError (seq_type_capitalize ty +++
               " sequence must be a string or a SeqRecord object."))
  end.

(** *** The golden rule group: ali_len, ident_num, mismatch_num, gap_num *)

Definition _ali_len_get : M t Z :=
  has <- hasattr _ali_len ;;
  (if negb has then
     try_except_AttributeError
       (i <- getattr "_ident_num" _ident_num ;;
        m <- getattr "_mismatch_num" _mismatch_num ;;
        g <- getattr "_gap_num" _gap_num ;;
        assign set__ali_len (i + m + g))
       "Not enough is known to compute initial length"
   else ret tt) ;;;
  getattr "_ali_len" _ali_len.

Definition _ali_len_set (value : Z) : M t unit := assign set__ali_len value.

Definition _ident_num_get : M t Z :=
  has <- hasattr _ident_num ;;
  (if negb has then
     try_except_AttributeError
       (a <- getattr "_ali_len" _ali_len ;;
        m <- getattr "_mismatch_num" _mismatch_num ;;
        g <- getattr "_gap_num" _gap_num ;;
        assign set__ident_num (a - m - g))
       "Not enough is known to compute identities"
   else ret tt) ;;;
  getattr "_ident_num" _ident_num.

Definition _ident_num_set (value : Z) : M t unit := assign set__ident_num value.

Definition _mismatch_num_get : M t Z :=
  has <- hasattr _mismatch_num ;;
  (if negb has then
     try_except_AttributeError
       (a <- getattr "_ali_len" _ali_len ;;
        i <- getattr "_ident_num" _ident_num ;;
        g <- getattr "_gap_num" _gap_num ;;
        assign set__mismatch_num (a - i - g))
       "Not enough is known to compute mismatches"
   else ret tt) ;;;
  getattr "_mismatch_num" _mismatch_num.

Definition _mismatch_num_set (value : Z) : M t unit :=
  assign set__mismatch_num value.

Definition _gap_num_get : M t Z :=
  has <- hasattr _gap_num ;;
  (if negb has then
     try_except_AttributeError
       (a <- getattr "_ali_len" _ali_len ;;
        i <- getattr "_ident_num" _ident_num ;;
        m <- getattr "_mismatch_num" _mismatch_num ;;
        assign set__gap_num (a - i - m))
       "Not enough is known to compute gaps"
   else ret tt) ;;;
  getattr "_gap_num" _gap_num.

Definition _gap_num_set (value : Z) : M t unit := assign set__gap_num value.

(** *** Percentages: [count / float(ali_len) * 100] *)

Definition percentage (count : M t Z) : M t float :=
  n <- count ;;
  l <- _ali_len_get ;;
  d <- py_float l ;;
  q <- int_div_float n d ;;
  float_mul_int q 100.

Definition _ident_pct_get : M t float :=
  has <- hasattr _ident_pct ;;
  (if negb has then
     try_except_AttributeError
       (p <- percentage _ident_num_get ;; assign set__ident_pct p)
       "Not enough is known to compute identity percentage"
   else ret tt) ;;;
  getattr "_ident_pct" _ident_pct.

Definition _ident_pct_set (value : float) : M t unit :=
  assign set__ident_pct value.

Definition _pos_pct_get : M t float :=
  has <- hasattr _pos_pct ;;
  (if negb has then
     try_except_AttributeError
       (p <- percentage (getattr "pos_num" pos_num) ;; assign set__pos_pct p)
       "Not enough is known to compute positive percentage"
   else ret tt) ;;;
  getattr "_pos_pct" _pos_pct.

Definition _pos_pct_set (value : float) : M t unit :=
  assign set__pos_pct value.

Definition _gap_pct_get : M t float :=
  has <- hasattr _gap_pct ;;
  (if negb has then
     try_except_AttributeError
       (p <- percentage _gap_num_get ;; assign set__gap_pct p)
       "Not enough is known to compute gap percentage"
   else ret tt) ;;;
  getattr "_gap_pct" _gap_pct.

Definition _gap_pct_set (value : float) : M t unit :=
  assign set__gap_pct value.

(** The seven readable metric properties, and a read of one of them. *)
Inductive metric :=
| ali_len | ident_num | mismatch_num | gap_num
| ident_pct | pos_pct | gap_pct.

Inductive number := Int (z : Z) | Float (f : float).

Definition read (m : metric) : M t number :=
  match m with
  | ali_len => v <- _ali_len_get ;; ret (Int v)
  | ident_num => v <- _ident_num_get ;; ret (Int v)
  | mismatch_num => v <- _mismatch_num_get ;; ret (Int v)
  | gap_num => v <- _gap_num_get ;; ret (Int v)
  | ident_pct => v <- _ident_pct_get ;; ret (Float v)
  | pos_pct => v <- _pos_pct_get ;; ret (Float v)
  | gap_pct => v <- _gap_pct_get ;; ret (Float v)
  end.

(** The instance after a series of reads whose outcomes (values or
    caught exceptions) are discarded. *)
Fixpoint after_reads (ms : list metric) (self : t) : t :=
  match ms with
  | [] => self
  | m :: ms' => after_reads ms' (snd (read m self))
  end.

End HSP.

(** ** Generic helpers: loops, lists, dynamic arguments *)

(** The object a constructor leaves behind, or the exception it raised. *)
Definition construct {S A} (body : M S A) (fresh : S) : result S :=
  match body fresh with
  | (Ok _, s) => Ok s
  | (Raise e, _) => Raise e
  end.

Definition gets {S A} (f : S -> A) : M S A := fun s => (Ok (f s), s).

(** [for x in l: body(x)] *)
Fixpoint for_each {S A} (l : list A) (body : A -> M S unit) : M S unit :=
  match l with
  | [] => ret tt
  | x :: l' => body x ;;; for_each l' body
  end.

(** [[f(x) for x in l]] where [f] may raise. *)
Fixpoint map_result {A B} (f : A -> result B) (l : list A) : result (list B) :=
  match l with
  | [] => Ok []
  | x :: l' =>
    match f x with
    | Raise e => Raise e
    | Ok y => match map_result f l' with
              | Raise e => Raise e
              | Ok ys => Ok (y :: ys)
              end
    end
  end.

(** A slice bound brought into [0, n]: absent bounds take [dflt],
    negative ones count from the end. *)
Definition clamp_index (n : Z) (i : option Z) (dflt : Z) : Z :=
  match i with
  | None => dflt
  | Some i => if i <? 0 then Z.max (i + n) 0 else Z.min i n
  end.

(** [l[start:stop]] *)
Definition list_slice {A} (l : list A) (start stop : option Z) : list A :=
  let n := Z.of_nat (List.length l) in
  let lo := clamp_index n start 0 in
  let hi := clamp_index n stop n in
  firstn (Z.to_nat (hi - lo)) (skipn (Z.to_nat lo) l).

(** [l[i]], negative [i] counting from the end. *)
Definition list_index {A} (l : list A) (i : Z) : result A :=
  let n := Z.of_nat (List.length l) in
  let j := if i <? 0 then i + n else i in
  if (j <? 0) || (n <=? j) then Raise (IndexError "list index out of range")
  else match nth_error l (Z.to_nat j) with
       | Some x => Ok x
       | None => Raise (IndexError "list index out of range")
       end.

(** [sorted(l, key=key, reverse=reverse)]: a stable sort; with [reverse]
    the list is reversed, sorted and reversed again, so that equal items
    keep their order. *)
Fixpoint insert_by {A} (key : A -> Z) (x : A) (l : list A) : list A :=
  match l with
  | [] => [x]
  | y :: l' => if key x <=? key y then x :: y :: l' else y :: insert_by key x l'
  end.

Definition stable_sort {A} (key : A -> Z) (l : list A) : list A :=
  fold_right (insert_by key) [] l.

Definition sorted {A} (l : list A) (key : A -> Z) (reverse : bool) : list A :=
  if reverse then rev (stable_sort key (rev l)) else stable_sort key l.

(** [del l[start:stop]] *)
Definition list_del_slice {A} (l : list A) (start stop : option Z) : list A :=
  let n := Z.of_nat (List.length l) in
  let lo := clamp_index n start 0 in
  let hi := clamp_index n stop n in
  (firstn (Z.to_nat lo) l ++ skipn (Z.to_nat lo + Z.to_nat (hi - lo)) l)%list.

(** The list without its element at position [j] (counted from 0). *)
Definition list_remove_at {A} (l : list A) (j : nat) : list A :=
  (firstn j l ++ skipn (Datatypes.S j) l)%list.

(** [del l[i]] *)
Definition list_del_index {A} (l : list A) (i : Z) : result (list A) :=
  let n := Z.of_nat (List.length l) in
  let j := if i <? 0 then i + n else i in
  if (j <? 0) || (n <=? j)
  then Raise (IndexError "list assignment index out of range")
  else Ok (list_remove_at l (Z.to_nat j)).

(** [l.pop(i)]: the element and the list it leaves. *)
Definition list_pop {A} (l : list A) (i : Z) : result (A * list A) :=
  let n := Z.of_nat (List.length l) in
  let j := if i <? 0 then i + n else i in
  match l with
  | [] => Raise (IndexError "pop from empty list")
  | _ =>
    if (j <? 0) || (n <=? j) then Raise (IndexError "pop index out of range")
    else match nth_error l (Z.to_nat j) with
         | Some x => Ok (x, list_remove_at l (Z.to_nat j))
         | None => Raise (IndexError "pop index out of range")
         end
  end.

(** [l.index(x)] on a list of strings: the first position of [x], if any. *)
Fixpoint list_find (l : list string) (x : string) : option Z :=
  match l with
  | [] => None
  | y :: l' =>
      if String.eqb y x then Some 0
      else match list_find l' x with
           | Some i => Some (i + 1)
           | None => None
           end
  end.

(** [repr(n)] of an integer. *)
Definition repr_int (n : Z) : string := NilZero.string_of_int (Z.to_int n).

(** An index handed to the item methods of a list-like container. *)
Inductive seq_index :=
| AtIndex (i : Z)
| AtSlice (start stop : option Z).

(** An arbitrary Python object, told apart by whether it is an instance
    of the class [T] a method tests for with [isinstance]. *)
Inductive pyobj (T : Type) :=
| Inst (x : T)
| PyNone
| PyInt (z : Z)
| PyStr (s : string)
| PyOther.
Arguments Inst {T} x.
Arguments PyNone {T}.
Arguments PyInt {T} z.
Arguments PyStr {T} s.
Arguments PyOther {T}.

(** What a special method hands back to a builtin: an integer or a list. *)
Inductive pyvalue :=
| IntValue (n : Z)
| ListValue (l : list Z).

(** The builtin [len(obj)], given the outcome of [obj.__len__()]: the
    outcome has to be a non-negative integer. *)
Definition builtin_len (r : result pyvalue) : result Z :=
  match r with
  | Raise e => Raise e
  | Ok (IntValue n) =>
      if n <? 0 then Raise (ValueError "__len__() should return >= 0") else Ok n
  | Ok (ListValue _) => Raise (TypeError "an integer is required")
  end.

(** ** class BaseSearchObject *)

Module BaseSearchObject.

(** Values of attributes attached from outside (by parsers). *)
Inductive attr_value :=
| AttrNone
| AttrInt (z : Z)
| AttrFloat (f : float)
| AttrStr (s : string).

(** The part of an instance dictionary holding such attributes. *)
Definition dict := list (string * attr_value).

Fixpoint lookup (name : string) (d : dict) : option attr_value :=
  match d with
  | [] => None
  | (k, v) :: d' => if String.eqb k name then Some v else lookup name d'
  end.

Definition keys (d : dict) : list string := map fst d.

(** [setattr(obj, name, v)] on the dictionary of [obj]. *)
Fixpoint setattr (name : string) (v : attr_value) (d : dict) : dict :=
  match d with
  | [] => [(name, v)]
  | (k, w) :: d' =>
      if String.eqb k name then (k, v) :: d' else (k, w) :: setattr name v d'
  end.

Definition is_sticky (_NON_STICKY_ATTRS : list string) (attr : string) : bool :=
  negb (existsb (String.eqb attr) _NON_STICKY_ATTRS).

(** [_transfer_attrs] on the outside attributes:
    [for attr in self.__dict__.keys():
       if attr not in self._NON_STICKY_ATTRS:
         setattr(obj, attr, self.__dict__[attr])]. *)
Definition _transfer_attrs (_NON_STICKY_ATTRS : list string)
    (self_dict obj_dict : dict) : dict :=
  fold_left
    (fun d attr =>
       if is_sticky _NON_STICKY_ATTRS attr then
         match lookup attr self_dict with
         | Some v => setattr attr v d
         | None => d
         end
       else d)
    (keys self_dict) obj_dict.

End BaseSearchObject.

(** ** class ContiguousHSP(HSP) *)

Module ContiguousHSP.

Record t := mk {
  base : HSP.t;
  _hit : option SeqRecord;
  _query : option SeqRecord;
  _alignment : option MultipleSeqAlignment }.

Definition _hit_get : M t SeqRecord := getattr "_hit" _hit.

Definition _hit_set (value : seq_arg) : M t unit :=
  fun self =>
    match HSP._prep_seq (base self) value (HSP.hit_id (base self)) hit_type "" with
    | Ok r => (Ok tt, mk (base self) (Some r) (_query self) (_alignment self))
    | Raise e => (Raise e, self)
    end.

Definition _query_get : M t SeqRecord := getattr "_query" _query.

Definition _query_set (value : seq_arg) : M t unit :=
  fun self =>
    match HSP._prep_seq (base self) value (HSP.query_id (base self)) query_type "" with
    | Ok r => (Ok tt, mk (base self) (_hit self) (Some r) (_alignment self))
    | Raise e => (Raise e, self)
    end.

(** [ContiguousHSP.__init__(self, hit_id=None, query_id=None, hit_seq='',
    query_seq='', alphabet=single_letter_alphabet)].  The call
    [HSP.__init__(self, hit_id, query_id, alphabet)] is positional: its
    third argument lands in the [hit_seq] parameter of [HSP.__init__],
    whose [query_seq] and [alphabet] parameters take their defaults. *)
Definition __init__ (hit_id query_id : option string)
    (hit_seq query_seq : seq_arg) (alphabet : Alphabet) : result t :=
  match HSP.__init__ hit_id query_id (ArgAlphabet alphabet)
                     (ArgStr "") single_letter_alphabet with
  | Raise e => Raise e
  | Ok b =>
    construct
      ((if seq_arg_truth query_seq then _query_set query_seq else ret tt) ;;;
       (if seq_arg_truth hit_seq then _hit_set hit_seq else ret tt))
      (mk b None None None)
  end.

Definition _alignment_get : M t MultipleSeqAlignment :=
  has <- hasattr _alignment ;;
  (if negb has then
     q <- _query_get ;;
     h <- _hit_get ;;
     a <- gets (fun self => HSP.alphabet (base self)) ;;
     (fun self => (Ok tt, mk (base self) (_hit self) (_query self)
                             (Some (mkMultipleSeqAlignment [q; h] a))))
   else ret tt) ;;;
  getattr "_alignment" _alignment.

End ContiguousHSP.

(** ** class SegmentedHSP(HSP) *)

Module SegmentedHSP.

Record t := mk {
  base : HSP.t;
  _hit : option (list SeqRecord);
  _query : option (list SeqRecord);
  _alignment : option (list MultipleSeqAlignment) }.

Definition _hit_get : M t (list SeqRecord) := getattr "_hit" _hit.

Definition _hit_set (value : list seq_arg) : M t unit :=
  fun self =>
    match map_result
            (fun s => HSP._prep_seq (base self) s (HSP.hit_id (base self)) hit_type "")
            value with
    | Ok rs => (Ok tt, mk (base self) (Some rs) (_query self) (_alignment self))
    | Raise e => (Raise e, self)
    end.

Definition _query_get : M t (list SeqRecord) := getattr "_query" _query.

Definition _query_set (value : list seq_arg) : M t unit :=
  fun self =>
    match map_result
            (fun s => HSP._prep_seq (base self) s (HSP.query_id (base self)) query_type "")
            value with
    | Ok rs => (Ok tt, mk (base self) (_hit self) (Some rs) (_alignment self))
    | Raise e => (Raise e, self)
    end.

(** [SegmentedHSP.__init__(self, hit_id=None, query_id=None, blocks=[],
    alphabet=single_letter_alphabet)], with the same positional call of
    [HSP.__init__] as in [ContiguousHSP]. *)
Definition __init__ (hit_id query_id : option string)
    (blocks : list (seq_arg * seq_arg)) (alphabet : Alphabet) : result t :=
  match HSP.__init__ hit_id query_id (ArgAlphabet alphabet)
                     (ArgStr "") single_letter_alphabet with
  | Raise e => Raise e
  | Ok b =>
    construct
      (match blocks with
       | [] => ret tt
       | _ => _query_set (map fst blocks) ;;; _hit_set (map snd blocks)
       end)
      (mk b None None None)
  end.

(** [izip(self.query, self.hit)] is [combine]: it stops with the shorter
    list. *)
Definition _alignment_get : M t (list MultipleSeqAlignment) :=
  has <- hasattr _alignment ;;
  (if negb has then
     q <- _query_get ;;
     h <- _hit_get ;;
     a <- gets (fun self => HSP.alphabet (base self)) ;;
     (fun self =>
        (Ok tt,
         mk (base self) (_hit self) (_query self)
            (Some (map (fun qh => mkMultipleSeqAlignment [fst qh; snd qh] a)
                       (combine q h)))))
   else ret tt) ;;;
  getattr "_alignment" _alignment.

(** [try: return len(self.alignment)  except AttributeError: return []] *)
Definition __len__ : M t pyvalue :=
  fun self =>
    match _alignment_get self with
    | (Ok al, self') => (Ok (IntValue (Z.of_nat (List.length al))), self')
    | (Raise (AttributeError _), self') => (Ok (ListValue []), self')
    | (Raise e, self') => (Raise e, self')
    end.

(** [len(hsp)] *)
Definition len (self : t) : result Z * t :=
  (builtin_len (fst (__len__ self)), snd (__len__ self)).

End SegmentedHSP.

(** ** Objects a Hit may hold *)

(** An instance of [HSP] or of one of its subclasses. *)
Inductive hsp_object :=
| PlainHSP (h : HSP.t)
| Contiguous (c : ContiguousHSP.t)
| Segmented (s : SegmentedHSP.t).

Definition hsp_base (o : hsp_object) : HSP.t :=
  match o with
  | PlainHSP h => h
  | Contiguous c => ContiguousHSP.base c
  | Segmented s => SegmentedHSP.base s
  end.

(** An assignment to an attribute defined by the base class. *)
Definition hsp_update (f : HSP.t -> HSP.t) (o : hsp_object) : hsp_object :=
  match o with
  | PlainHSP h => PlainHSP (f h)
  | Contiguous c =>
      Contiguous (ContiguousHSP.mk (f (ContiguousHSP.base c)) (ContiguousHSP._hit c)
                    (ContiguousHSP._query c) (ContiguousHSP._alignment c))
  | Segmented s =>
      Segmented (SegmentedHSP.mk (f (SegmentedHSP.base s)) (SegmentedHSP._hit s)
                   (SegmentedHSP._query s) (SegmentedHSP._alignment s))
  end.

Definition hsp_hit_id (o : hsp_object) : string := HSP.hit_id (hsp_base o).
Definition hsp_query_id (o : hsp_object) : string := HSP.query_id (hsp_base o).

(** ** class Hit(BaseSearchObject) *)

Module Hit.

Record t := mk {
  _id : string;
  _query_id : string;
  _desc : string;
  _hsps : list hsp_object;
  attrs : BaseSearchObject.dict }.

Definition _NON_STICKY_ATTRS : list string := ["_hsps"].

(** [_transfer_attrs(self, obj)]: every entry of [self.__dict__] but
    [_hsps] is assigned on [obj]. *)
Definition _transfer_attrs (self obj : t) : t :=
  mk (_id self) (_query_id self) (_desc self) (_hsps obj)
     (BaseSearchObject._transfer_attrs _NON_STICKY_ATTRS (attrs self) (attrs obj)).

Definition _id_get (self : t) : string := _id self.
Definition _query_id_get (self : t) : string := _query_id self.
Definition _hsps_get (self : t) : list hsp_object := _hsps self.

Definition __len__ (self : t) : Z := Z.of_nat (List.length (_hsps self)).

Definition __nonzero__ (self : t) : bool :=
  match _hsps self with [] => false | _ => true end.

Definition _validate_hsp (self : t) (hsp : pyobj hsp_object) : result hsp_object :=
  match hsp with
  | Inst h =>
      if negb (String.eqb (hsp_hit_id h) (_id_get self)) then
        Raise (ValueError ("Expected HSP with hit ID '" +++ _id_get self +++
                           "', found '" +++ hsp_hit_id h +++ "' instead."))
      else if negb (String.eqb (hsp_query_id h) (_query_id_get self)) then
        Raise (ValueError ("Expected HSP with query ID '" +++ _query_id_get self +++
                           "', found '" +++ hsp_query_id h +++ "' instead."))
      else Ok h
  | _ => Raise (TypeError "Hit objects can only contain HSP objects.")
  end.

(** [self._validate_hsp(hsp); self._hsps.append(hsp)] *)
Definition append (hsp : pyobj hsp_object) : M t unit :=
  fun self =>
    match _validate_hsp self hsp with
    | Raise e => (Raise e, self)
    | Ok h => (Ok tt, mk (_id self) (_query_id self) (_desc self)
                         (_hsps self ++ [h])%list (attrs self))
    end.

(** [Hit.__init__(self, id=None, query_id=None, hsps=[])]: each HSP is
    validated and stored, as [append] does. *)
Definition __init__ (id query_id : option string)
    (hsps : list (pyobj hsp_object)) : result t :=
  match id with
  | None => Raise (ValueError "Hit ID string is required for Hit creation")
  | Some i =>
    match query_id with
    | None => Raise (ValueError "Query ID string is required for Hit creation")
    | Some q => construct (for_each hsps append) (mk i q "" [] [])
    end
  end.

(** [self._id = value], then [hsp.hit_id = value] for every HSP. *)
Definition _id_set (value : string) : M t unit :=
  fun self =>
    (Ok tt, mk value (_query_id self) (_desc self)
               (map (hsp_update (HSP.set_hit_id value)) (_hsps self))
               (attrs self)).

(** [self._query_id = value], then [hsp.query_id = value] for every HSP. *)
Definition _query_id_set (value : string) : M t unit :=
  fun self =>
    (Ok tt, mk (_id self) value (_desc self)
               (match _hsps_get self with
                | [] => []
                | hsps => map (hsp_update (HSP.set_query_id value)) hsps
                end)
               (attrs self)).

(** [filter(self, func)], for a given predicate [func]; the result is
    [None] when the method falls off its end. *)
Definition filter (self : t) (func : hsp_object -> bool) : result (option t) :=
  let hsps := List.filter func (_hsps_get self) in
  match hsps with
  | [] => Ok None
  | _ =>
    match __init__ (Some (_id_get self)) (Some (_query_id_get self)) (map Inst hsps) with
    | Raise e => Raise e
    | Ok obj => Ok (Some (_transfer_attrs self obj))
    end
  end.

(** [map(self, func)], for a given function [func]. *)
Definition map (self : t) (func : hsp_object -> pyobj hsp_object)
  : result (option t) :=
  let hsps := List.map func (_hsps_get self) in
  match hsps with
  | [] => Ok None
  | _ =>
    match __init__ (Some (_id_get self)) (Some (_query_id_get self)) hsps with
    | Raise e => Raise e
    | Ok obj => Ok (Some (_transfer_attrs self obj))
    end
  end.

(** What [Hit.__getitem__] returns: a Hit for a slice, an HSP otherwise. *)
Inductive item :=
| SlicedHit (h : t)
| HSPItem (o : hsp_object).

(** [self.__class__(self.id, self.query_id, hsps)] followed by
    [self._transfer_attrs(obj)]. *)
Definition rebuild (self : t) (hsps : list hsp_object) : result t :=
  match __init__ (Some (_id_get self)) (Some (_query_id_get self))
                 (List.map Inst hsps) with
  | Raise e => Raise e
  | Ok obj => Ok (_transfer_attrs self obj)
  end.

(** The slice branch of [__getitem__]: [self[start:stop]]. *)
Definition slice (self : t) (start stop : option Z) : result t :=
  rebuild self (list_slice (_hsps self) start stop).

Definition __getitem__ (idx : seq_index) : M t item :=
  fun self =>
    match idx with
    | AtSlice start stop =>
        match slice self start stop with
        | Raise e => (Raise e, self)
        | Ok obj => (Ok (SlicedHit obj), self)
        end
    | AtIndex i =>
        match list_index (_hsps self) i with
        | Raise e => (Raise e, self)
        | Ok o => (Ok (HSPItem o), self)
        end
    end.

Definition set__hsps (hsps : list hsp_object) (self : t) : t :=
  mk (_id self) (_query_id self) (_desc self) hsps (attrs self).

(** [del self._hsps[idx]] *)
Definition __delitem__ (idx : seq_index) : M t unit :=
  fun self =>
    match idx with
    | AtSlice start stop =>
        (Ok tt, set__hsps (list_del_slice (_hsps self) start stop) self)
    | AtIndex i =>
        match list_del_index (_hsps self) i with
        | Raise e => (Raise e, self)
        | Ok l => (Ok tt, set__hsps l self)
        end
    end.

(** [pop(self, index=-1)] *)
Definition pop (index : Z) : M t hsp_object :=
  fun self =>
    match list_pop (_hsps self) index with
    | Raise e => (Raise e, self)
    | Ok (o, l) => (Ok o, set__hsps l self)
    end.

Definition default_pop_index : Z := -1.

(** [self._hsps.reverse()] *)
Definition reverse : M t unit :=
  fun self => (Ok tt, set__hsps (rev (_hsps self)) self).

Definition __reversed__ (self : t) : result t := rebuild self (rev (_hsps self)).

(** [sort(self, key, reverse=False, in_place=True)] for a given [key]
    (without one the order of the HSP objects themselves decides, which
    has no counterpart here); the method returns [None] when it sorts in
    place. *)
Definition sort (key : hsp_object -> Z) (reverse in_place : bool)
  : M t (option t) :=
  fun self =>
    if in_place then (Ok None, set__hsps (sorted (_hsps self) key reverse) self)
    else
      match rebuild self (sorted (_hsps_get self) key reverse) with
      | Raise e => (Raise e, self)
      | Ok obj => (Ok (Some obj), self)
      end.

End Hit.

(** ** OrderedDict with string keys *)

Module OrderedDict.

Definition t (V : Type) : Type := list (string * V).

Definition keys {V} (d : t V) : list string := map fst d.
Definition values {V} (d : t V) : list V := map snd d.

Fixpoint get {V} (d : t V) (k : string) : option V :=
  match d with
  | [] => None
  | (k', v) :: d' => if String.eqb k' k then Some v else get d' k
  end.

(** [k in d] *)
Definition contains {V} (d : t V) (k : string) : bool :=
  match get d k with Some _ => true | None => false end.

(** [d[k] = v]: a present key keeps its place, a new one goes last. *)
Fixpoint set {V} (d : t V) (k : string) (v : V) : t V :=
  match d with
  | [] => [(k, v)]
  | (k', w) :: d' =>
      if String.eqb k' k then (k', v) :: d' else (k', w) :: set d' k v
  end.

(** [del d[k]]: the dictionary without the entry of [k]. *)
Fixpoint remove {V} (d : t V) (k : string) : t V :=
  match d with
  | [] => []
  | (k', v) :: d' => if String.eqb k' k then d' else (k', v) :: remove d' k
  end.

End OrderedDict.

(** ** class QueryResult(BaseSearchObject) *)

Module QueryResult.

Record t := mk {
  _id : string;
  _hit_key_function : option (Hit.t -> string);
  _hits : OrderedDict.t Hit.t;
  program : string;
  target : string;
  version : string;
  _desc : string;
  attrs : BaseSearchObject.dict }.

Definition _NON_STICKY_ATTRS : list string := ["_hits"].

(** [_transfer_attrs(self, obj)]: every entry of [self.__dict__] but
    [_hits] is assigned on [obj]. *)
Definition _transfer_attrs (self obj : t) : t :=
  mk (_id self) (_hit_key_function self) (_hits obj)
     (program self) (target self) (version self) (_desc self)
     (BaseSearchObject._transfer_attrs _NON_STICKY_ATTRS (attrs self) (attrs obj)).

Definition set__hits (d : OrderedDict.t Hit.t) (self : t) : t :=
  mk (_id self) (_hit_key_function self) d
     (program self) (target self) (version self) (_desc self) (attrs self).

Definition _id_get (self : t) : string := _id self.
Definition _hits_get (self : t) : list Hit.t := OrderedDict.values (_hits self).
Definition _hit_keys_get (self : t) : list string := OrderedDict.keys (_hits self).

Definition __len__ (self : t) : Z := Z.of_nat (List.length (_hits self)).

Definition __nonzero__ (self : t) : bool :=
  match _hits self with [] => false | _ => true end.

(** Keys handed to the item methods. *)
Inductive key :=
| KeySlice (start stop : option Z)
| KeyInt (i : Z)
| KeyStr (s : string)
| KeyHit (h : Hit.t)
| KeyOther.

(** [hit_key in self]; a Hit stands for its key.  The key function is
    called as it is, so a missing one is a TypeError; a slice cannot be
    hashed. *)
Definition __contains__ (self : t) (hit_key : key) : result bool :=
  match hit_key with
  | KeyHit h =>
      match _hit_key_function self with
      | Some f => Ok (OrderedDict.contains (_hits self) (f h))
      | None => Raise (TypeError "'NoneType' object is not callable")
      end
  | KeyStr k => Ok (OrderedDict.contains (_hits self) k)
  | KeySlice _ _ => Raise (TypeError "unhashable type")
  | _ => Ok false
  end.

Definition __setitem__ (hit_key : key) (hit : pyobj Hit.t) : M t unit :=
  fun self =>
    match hit_key with
    | KeyStr k =>
      match hit with
      | Inst h =>
          if negb (String.eqb (Hit._query_id_get h) (_id_get self)) then
            (Raise (ValueError ("Expected Hit with query ID '" +++ _id_get self +++
                                "', found '" +++ Hit._query_id_get h +++
                                "' instead.")), self)
          else (Ok tt, set__hits (OrderedDict.set (_hits self) k h) self)
      | _ => (Raise (TypeError "QueryResult objects can only contain Hit objects."), self)
      end
    | _ => (Raise (TypeError "QueryResult object keys must be a string."), self)
    end.

Definition append (hit : Hit.t) : M t unit :=
  fun self =>
    let hit_key := match _hit_key_function self with
                   | Some f => f hit
                   | None => Hit._id_get hit
                   end in
    match __contains__ self (KeyStr hit_key) with
    | Raise e => (Raise e, self)
    | Ok false => __setitem__ (KeyStr hit_key) (Inst hit) self
    | Ok true =>
        (Raise (ValueError ("Hit '" +++ hit_key +++
                            "' already present in this QueryResult.")), self)
    end.

(** The default [hit_key_function]: [lambda hit: hit.id]. *)
Definition default_hit_key_function : option (Hit.t -> string) :=
  Some (fun hit => Hit._id_get hit).

Definition __init__ (id : option string) (hits : list Hit.t)
    (hit_key_function : option (Hit.t -> string)) : result t :=
  match id with
  | None => Raise (ValueError "Query ID string is required for QueryResult creation")
  | Some i =>
      construct (for_each hits append)
        (mk i hit_key_function [] "<unknown>" "<unknown>" "<unknown>" "" [])
  end.

(** What [__getitem__] returns: a QueryResult for a slice, a Hit
    otherwise. *)
Inductive item :=
| SlicedQueryResult (q : t)
| HitItem (h : Hit.t).

(** [self.__class__(self.id, hits, self._hit_key_function)] followed by
    [self._transfer_attrs(obj)]: the way every derived QueryResult is
    built. *)
Definition rebuild (self : t) (hits : list Hit.t) : result t :=
  match __init__ (Some (_id_get self)) hits (_hit_key_function self) with
  | Raise e => Raise e
  | Ok obj => Ok (_transfer_attrs self obj)
  end.

Definition __getitem__ (hit_key : key) : M t item :=
  fun self =>
    match hit_key with
    | KeySlice start stop =>
        match rebuild self (list_slice (_hits_get self) start stop) with
        | Raise e => (Raise e, self)
        | Ok obj => (Ok (SlicedQueryResult obj), self)
        end
    | KeyInt i =>
        match list_index (_hits_get self) i with
        | Raise e => (Raise e, self)
        | Ok h => (Ok (HitItem h), self)
        end
    | KeyStr k =>
        match OrderedDict.get (_hits self) k with
        | Some h => (Ok (HitItem h), self)
        | None => (Raise (KeyError k), self)
        end
    | _ => (Raise (KeyError "<object>"), self)
    end.

(** [self._id = value], then [hit.query_id = value] for every hit. *)
Definition _id_set (value : string) : M t unit :=
  fun self =>
    (Ok tt,
     mk value (_hit_key_function self)
        (map (fun kv => (fst kv, snd (Hit._query_id_set value (snd kv)))) (_hits self))
        (program self) (target self) (version self) (_desc self) (attrs self)).

(** [filter(None, l)] over the outcomes of [Hit.filter] and [Hit.map]:
    [None] is false, a Hit has the truth value of its [__nonzero__]. *)
Fixpoint filter_None (l : list (option Hit.t)) : list Hit.t :=
  match l with
  | [] => []
  | None :: l' => filter_None l'
  | Some h :: l' => if Hit.__nonzero__ h then h :: filter_None l' else filter_None l'
  end.

Definition hit_filter (self : t) (func : Hit.t -> bool) : result t :=
  rebuild self (List.filter func (_hits_get self)).

Definition hsp_filter (self : t) (func : hsp_object -> bool) : result t :=
  match map_result (fun hit => Hit.filter hit func) (_hits_get self) with
  | Raise e => Raise e
  | Ok hits => rebuild self (filter_None hits)
  end.

Definition hsp_map (self : t) (func : hsp_object -> pyobj hsp_object) : result t :=
  match map_result (fun hit => Hit.map hit func) (_hits_get self) with
  | Raise e => Raise e
  | Ok hits => rebuild self (filter_None hits)
  end.

(** [sort(self, key=None, reverse=False, in_place=True)]; the method
    returns [None] when it sorts in place. *)
Definition sort (key : option (Hit.t -> Z)) (reverse in_place : bool)
  : M t (option t) :=
  fun self =>
    let sorted_hits :=
      match key with
      | None => if reverse then rev (_hits_get self) else _hits_get self
      | Some k => sorted (_hits_get self) k reverse
      end in
    if in_place then
      match sorted_hits, _hit_key_function self with
      | [], _ => (Ok None, set__hits [] self)
      | _, None => (Raise (TypeError "'NoneType' object is not callable"), self)
      | _, Some f =>
          (Ok None,
           set__hits
             (fold_left (fun new_hits hit => OrderedDict.set new_hits (f hit) hit)
                        sorted_hits [])
             self)
      end
    else
      match rebuild self sorted_hits with
      | Raise e => (Raise e, self)
      | Ok obj => (Ok (Some obj), self)
      end.

(** [__reversed__(self)] *)
Definition __reversed__ (self : t) : result t := rebuild self (rev (_hits_get self)).

(** [hit_map(self, func)], for a given function [func] returning Hits:
    [func] is applied to the copy [hit[:]] of every hit. *)
Definition hit_map (self : t) (func : Hit.t -> Hit.t) : result t :=
  match map_result
          (fun hit => match Hit.slice hit None None with
                      | Ok copy => Ok (func copy)
                      | Raise e => Raise e
                      end)
          (_hits_get self) with
  | Raise e => Raise e
  | Ok hits => rebuild self hits
  end.

(** [del self._hits[key]] *)
Definition del_key (k : string) : M t unit :=
  fun self =>
    if OrderedDict.contains (_hits self) k
    then (Ok tt, set__hits (OrderedDict.remove (_hits self) k) self)
    else (Raise (KeyError k), self).

Definition __delitem__ (hit_key : key) : M t unit :=
  fun self =>
    match hit_key with
    | KeyInt i =>
        match list_index (_hit_keys_get self) i with
        | Raise e => (Raise e, self)
        | Ok k => for_each [k] del_key self
        end
    | KeySlice start stop =>
        for_each (list_slice (_hit_keys_get self) start stop) del_key self
    | KeyStr k => for_each [k] del_key self
    | _ => (Raise (KeyError "<object>"), self)
    end.

(** The [except KeyError] branch of [pop]: the default, or a KeyError
    when the marker was left in place ([default] is [None]). *)
Definition pop_missing (shown : string) (default : option (pyobj Hit.t))
  : M t (pyobj Hit.t) :=
  match default with
  | None => raise (KeyError shown)
  | Some d => ret d
  end.

(** [self._hits.pop(k)] for a string [k], inside the [try]. *)
Definition pop_key (k : string) (default : option (pyobj Hit.t))
  : M t (pyobj Hit.t) :=
  fun self =>
    match OrderedDict.get (_hits self) k with
    | Some h => (Ok (Inst h), set__hits (OrderedDict.remove (_hits self) k) self)
    | None => pop_missing k default self
    end.

(** [pop(self, hit_key=-1, default=__marker)].  The value returned is the
    Hit or the default. *)
Definition pop (hit_key : key) (default : option (pyobj Hit.t))
  : M t (pyobj Hit.t) :=
  fun self =>
    match hit_key with
    | KeyInt i =>
        if negb (__nonzero__ self)
        then (Raise (IndexError "pop from empty list"), self)
        else match list_index (_hit_keys_get self) i with
             | Raise e => (Raise e, self)
             | Ok k => pop_key k default self
             end
    | KeyStr k => pop_key k default self
    | KeySlice _ _ => (Raise (TypeError "unhashable type"), self)
    | _ => pop_missing "<object>" default self
    end.

Definition default_pop_key : key := KeyInt (-1).

(** [index(self, hit_key)]: a Hit stands for its id; [-1] when the key
    is not found. *)
Definition index (self : t) (hit_key : key) : Z :=
  let position (k : string) :=
    match list_find (_hit_keys_get self) k with
    | Some i => i
    | None => -1
    end in
  match hit_key with
  | KeyHit h => position (Hit._id_get h)
  | KeyStr k => position k
  | _ => -1
  end.

End QueryResult.

(** ** Strand and frame of an HSP *)

(** The strand and frame attributes of an HSP instance: [None] is an
    attribute never assigned; a frame may hold Python's [None]
    ([Some None]) or an integer. *)
Module Strand.

Record t := mk {
  _hit_strand : option Z;
  hit_frame : option (option Z);
  _query_strand : option Z;
  query_frame : option (option Z) }.

Definition set__hit_strand (v : Z) (s : t) : t :=
  mk (Some v) (hit_frame s) (_query_strand s) (query_frame s).
Definition set__query_strand (v : Z) (s : t) : t :=
  mk (_hit_strand s) (hit_frame s) (Some v) (query_frame s).
Definition set_hit_frame (v : option Z) (s : t) : t :=
  mk (_hit_strand s) (Some v) (_query_strand s) (query_frame s).
Definition set_query_frame (v : option Z) (s : t) : t :=
  mk (_hit_strand s) (hit_frame s) (_query_strand s) (Some v).

(** [self.frame / abs(self.frame)], integer division rounding down. *)
Definition frame_quotient (name : string) (frame : option (option Z)) : result Z :=
  match frame with
  | None => Raise (AttributeError ("object has no attribute '" +++ name +++ "'"))
  | Some None => Raise (TypeError "bad operand type for abs(): 'NoneType'")
  | Some (Some f) =>
      if Z.abs f =? 0
      then Raise (ZeroDivisionError "integer division or modulo by zero")
      else Ok (f / Z.abs f)
  end.

(** The body shared by the two strand getters. *)
Definition strand_get (strand : t -> option Z) (set : Z -> t -> t)
    (attr frame_name : string) (frame : t -> option (option Z)) (msg : string)
  : M t Z :=
  has <- hasattr strand ;;
  (if negb has then
     fun self =>
       match frame_quotient frame_name (frame self) with
       | Ok v => (Ok tt, set v self)
       | Raise (ZeroDivisionError _) => (Ok tt, set 0 self)
       | Raise (AttributeError _) => (Raise (AttributeError msg), self)
       | Raise (TypeError _) => (Raise (AttributeError msg), self)
       | Raise e => (Raise e, self)
       end
   else ret tt) ;;;
  getattr attr strand.

Definition _hit_strand_get : M t Z :=
  strand_get _hit_strand set__hit_strand "_hit_strand" "hit_frame" hit_frame
             "Not enought is known to compute hit strand".

Definition _query_strand_get : M t Z :=
  strand_get _query_strand set__query_strand "_query_strand" "query_frame"
             query_frame "Not enough is known to compute query strand".

(** The body shared by the two strand setters; [value] is [None] for
    Python's [None]. *)
Definition strand_set (set : Z -> t -> t) (value : option Z) : M t unit :=
  fun self =>
    match value with
    | Some v =>
        if existsb (Z.eqb v) [-1; 0; 1] then (Ok tt, set v self)
        else (Raise (ValueError ("Strand should be -1, 0, 1, or None; not "
                                 +++ repr_int v)), self)
    | None =>
        (Raise (ValueError "Strand should be -1, 0, 1, or None; not None"), self)
    end.

Definition _hit_strand_set : option Z -> M t unit := strand_set set__hit_strand.
Definition _query_strand_set : option Z -> M t unit := strand_set set__query_strand.

(** A strand that is present is one of -1, 0, 1. *)
Definition strand_valid (o : option Z) : Prop :=
  match o with
  | Some v => v = -1 \/ v = 0 \/ v = 1
  | None => True
  end.

Definition valid (s : t) : Prop :=
  strand_valid (_hit_strand s) /\ strand_valid (_query_strand s).

End Strand.

(** ** Invariants and tables used by the statements *)

Module Invariants.

Import HSP.

(** Whether the attribute behind a percentage property is absent; the
    four counts are covered by the hypotheses of the statements below. *)
Definition own_value_unset (m : metric) (h : t) : Prop :=
  match m with
  | ident_pct => _ident_pct h = None
  | pos_pct => _pos_pct h = None
  | gap_pct => _gap_pct h = None
  | _ => True
  end.

Definition insufficiency_message (m : metric) : string :=
  match m with
  | ali_len => "Not enough is known to compute initial length"
  | ident_num => "Not enough is known to compute identities"
  | mismatch_num => "Not enough is known to compute mismatches"
  | gap_num => "Not enough is known to compute gaps"
  | ident_pct => "Not enough is known to compute identity percentage"
  | pos_pct => "Not enough is known to compute positive percentage"
  | gap_pct => "Not enough is known to compute gap percentage"
  end.

(** The alignment length is present and holds [v]. *)
Definition ali_len_is (v : Z) (h : t) : Prop := _ali_len h = Some v.

(** The Hit invariant: every owned HSP carries the Hit's id and
    query id. *)
Definition hit_consistent (h : Hit.t) : Prop :=
  Forall (fun o => hsp_hit_id o = Hit._id h /\ hsp_query_id o = Hit._query_id h)
         (Hit._hsps h).

(** The key under which a QueryResult stores a hit on [append]: the
    value of the key function, or the id of the hit without one. *)
Definition key_of (hit_key_function : option (Hit.t -> string)) (hit : Hit.t)
  : string :=
  match hit_key_function with
  | Some f => f hit
  | None => Hit._id_get hit
  end.

Definition hit_key (q : QueryResult.t) : Hit.t -> string :=
  key_of (QueryResult._hit_key_function q).

(** The QueryResult invariant: every owned Hit carries the id of the
    QueryResult as query id, and the hits have pairwise distinct keys. *)
Definition query_consistent (q : QueryResult.t) : Prop :=
  Forall (fun h => Hit._query_id h = QueryResult._id q) (QueryResult._hits_get q) /\
  NoDup (map (hit_key q) (QueryResult._hits_get q)).

(** The key of a hit depends on its id only (as the default one does). *)
Definition keyed_by_id (q : QueryResult.t) : Prop :=
  forall x y, Hit._id x = Hit._id y -> hit_key q x = hit_key q y.

(** The Hit derived from [h] that owns the HSPs [hsps]: the ids of [h],
    and every attribute of [h] but [_hsps]. *)
Definition derived_hit (h : Hit.t) (hsps : list hsp_object) : Hit.t :=
  Hit._transfer_attrs h (Hit.mk (Hit._id h) (Hit._query_id h) "" hsps []).

Definition nonempty {A} (l : list A) : bool :=
  match l with [] => false | _ => true end.

(** [isinstance(hit_key, basestring)] and [isinstance(hit, Hit)]. *)
Definition is_string_key (k : QueryResult.key) : bool :=
  match k with QueryResult.KeyStr _ => true | _ => false end.

Definition is_Hit (o : pyobj Hit.t) : bool :=
  match o with Inst _ => true | _ => false end.

End Invariants.

(** ** Example objects *)

Module Examples.

(** [HSP('hit1', 'query1')], nothing else set. *)
Definition bare_hsp : HSP.t :=
  HSP.mk "hit1" "query1" single_letter_alphabet []
         None None None None None None None None.

(** The same after [ident_num = 90; mismatch_num = 5; gap_num = 5]. *)
Definition counted_hsp : HSP.t :=
  snd (HSP._gap_num_set 5
    (snd (HSP._mismatch_num_set 5
      (snd (HSP._ident_num_set 90 bare_hsp))))).

(** [counted_hsp] on which a parser also stored [ident_pct = 50.0]. *)
Definition counted_hsp_with_pct : HSP.t :=
  snd (HSP._ident_pct_set (float_of_Z 50) counted_hsp).

(** An HSP for which only the identity percentage was parsed. *)
Definition pct_only_hsp : HSP.t :=
  snd (HSP._ident_pct_set (float_of_Z 50) bare_hsp).

(** Three hits of query ['query1'], the first two with HSPs. *)
Definition hsp_of (hit_id : string) : hsp_object :=
  PlainHSP (HSP.mk hit_id "query1" single_letter_alphabet []
                   None None None None None None None None).

(** An HSP with a parsed alignment length. *)
Definition long_hsp_of (hit_id : string) : hsp_object :=
  hsp_update (HSP.set__ali_len 340) (hsp_of hit_id).

Definition hit1 : Hit.t :=
  Hit.mk "hit1" "query1" "" [long_hsp_of "hit1"; hsp_of "hit1"]
         [("seq_len", BaseSearchObject.AttrInt 2301)].
Definition hit2 : Hit.t :=
  Hit.mk "hit2" "query1" "" [hsp_of "hit2"] [].
Definition hit3 : Hit.t :=
  Hit.mk "hit3" "query1" "" [] [].

(** A hit found for another query. *)
Definition foreign_hit : Hit.t :=
  Hit.mk "hit4" "query2" "" [] [].

(** [QueryResult('query1', [hit1, hit2, hit3])] with attributes set by
    a parser. *)
Definition qresult : QueryResult.t :=
  QueryResult.mk "query1" QueryResult.default_hit_key_function
    [("hit1", hit1); ("hit2", hit2); ("hit3", hit3)]
    "TBLASTX" "refseq_mrna" "2.2.26+" ""
    [("seq_len", BaseSearchObject.AttrInt 1083)].

(** [SegmentedHSP('hit1', 'query1', [('AAA', 'AAT'), ('CC', 'CG')])] *)
Definition segmented_hsp : SegmentedHSP.t :=
  SegmentedHSP.mk bare_hsp
    (Some [mkSeqRecord (mkSeq "AAT" single_letter_alphabet) "hit1"
                       "aligned hit sequence" "";
           mkSeqRecord (mkSeq "CG" single_letter_alphabet) "hit1"
                       "aligned hit sequence" ""])
    (Some [mkSeqRecord (mkSeq "AAA" single_letter_alphabet) "query1"
                       "aligned query sequence" "";
           mkSeqRecord (mkSeq "CC" single_letter_alphabet) "query1"
                       "aligned query sequence" ""])
    None.

(** The same after [hsp.query = ['AAA']]: one query block, two hit
    blocks, no alignment read so far. *)
Definition uneven_segmented_hsp : SegmentedHSP.t :=
  snd (SegmentedHSP._query_set [ArgStr "AAA"] segmented_hsp).

(** [segmented_hsp] after reading [hsp.alignment] and then assigning
    [hsp.query = ['AAA']]. *)
Definition reassigned_segmented_hsp : SegmentedHSP.t :=
  snd (SegmentedHSP._query_set [ArgStr "AAA"]
         (snd (SegmentedHSP._alignment_get segmented_hsp))).

(** [QueryResult('query1')], no hits yet. *)
Definition empty_qresult : QueryResult.t :=
  QueryResult.mk "query1" QueryResult.default_hit_key_function []
    "<unknown>" "<unknown>" "<unknown>" "" [].

(** The same after [q['a'] = hit1; q['b'] = hit1]: one hit stored under
    two keys. *)
Definition twice_keyed_qresult : QueryResult.t :=
  snd (QueryResult.__setitem__ (QueryResult.KeyStr "b") (Inst hit1)
    (snd (QueryResult.__setitem__ (QueryResult.KeyStr "a") (Inst hit1)
            empty_qresult))).

(** [QueryResult('query1', [hit1, hit2], hit_key_function=None)] *)
Definition unkeyed_qresult : QueryResult.t :=
  QueryResult.mk "query1" None [("hit1", hit1); ("hit2", hit2)]
    "<unknown>" "<unknown>" "<unknown>" "" [].

(** [QueryResult('query1', [hit1, hit2])] after [hit2.query_id = 'query2']
    was assigned on the contained hit. *)
Definition drifted_qresult : QueryResult.t :=
  QueryResult.mk "query1" QueryResult.default_hit_key_function
    [("hit1", hit1); ("hit2", snd (Hit._query_id_set "query2" hit2))]
    "<unknown>" "<unknown>" "<unknown>" "" [].

(** An HSP for which length, identities and gaps were parsed. *)
Definition measured_hsp : HSP.t :=
  snd (HSP._gap_num_set 5
    (snd (HSP._ident_num_set 90
      (snd (HSP._ali_len_set 100 bare_hsp))))).

(** An HSP whose parsed alignment length is 0. *)
Definition empty_alignment_hsp : HSP.t :=
  snd (HSP._ident_num_set 0 (snd (HSP._ali_len_set 0 bare_hsp))).

(** Strand attributes of an HSP whose hit frame is -2 and whose query
    frame was never assigned. *)
Definition framed : Strand.t :=
  Strand.mk None (Some (Some (-2))) None None.

(** A predicate on HSPs: the alignment length was parsed. *)
Definition has_ali_len (o : hsp_object) : bool :=
  match HSP._ali_len (hsp_base o) with Some _ => true | None => false end.

(** A sort key on HSPs: the parsed alignment length, 0 without one. *)
Definition by_ali_len (o : hsp_object) : Z :=
  match HSP._ali_len (hsp_base o) with Some v => v | None => 0 end.

(** A sort key on hits: the number of HSPs. *)
Definition by_hsp_count (h : Hit.t) : Z := Hit.__len__ h.

(** A predicate on hits: the hit owns at least one HSP. *)
Definition has_hsps (h : Hit.t) : bool := Hit.__nonzero__ h.

(** A fourth hit of query ['query1']. *)
Definition hit4 : Hit.t :=
  Hit.mk "hit4" "query1" "" [hsp_of "hit4"] [].

(** [ContiguousHSP('hit1', 'query1')], no sequence assigned yet. *)
Definition contiguous_hsp : ContiguousHSP.t :=
  ContiguousHSP.mk bare_hsp None None None.

End Examples.

(** ** Further notions used by the statements *)

Module Laws.

Import HSP.

Definition is_count (m : metric) : bool :=
  match m with
  | ali_len | ident_num | mismatch_num | gap_num => true
  | _ => false
  end.

(** The attribute behind each of the four counts. *)
Definition stored (m : metric) (h : t) : option Z :=
  match m with
  | ali_len => _ali_len h
  | ident_num => _ident_num h
  | mismatch_num => _mismatch_num h
  | gap_num => _gap_num h
  | _ => None
  end.

(** The attribute behind each of the seven properties. *)
Definition slot (m : metric) (h : t) : option number :=
  match m with
  | ali_len => option_map Int (_ali_len h)
  | ident_num => option_map Int (_ident_num h)
  | mismatch_num => option_map Int (_mismatch_num h)
  | gap_num => option_map Int (_gap_num h)
  | ident_pct => option_map Float (_ident_pct h)
  | pos_pct => option_map Float (_pos_pct h)
  | gap_pct => option_map Float (_gap_pct h)
  end.

(** The count a percentage is computed from. *)
Definition numerator (m : metric) (h : t) : option Z :=
  match m with
  | ident_pct => _ident_num h
  | pos_pct => pos_num h
  | gap_pct => _gap_num h
  | _ => None
  end.

(** The four counts are present and satisfy
    [ali_len = ident_num + mismatch_num + gap_num]. *)
Definition golden (h : t) : Prop :=
  exists a i x g,
    _ali_len h = Some a /\ _ident_num h = Some i /\
    _mismatch_num h = Some x /\ _gap_num h = Some g /\ a = i + x + g.

(** The keys of the ordered mapping are pairwise distinct. *)
Definition unique_keys (q : QueryResult.t) : Prop :=
  NoDup (QueryResult._hit_keys_get q).

(** Ascending in [key]. *)
Definition ascending {A} (key : A -> Z) (l : list A) : Prop :=
  Sorted (fun x y => key x <= key y) l.

(** Descending in [key]. *)
Definition descending {A} (key : A -> Z) (l : list A) : Prop :=
  Sorted (fun x y => key y <= key x) l.

(** The argument is not a SeqRecord object: it is a string, from which a
    new record is built, or an object that [_prep_seq] refuses. *)
Definition not_a_record (v : seq_arg) : bool :=
  match v with ArgSeqRecord _ => false | _ => true end.

(** The record [_prep_seq] builds from a string. *)
Definition record_of (alphabet : Alphabet) (seq_id : string) (ty : seq_type)
    (residues : string) : SeqRecord :=
  mkSeqRecord (mkSeq residues alphabet) seq_id
              ("aligned " +++ seq_type_str ty +++ " sequence") "".

(** The attribute behind each of the three percentages. *)
Definition stored_pct (m : metric) (h : t) : option float :=
  match m with
  | ident_pct => _ident_pct h
  | pos_pct => _pos_pct h
  | gap_pct => _gap_pct h
  | _ => None
  end.

(** Items of equal key stand in [l'] in the order they have in [l]. *)
Definition stable {A} (key : A -> Z) (l l' : list A) : Prop :=
  forall v, filter (fun x => key x =? v) l' = filter (fun x => key x =? v) l.

(** Every hit is stored under its own key and carries the id of the
    QueryResult as query id, and the keys are pairwise distinct. *)
Definition well_keyed (q : QueryResult.t) : Prop :=
  unique_keys q /\
  Forall (fun kv => fst kv = Invariants.hit_key q (snd kv) /\
                    Hit._query_id (snd kv) = QueryResult._id q)
         (QueryResult._hits q).

End Laws.

(** * Properties *)

(** ** Generic facts about the monad *)

Section Preservation.
Context {S : Type} (P : S -> Prop).

Lemma preserves_ret {A} (a : A) : preserves P (@ret S A a).
Proof. intros s H; exact H. Qed.

Lemma preserves_raise {A} (e : exn) : preserves P (@raise S A e).
Proof. intros s H; exact H. Qed.

Lemma preserves_bind {A B} (m : M S A) (k : A -> M S B) :
  preserves P m -> (forall a, preserves P (k a)) -> preserves P (bind m k).
Proof.
  intros Hm Hk s H. unfold bind.
  specialize (Hm s H). destruct (m s) as [[a | e] s']; simpl in *.
  - apply Hk, Hm.
  - exact Hm.
Qed.

Lemma preserves_try {A} (m : M S A) msg :
  preserves P m -> preserves P (try_except_AttributeError m msg).
Proof.
  intros Hm s H. unfold try_except_AttributeError.
  specialize (Hm s H). destruct (m s) as [[a | []] s']; exact Hm.
Qed.

Lemma preserves_hasattr {A} (f : S -> option A) : preserves P (hasattr f).
Proof. intros s H; exact H. Qed.

Lemma preserves_getattr {A} name (f : S -> option A) :
  preserves P (getattr name f).
Proof. intros s H. unfold getattr. destruct (f s); exact H. Qed.

Lemma preserves_py_float n : preserves P (@py_float S n).
Proof. intros s H. unfold py_float. destruct (float_of_Z n); exact H. Qed.

Lemma preserves_int_div_float n d : preserves P (@int_div_float S n d).
Proof.
  apply preserves_bind; [apply preserves_py_float | intros a].
  destruct (float_is_zero d); [apply preserves_raise | apply preserves_ret].
Qed.

Lemma preserves_float_mul_int x n : preserves P (@float_mul_int S x n).
Proof.
  apply preserves_bind; [apply preserves_py_float | intros; apply preserves_ret].
Qed.
End Preservation.

(** ** The metric algebra of HSP *)

Module HSPFacts.
Import HSP.

(** Ninety, as the float [90.0]. *)
Example float_90 : float_of_Z 90 = S754_finite false 6333186975989760 (-46).
Proof. reflexivity. Qed.

(** A value already held by [_ali_len] is returned as it is. *)
Lemma ali_len_get_present (h : t) (v : Z) :
  _ali_len h = Some v -> _ali_len_get h = (Ok v, h).
Proof.
  intros H. unfold _ali_len_get, bind, hasattr, getattr.
  rewrite H. cbn. now rewrite H.
Qed.

Section ExplicitAliLen.
Variable v : Z.

Lemma keeps_ali_len_get : preserves (Invariants.ali_len_is v) _ali_len_get.
Proof. intros h H. now rewrite (ali_len_get_present h v H). Qed.

Lemma keeps_assign {A} (set : A -> t -> t) (a : A) :
  (forall h, _ali_len (set a h) = _ali_len h) ->
  preserves (Invariants.ali_len_is v) (assign set a).
Proof.
  intros Hset h H. unfold Invariants.ali_len_is, assign in *; simpl.
  now rewrite Hset.
Qed.

Ltac keep_step :=
  first
    [ apply keeps_ali_len_get
    | apply preserves_int_div_float
    | apply preserves_float_mul_int
    | apply preserves_py_float
    | apply preserves_try
    | apply preserves_hasattr
    | apply preserves_getattr
    | apply preserves_ret
    | apply preserves_raise
    | apply keeps_assign; intros; reflexivity
    | match goal with |- preserves _ (if ?b then _ else _) => destruct b end
    | apply preserves_bind; [ | intros ? ] ].

Lemma keeps_ident_num_get : preserves (Invariants.ali_len_is v) _ident_num_get.
Proof. unfold _ident_num_get; repeat keep_step. Qed.

Lemma keeps_mismatch_num_get :
  preserves (Invariants.ali_len_is v) _mismatch_num_get.
Proof. unfold _mismatch_num_get; repeat keep_step. Qed.

Lemma keeps_gap_num_get : preserves (Invariants.ali_len_is v) _gap_num_get.
Proof. unfold _gap_num_get; repeat keep_step. Qed.

Lemma keeps_percentage (count : M t Z) :
  preserves (Invariants.ali_len_is v) count ->
  preserves (Invariants.ali_len_is v) (percentage count).
Proof.
  intros Hc. unfold percentage.
  apply preserves_bind; [exact Hc | intros ?]; repeat keep_step.
Qed.

Ltac keep_getter :=
  first
    [ apply keeps_ident_num_get
    | apply keeps_mismatch_num_get
    | apply keeps_gap_num_get
    | apply keeps_percentage
    | keep_step ].

Lemma keeps_read (m : metric) : preserves (Invariants.ali_len_is v) (read m).
Proof.
  destruct m; unfold read, _ident_pct_get, _pos_pct_get, _gap_pct_get;
    repeat keep_getter.
Qed.

Lemma keeps_after_reads (ms : list metric) (h : t) :
  Invariants.ali_len_is v h -> Invariants.ali_len_is v (after_reads ms h).
Proof.
  revert h; induction ms as [| m ms IH]; intros h H; simpl; [exact H |].
  apply IH, keeps_read, H.
Qed.

(** Once [_ali_len] holds [v], every later read of [ali_len] yields [v],
    whatever other metrics were read in between. *)
Lemma explicit_ali_len_sticks (ms : list metric) (h : t) :
  _ali_len h = Some v ->
  fst (_ali_len_get (after_reads ms h)) = Ok v.
Proof.
  intros H. pose proof (keeps_after_reads ms h H) as H'.
  now rewrite (ali_len_get_present _ v H').
Qed.
End ExplicitAliLen.

End HSPFacts.

(** * The claims *)

Section MetricClaims.
Import HSP Invariants.

(** Claim C1 as stated fails: on an HSP with [ident_num = 90],
    [mismatch_num = 5], [gap_num = 5], no [ali_len], and an [ident_pct]
    of 50.0 stored by the parser, reading [ali_len] yields 100 but the
    following read of [ident_pct] yields the stored 50.0, not 90.0. *)
Lemma parsed_ident_pct_is_not_recomputed :
  HSP.__init__ (Some "hit1") (Some "query1") (ArgStr "") (ArgStr "")
    single_letter_alphabet = Ok Examples.bare_hsp /\
  _ident_num Examples.counted_hsp_with_pct = Some 90 /\
  _mismatch_num Examples.counted_hsp_with_pct = Some 5 /\
  _gap_num Examples.counted_hsp_with_pct = Some 5 /\
  _ali_len Examples.counted_hsp_with_pct = None /\
  fst (_ali_len_get Examples.counted_hsp_with_pct) = Ok 100 /\
  fst (_ident_pct_get (snd (_ali_len_get Examples.counted_hsp_with_pct)))
    = Ok (float_of_Z 50) /\
  fst (_ident_pct_get (snd (_ali_len_get Examples.counted_hsp_with_pct)))
    <> Ok (float_of_Z 90).
Proof. repeat split; try reflexivity. vm_compute. discriminate. Qed.

(** Claim C1, amended: on every HSP whose [ident_num], [mismatch_num] and
    [gap_num] hold 90, 5 and 5, with neither [ali_len] nor [ident_pct]
    present, reading [ali_len] returns 100 and caches it, the following
    read of [ident_pct] returns 90.0, and once [ali_len] is set to 120
    every later read of [ali_len] returns 120, whatever metrics are read
    in between. *)
Theorem counts_determine_length_and_percentage (h : t) :
  _ident_num h = Some 90 -> _mismatch_num h = Some 5 ->
  _gap_num h = Some 5 -> _ali_len h = None -> _ident_pct h = None ->
  exists h1 h2 h3,
    _ali_len_get h = (Ok 100, h1) /\ _ali_len h1 = Some 100 /\
    _ident_pct_get h1 = (Ok (float_of_Z 90), h2) /\
    _ali_len_set 120 h2 = (Ok tt, h3) /\
    forall ms, fst (_ali_len_get (after_reads ms h3)) = Ok 120.
Proof.
  intros Hi Hm Hg Ha Hp. destruct h; simpl in *; subst.
  do 3 eexists. split; [reflexivity |]. split; [reflexivity |].
  split; [vm_compute; reflexivity |]. split; [reflexivity |].
  intros ms. apply HSPFacts.explicit_ali_len_sticks. reflexivity.
Qed.

Lemma counts_determine_length_and_percentage_witness :
  exists h1 h2 h3,
    _ali_len_get Examples.counted_hsp = (Ok 100, h1) /\
    _ali_len h1 = Some 100 /\
    _ident_pct_get h1 = (Ok (float_of_Z 90), h2) /\
    _ali_len_set 120 h2 = (Ok tt, h3) /\
    forall ms, fst (_ali_len_get (after_reads ms h3)) = Ok 120.
Proof.
  apply (counts_determine_length_and_percentage Examples.counted_hsp);
    reflexivity.
Defined.

(** Claim C2 as stated fails: on an HSP with none of [ali_len],
    [ident_num], [mismatch_num], [gap_num] present but with a parsed
    [ident_pct] of 50.0, reading [ident_pct] returns 50.0 instead of
    failing. *)
Lemma parsed_percentage_needs_no_counts :
  HSP.__init__ (Some "hit1") (Some "query1") (ArgStr "") (ArgStr "")
    single_letter_alphabet = Ok Examples.bare_hsp /\
  _ali_len Examples.pct_only_hsp = None /\
  _ident_num Examples.pct_only_hsp = None /\
  _mismatch_num Examples.pct_only_hsp = None /\
  _gap_num Examples.pct_only_hsp = None /\
  read ident_pct Examples.pct_only_hsp
    = (Ok (Float (float_of_Z 50)), Examples.pct_only_hsp).
Proof. repeat split. Qed.

(** Claim C2, amended: on every HSP with none of [ali_len], [ident_num],
    [mismatch_num], [gap_num] present, reading any of these four, or any
    of [ident_pct], [pos_pct], [gap_pct] that is not itself present,
    raises the AttributeError "Not enough is known ..." of that property
    and leaves the HSP as it was; no default is returned.  A percentage
    that is present is returned as it is, and the HSP is left as it
    was. *)
Theorem unset_metrics_raise_insufficiency (h : t) (m : metric) :
  _ali_len h = None -> _ident_num h = None ->
  _mismatch_num h = None -> _gap_num h = None ->
  (own_value_unset m h ->
   read m h = (Raise (AttributeError (insufficiency_message m)), h)) /\
  (forall v, Laws.stored_pct m h = Some v -> read m h = (Ok (Float v), h)).
Proof.
  intros Ha Hi Hm Hg. destruct h; simpl in *; subst. split.
  - intros Ho. destruct m; simpl in Ho; subst; try reflexivity.
    destruct pos_num0; reflexivity.
  - intros v Hv. destruct m; simpl in Hv; try discriminate; subst; reflexivity.
Qed.

Lemma unset_metrics_raise_insufficiency_witness :
  read gap_pct Examples.pct_only_hsp
  = (Raise (AttributeError "Not enough is known to compute gap percentage"),
     Examples.pct_only_hsp) /\
  read ident_pct Examples.pct_only_hsp
  = (Ok (Float (float_of_Z 50)), Examples.pct_only_hsp).
Proof.
  split.
  - apply (proj1 (unset_metrics_raise_insufficiency Examples.pct_only_hsp gap_pct
                    eq_refl eq_refl eq_refl eq_refl)).
    reflexivity.
  - apply (proj2 (unset_metrics_raise_insufficiency Examples.pct_only_hsp ident_pct
                    eq_refl eq_refl eq_refl eq_refl)).
    reflexivity.
Defined.

End MetricClaims.

(** ** Identity cascades *)

Section IdentityClaims.
Import Invariants.

Lemma hsp_update_hit_id (v : string) (o : hsp_object) :
  hsp_hit_id (hsp_update (HSP.set_hit_id v) o) = v /\
  hsp_query_id (hsp_update (HSP.set_hit_id v) o) = hsp_query_id o.
Proof. destruct o; split; reflexivity. Qed.

Lemma hsp_update_query_id (v : string) (o : hsp_object) :
  hsp_query_id (hsp_update (HSP.set_query_id v) o) = v /\
  hsp_hit_id (hsp_update (HSP.set_query_id v) o) = hsp_hit_id o.
Proof. destruct o; split; reflexivity. Qed.

Lemma hit_query_id_set_eq (X : string) (h : Hit.t) :
  Hit._query_id_set X h
  = (Ok tt, Hit.mk (Hit._id h) X (Hit._desc h)
                   (map (hsp_update (HSP.set_query_id X)) (Hit._hsps h))
                   (Hit.attrs h)).
Proof.
  unfold Hit._query_id_set, Hit._hsps_get.
  destruct (Hit._hsps h); reflexivity.
Qed.



End IdentityClaims.

(** ** Rejected insertions *)

Section InsertionClaims.
Import Invariants.

(** Claim C4: for a Hit [h] whose query id differs from [q.id], both
    [q.append(h)] and [q[k] = h] (for a string key [k]) raise a
    ValueError and leave [q] exactly as it was; an assignment whose key
    is not a string or whose value is not a Hit raises a TypeError and
    leaves [q] as it was. *)
Theorem foreign_hit_is_rejected (q : QueryResult.t) (h : Hit.t) (k : string) :
  Hit._query_id_get h <> QueryResult._id_get q ->
  (exists msg, QueryResult.append h q = (Raise (ValueError msg), q)) /\
  (exists msg,
     QueryResult.__setitem__ (QueryResult.KeyStr k) (Inst h) q
     = (Raise (ValueError msg), q)) /\
  (forall (hit_key : QueryResult.key) (value : pyobj Hit.t),
     is_string_key hit_key = false \/ is_Hit value = false ->
     exists msg,
       QueryResult.__setitem__ hit_key value q = (Raise (TypeError msg), q)).
Proof.
  intros Hne.
  assert (Hset : forall k',
    exists msg, QueryResult.__setitem__ (QueryResult.KeyStr k') (Inst h) q
                = (Raise (ValueError msg), q)).
  { intros k'. unfold QueryResult.__setitem__.
    destruct (String.eqb_spec (Hit._query_id_get h) (QueryResult._id_get q))
      as [Heq | _]; [contradiction |].
    simpl. eexists; reflexivity. }
  repeat split.
  - unfold QueryResult.append, QueryResult.__contains__.
    match goal with
    | |- context [OrderedDict.contains ?d ?key] =>
        destruct (OrderedDict.contains d key)
    end.
    + eexists; reflexivity.
    + apply Hset.
  - apply Hset.
  - intros hit_key value [Hk | Hv].
    + destruct hit_key; try discriminate; eexists; reflexivity.
    + destruct hit_key; try (eexists; reflexivity).
      destruct value; try discriminate; eexists; reflexivity.
Qed.

Lemma foreign_hit_is_rejected_witness :
  (exists msg, QueryResult.append Examples.foreign_hit Examples.qresult
               = (Raise (ValueError msg), Examples.qresult)) /\
  (exists msg,
     QueryResult.__setitem__ (QueryResult.KeyStr "hit4")
       (Inst Examples.foreign_hit) Examples.qresult
     = (Raise (ValueError msg), Examples.qresult)) /\
  (forall (hit_key : QueryResult.key) (value : pyobj Hit.t),
     is_string_key hit_key = false \/ is_Hit value = false ->
     exists msg,
       QueryResult.__setitem__ hit_key value Examples.qresult
       = (Raise (TypeError msg), Examples.qresult)).
Proof.
  apply (foreign_hit_is_rejected Examples.qresult Examples.foreign_hit "hit4").
  discriminate.
Defined.

End InsertionClaims.

(** ** Lists, dictionaries and rebuilt containers *)

Section ListFacts.
Context {A : Type}.

Lemma clamp_index_range (n : Z) (i : option Z) (dflt : Z) :
  0 <= n -> 0 <= dflt <= n -> 0 <= clamp_index n i dflt <= n.
Proof.
  intros Hn Hd. unfold clamp_index. destruct i as [i |]; [| exact Hd].
  destruct (Z.ltb_spec i 0); lia.
Qed.

Lemma list_slice_length (l : list A) (start stop : option Z) :
  let n := Z.of_nat (List.length l) in
  Z.of_nat (List.length (list_slice l start stop))
  = Z.max 0 (clamp_index n stop n - clamp_index n start 0).
Proof.
  intros n. unfold list_slice. fold n.
  pose proof (clamp_index_range n start 0 ltac:(lia) ltac:(lia)) as Hlo.
  pose proof (clamp_index_range n stop n ltac:(lia) ltac:(lia)) as Hhi.
  rewrite length_firstn, length_skipn. lia.
Qed.

Lemma list_slice_sublist (l : list A) (start stop : option Z) :
  exists before after, l = (before ++ list_slice l start stop ++ after)%list.
Proof.
  unfold list_slice. do 2 eexists.
  rewrite <- (firstn_skipn (Z.to_nat (clamp_index (Z.of_nat (List.length l)) start 0)) l)
    at 1.
  f_equal. symmetry. apply firstn_skipn.
Qed.

Lemma Forall_list_slice (P : A -> Prop) (l : list A) (start stop : option Z) :
  Forall P l -> Forall P (list_slice l start stop).
Proof.
  intros H. destruct (list_slice_sublist l start stop) as (b & a & E).
  rewrite E in H. apply Forall_app in H. destruct H as [_ H].
  apply Forall_app in H. tauto.
Qed.

Lemma NoDup_map_list_slice {B} (f : A -> B) (l : list A) (start stop : option Z) :
  NoDup (map f l) -> NoDup (map f (list_slice l start stop)).
Proof.
  intros H. destruct (list_slice_sublist l start stop) as (b & a & E).
  rewrite E, !map_app in H.
  apply NoDup_app_remove_l in H. now apply NoDup_app_remove_r in H.
Qed.
End ListFacts.

Section DictFacts.
Import BaseSearchObject.

Lemma lookup_setattr_same (name : string) (v : attr_value) (d : dict) :
  lookup name (setattr name v d) = Some v.
Proof.
  induction d as [| [k w] d IH]; simpl.
  - now rewrite String.eqb_refl.
  - destruct (String.eqb_spec k name) as [-> | Hne]; simpl.
    + now rewrite String.eqb_refl.
    + apply String.eqb_neq in Hne. now rewrite Hne.
Qed.

Lemma lookup_setattr_other (k name : string) (v : attr_value) (d : dict) :
  k <> name -> lookup name (setattr k v d) = lookup name d.
Proof.
  intros Hne. induction d as [| [k' w] d IH]; simpl.
  - apply String.eqb_neq in Hne. now rewrite Hne.
  - destruct (String.eqb_spec k' k) as [-> | Hne']; simpl.
    + apply String.eqb_neq in Hne. now rewrite Hne.
    + now rewrite IH.
Qed.

(** What [_transfer_attrs] leaves under a name: the value of [self]
    when the name is sticky and among the attributes being transferred,
    the former value of [obj] otherwise. *)
Lemma transfer_fold_lookup (NS : list string) (self_dict : dict)
    (name : string) (ks : list string) (obj_dict : dict) :
  lookup name
    (fold_left
       (fun d attr =>
          if is_sticky NS attr then
            match lookup attr self_dict with
            | Some v => setattr attr v d
            | None => d
            end
          else d)
       ks obj_dict)
  = if is_sticky NS name && existsb (String.eqb name) ks
    then match lookup name self_dict with
         | Some v => Some v
         | None => lookup name obj_dict
         end
    else lookup name obj_dict.
Proof.
  revert obj_dict. induction ks as [| k ks IH]; intros obj_dict; simpl.
  - now rewrite andb_false_r.
  - rewrite IH. destruct (String.eqb_spec name k) as [<- | Hne]; simpl.
    + destruct (is_sticky NS name) eqn:Hs; simpl; [| reflexivity].
      destruct (lookup name self_dict) as [v |] eqn:Hl.
      * rewrite lookup_setattr_same. now destruct (existsb _ ks).
      * now destruct (existsb _ ks).
    + assert (Hstep :
        lookup name
          (if is_sticky NS k
           then match lookup k self_dict with
                | Some v => setattr k v obj_dict
                | None => obj_dict
                end
           else obj_dict) = lookup name obj_dict).
      { destruct (is_sticky NS k); [| reflexivity].
        destruct (lookup k self_dict); [| reflexivity].
        apply lookup_setattr_other. congruence. }
      now rewrite Hstep.
Qed.

Lemma lookup_Some_is_key (name : string) (d : dict) (v : attr_value) :
  lookup name d = Some v -> existsb (String.eqb name) (keys d) = true.
Proof.
  induction d as [| [k w] d IH]; simpl; [discriminate |].
  rewrite (String.eqb_sym name k).
  destruct (String.eqb k name); [reflexivity | exact IH].
Qed.

(** A sticky attribute reaches a freshly built object unchanged. *)
Lemma transfer_to_fresh (NS : list string) (self_dict : dict) (name : string) :
  is_sticky NS name = true ->
  lookup name (_transfer_attrs NS self_dict []) = lookup name self_dict.
Proof.
  intros Hs. unfold _transfer_attrs. rewrite transfer_fold_lookup, Hs. simpl.
  destruct (lookup name self_dict) eqn:Hl.
  - now rewrite (lookup_Some_is_key _ _ _ Hl).
  - now destruct (existsb _ _).
Qed.
End DictFacts.

Section OrderedDictFacts.
Context {V : Type}.

Lemma od_get_absent (d : OrderedDict.t V) (k : string) :
  ~ In k (OrderedDict.keys d) -> OrderedDict.get d k = None.
Proof.
  induction d as [| [k' v] d IH]; simpl; [reflexivity |].
  intros Hnin. destruct (String.eqb_spec k' k) as [-> | Hne]; [tauto |].
  apply IH. tauto.
Qed.

Lemma od_set_absent (d : OrderedDict.t V) (k : string) (v : V) :
  ~ In k (OrderedDict.keys d) -> OrderedDict.set d k v = (d ++ [(k, v)])%list.
Proof.
  induction d as [| [k' w] d IH]; simpl; [reflexivity |].
  intros Hnin. destruct (String.eqb_spec k' k) as [-> | Hne]; [tauto |].
  rewrite IH; tauto.
Qed.

(** Filling an ordered dictionary with items of pairwise distinct keys
    keeps them in the order they were given. *)
Lemma od_fill (f : V -> string) (items : list V) (d : OrderedDict.t V) :
  NoDup (OrderedDict.keys d ++ map f items)%list ->
  fold_left (fun new_hits x => OrderedDict.set new_hits (f x) x) items d
  = (d ++ map (fun x => (f x, x)) items)%list.
Proof.
  revert d. induction items as [| x items IH]; intros d Hnd; simpl.
  - now rewrite app_nil_r.
  - assert (Hx : ~ In (f x) (OrderedDict.keys d)).
    { intros Hin. simpl in Hnd. apply NoDup_remove_2 in Hnd.
      apply Hnd. apply in_or_app. now left. }
    rewrite od_set_absent by exact Hx. rewrite IH.
    + now rewrite <- app_assoc.
    + unfold OrderedDict.keys. rewrite map_app. simpl.
      rewrite <- app_assoc. exact Hnd.
Qed.
End OrderedDictFacts.

Section RebuildFacts.
Import Invariants.

Lemma values_of_keyed {V} (f : V -> string) (items : list V) :
  OrderedDict.values (map (fun x => (f x, x)) items) = items.
Proof.
  unfold OrderedDict.values. rewrite map_map. simpl. apply map_id.
Qed.

(** Appending hits of the right query id and of pairwise distinct new
    keys stores them, in order, behind the hits already present. *)
Lemma for_each_append (kf : option (Hit.t -> string)) (i p tg v de : string)
    (at_ : BaseSearchObject.dict) (hits : list Hit.t) (d : OrderedDict.t Hit.t) :
  Forall (fun h => Hit._query_id h = i) hits ->
  NoDup (OrderedDict.keys d ++ map (key_of kf) hits)%list ->
  for_each hits QueryResult.append (QueryResult.mk i kf d p tg v de at_)
  = (Ok tt,
     QueryResult.mk i kf (d ++ map (fun h => (key_of kf h, h)) hits)%list
                    p tg v de at_).
Proof.
  revert d. induction hits as [| h hits IH]; intros d Hq Hnd.
  - simpl. now rewrite app_nil_r.
  - inversion Hq as [| ? ? Hh Hq']; subst.
    assert (Hx : ~ In (key_of kf h) (OrderedDict.keys d)).
    { intros Hin. simpl in Hnd. apply NoDup_remove_2 in Hnd.
      apply Hnd. apply in_or_app. now left. }
    cbn [for_each]. unfold bind at 1.
    unfold QueryResult.append, QueryResult.__contains__, OrderedDict.contains.
    cbn [QueryResult._hit_key_function QueryResult._hits].
    fold (key_of kf h).
    rewrite (od_get_absent d (key_of kf h) Hx).
    unfold QueryResult.__setitem__, Hit._query_id_get, QueryResult._id_get.
    cbn [QueryResult._id]. rewrite String.eqb_refl. cbn [negb].
    unfold QueryResult.set__hits.
    cbn [QueryResult._id QueryResult._hit_key_function QueryResult._hits
         QueryResult.program QueryResult.target QueryResult.version
         QueryResult._desc QueryResult.attrs].
    rewrite (od_set_absent d (key_of kf h) h Hx). rewrite IH.
    + now rewrite <- app_assoc.
    + exact Hq'.
    + unfold OrderedDict.keys. rewrite map_app. simpl.
      rewrite <- app_assoc. exact Hnd.
Qed.

(** The derived QueryResult built from hits of [self]'s query id with
    pairwise distinct keys. *)
Lemma rebuild_ok (self : QueryResult.t) (hits : list Hit.t) :
  Forall (fun h => Hit._query_id h = QueryResult._id self) hits ->
  NoDup (map (hit_key self) hits) ->
  QueryResult.rebuild self hits
  = Ok (QueryResult.mk (QueryResult._id self) (QueryResult._hit_key_function self)
          (map (fun h => (hit_key self h, h)) hits)
          (QueryResult.program self) (QueryResult.target self)
          (QueryResult.version self) (QueryResult._desc self)
          (BaseSearchObject._transfer_attrs QueryResult._NON_STICKY_ATTRS
             (QueryResult.attrs self) [])).
Proof.
  intros Hq Hnd. unfold QueryResult.rebuild, QueryResult.__init__, construct.
  unfold QueryResult._id_get.
  rewrite (for_each_append (QueryResult._hit_key_function self)
             _ _ _ _ _ _ hits []); [| exact Hq | exact Hnd].
  reflexivity.
Qed.

Lemma keyed_consistent (kf : option (Hit.t -> string)) (i p tg v de : string)
    (at_ : BaseSearchObject.dict) (hits : list Hit.t) :
  Forall (fun h => Hit._query_id h = i) hits ->
  NoDup (map (key_of kf) hits) ->
  query_consistent
    (QueryResult.mk i kf (map (fun h => (key_of kf h, h)) hits) p tg v de at_).
Proof.
  intros Hq Hnd. unfold query_consistent, hit_key, QueryResult._hits_get. simpl.
  rewrite values_of_keyed. auto.
Qed.
End RebuildFacts.

(** ** Slicing and sorting a QueryResult *)

Section DerivedContainerClaims.
Import Invariants.

(** Claim C5 as stated fails: [q = QueryResult('query1')] followed by
    [q['a'] = hit1; q['b'] = hit1] holds two hits, and [q[0:2]] raises
    the ValueError of [append] for the key that comes twice; a
    QueryResult one of whose hits was given another query id after it
    was stored raises the ValueError of [__setitem__] when sliced. *)
Lemma slice_revalidates_hits :
  QueryResult.__init__ (Some "query1") [] QueryResult.default_hit_key_function
    = Ok Examples.empty_qresult /\
  QueryResult.__len__ Examples.twice_keyed_qresult = 2 /\
  QueryResult.__getitem__ (QueryResult.KeySlice (Some 0) (Some 2))
    Examples.twice_keyed_qresult
  = (Raise (ValueError "Hit 'hit1' already present in this QueryResult."),
     Examples.twice_keyed_qresult) /\
  QueryResult.__getitem__ (QueryResult.KeySlice (Some 0) (Some 2))
    Examples.drifted_qresult
  = (Raise (ValueError "Expected Hit with query ID 'query1', found 'query2' instead."),
     Examples.drifted_qresult).
Proof. repeat split. Qed.

(** Claim C5, amended: for every QueryResult [q] whose hits carry [q.id]
    as query id and have pairwise distinct keys, and slice bounds [a],
    [b] (each possibly absent or negative), [q[a:b]] returns a
    QueryResult whose hits are the slice [a:b] of [q]'s hits in order,
    whose length is the distance between the two bounds once they are
    brought into the range of [q] (zero when they cross, [b - a] when
    [0 <= a <= b <= len(q)]), whose id, key function, program, target,
    version and description are those of [q], and on which every sticky
    outside attribute has the value it has on [q]; [q] is left as it
    was, and the slice satisfies the same invariant. *)
Theorem slice_is_consistent_subresult (q : QueryResult.t) (a b : option Z) :
  query_consistent q ->
  exists q',
    QueryResult.__getitem__ (QueryResult.KeySlice a b) q
      = (Ok (QueryResult.SlicedQueryResult q'), q) /\
    QueryResult._hits_get q' = list_slice (QueryResult._hits_get q) a b /\
    QueryResult.__len__ q'
      = Z.max 0 (clamp_index (QueryResult.__len__ q) b (QueryResult.__len__ q)
                 - clamp_index (QueryResult.__len__ q) a 0) /\
    (forall x y, a = Some x -> b = Some y ->
                 0 <= x <= y -> y <= QueryResult.__len__ q ->
                 QueryResult.__len__ q' = y - x) /\
    QueryResult._id_get q' = QueryResult._id_get q /\
    QueryResult._hit_key_function q' = QueryResult._hit_key_function q /\
    QueryResult.program q' = QueryResult.program q /\
    QueryResult.target q' = QueryResult.target q /\
    QueryResult.version q' = QueryResult.version q /\
    QueryResult._desc q' = QueryResult._desc q /\
    (forall name,
       BaseSearchObject.is_sticky QueryResult._NON_STICKY_ATTRS name = true ->
       BaseSearchObject.lookup name (QueryResult.attrs q')
       = BaseSearchObject.lookup name (QueryResult.attrs q)) /\
    query_consistent q'.
Proof.
  intros (Hq & Hnd).
  pose proof (Forall_list_slice _ _ a b Hq) as Hq'.
  pose proof (NoDup_map_list_slice (hit_key q) _ a b Hnd) as Hnd'.
  eexists. split.
  { unfold QueryResult.__getitem__.
    rewrite (rebuild_ok q _ Hq' Hnd'). reflexivity. }
  assert (Hlen : forall l : OrderedDict.t Hit.t,
             List.length l = List.length (OrderedDict.values l)).
  { intros l. unfold OrderedDict.values. now rewrite length_map. }
  assert (Hlen' :
    QueryResult.__len__
      (QueryResult.mk (QueryResult._id q) (QueryResult._hit_key_function q)
         (map (fun h => (hit_key q h, h)) (list_slice (QueryResult._hits_get q) a b))
         (QueryResult.program q) (QueryResult.target q)
         (QueryResult.version q) (QueryResult._desc q)
         (BaseSearchObject._transfer_attrs QueryResult._NON_STICKY_ATTRS
            (QueryResult.attrs q) []))
    = Z.max 0 (clamp_index (QueryResult.__len__ q) b (QueryResult.__len__ q)
               - clamp_index (QueryResult.__len__ q) a 0)).
  { unfold QueryResult.__len__. cbn [QueryResult._hits].
    rewrite length_map, list_slice_length.
    unfold QueryResult._hits_get. now rewrite <- Hlen. }
  unfold QueryResult._hits_get at 1. cbn [QueryResult._hits].
  rewrite values_of_keyed.
  split; [reflexivity |]. split; [exact Hlen' |].
  split.
  { intros x y -> -> Hxy Hy. rewrite Hlen'. unfold clamp_index.
    destruct (Z.ltb_spec y 0), (Z.ltb_spec x 0); lia. }
  repeat (split; [reflexivity |]).
  split.
  - intros name Hs. cbn [QueryResult.attrs]. now apply transfer_to_fresh.
  - now apply keyed_consistent.
Qed.

Lemma qresult_consistent : query_consistent Examples.qresult.
Proof.
  split.
  - repeat constructor.
  - simpl. repeat constructor; simpl; intuition discriminate.
Defined.

Lemma slice_is_consistent_subresult_witness :
  exists q',
    QueryResult.__getitem__ (QueryResult.KeySlice (Some 1) (Some 7)) Examples.qresult
      = (Ok (QueryResult.SlicedQueryResult q'), Examples.qresult) /\
    QueryResult._hits_get q' = [Examples.hit2; Examples.hit3] /\
    QueryResult.__len__ q' = 2 /\
    BaseSearchObject.lookup "seq_len" (QueryResult.attrs q')
      = Some (BaseSearchObject.AttrInt 1083).
Proof.
  destruct (slice_is_consistent_subresult Examples.qresult (Some 1) (Some 7)
              qresult_consistent)
    as (q' & Hget & Hhits & Hlen & _ & _ & _ & _ & _ & _ & _ & Hattr & _).
  exists q'. split; [exact Hget |]. split; [exact Hhits |].
  split; [exact Hlen |]. exact (Hattr "seq_len" eq_refl).
Defined.

(** Claim C7 as stated fails: on the QueryResult holding [hit1] under
    the two keys ['a'] and ['b'], [sort()] in place leaves one hit where
    there were two, and [sort(in_place=False)] raises a ValueError
    instead of returning a QueryResult; on a QueryResult constructed
    with [hit_key_function=None], [sort()] in place raises a TypeError. *)
Lemma sort_rekeys_hits :
  QueryResult._hits_get Examples.twice_keyed_qresult
    = [Examples.hit1; Examples.hit1] /\
  (exists q1,
     QueryResult.sort None false true Examples.twice_keyed_qresult = (Ok None, q1) /\
     QueryResult._hits_get q1 = [Examples.hit1]) /\
  QueryResult.sort None false false Examples.twice_keyed_qresult
  = (Raise (ValueError "Hit 'hit1' already present in this QueryResult."),
     Examples.twice_keyed_qresult) /\
  QueryResult.__init__ (Some "query1") [Examples.hit1; Examples.hit2] None
    = Ok Examples.unkeyed_qresult /\
  QueryResult.sort None false true Examples.unkeyed_qresult
  = (Raise (TypeError "'NoneType' object is not callable"),
     Examples.unkeyed_qresult).
Proof.
  split; [reflexivity |]. split; [eexists; split; reflexivity |].
  repeat split.
Qed.

(** Claim C7, amended: on a QueryResult [q] whose hits have pairwise
    distinct keys under its key function, [q.sort(reverse=r)] without a
    key and in place returns nothing and leaves the same instance with
    its ordered mapping rebuilt from the hits in their former order
    ([r] false) or in exactly the reverse order ([r] true), every other
    attribute untouched.  When the hits moreover carry [q.id] as query
    id, [q.sort(reverse=r, in_place=False)] returns a new QueryResult
    holding the hits in that order, with the id, key function and
    attributes of [q], and leaves [q] as it was.  No score takes part
    in either. *)
Theorem sort_without_key_is_structural (q : QueryResult.t) (reverse : bool) :
  (forall f,
     QueryResult._hit_key_function q = Some f ->
     NoDup (map f (QueryResult._hits_get q)) ->
     exists q1,
       QueryResult.sort None reverse true q = (Ok None, q1) /\
       QueryResult._hits_get q1
         = (if reverse then rev (QueryResult._hits_get q)
            else QueryResult._hits_get q) /\
       q1 = QueryResult.set__hits
              (map (fun h => (f h, h))
                   (if reverse then rev (QueryResult._hits_get q)
                    else QueryResult._hits_get q)) q) /\
  (query_consistent q ->
   exists obj,
     QueryResult.sort None reverse false q = (Ok (Some obj), q) /\
     QueryResult._hits_get obj
       = (if reverse then rev (QueryResult._hits_get q)
          else QueryResult._hits_get q) /\
     QueryResult._id_get obj = QueryResult._id_get q /\
     QueryResult._hit_key_function obj = QueryResult._hit_key_function q /\
     QueryResult.program obj = QueryResult.program q /\
     QueryResult.target obj = QueryResult.target q /\
     QueryResult.version obj = QueryResult.version q /\
     QueryResult._desc obj = QueryResult._desc q /\
     (forall name,
        BaseSearchObject.is_sticky QueryResult._NON_STICKY_ATTRS name = true ->
        BaseSearchObject.lookup name (QueryResult.attrs obj)
        = BaseSearchObject.lookup name (QueryResult.attrs q)) /\
     query_consistent obj).
Proof.
  set (order := if reverse then rev (QueryResult._hits_get q)
                else QueryResult._hits_get q).
  assert (Hrev : forall g : Hit.t -> string,
             NoDup (map g (QueryResult._hits_get q)) -> NoDup (map g order)).
  { intros g Hnd. unfold order. destruct reverse; [| exact Hnd].
    rewrite map_rev. now apply NoDup_rev. }
  split.
  - intros f Hf Hnd.
    exists (QueryResult.set__hits (map (fun h => (f h, h)) order) q).
    split.
    { pose proof (od_fill f order [] (Hrev f Hnd)) as Hfill.
      unfold QueryResult.sort. fold order. rewrite Hf.
      destruct order as [| h l]; [reflexivity |].
      now rewrite Hfill. }
    split; [| reflexivity].
    unfold QueryResult._hits_get at 1, QueryResult.set__hits.
    cbn [QueryResult._hits]. apply values_of_keyed.
  - intros (Hq & Hnd).
    assert (Hq' : Forall (fun h => Hit._query_id h = QueryResult._id q) order).
    { unfold order. destruct reverse; [now apply Forall_rev | exact Hq]. }
    eexists. split.
    { unfold QueryResult.sort. fold order.
      rewrite (rebuild_ok q order Hq' (Hrev _ Hnd)). reflexivity. }
    unfold QueryResult._hits_get at 1. cbn [QueryResult._hits].
    rewrite values_of_keyed.
    split; [reflexivity |].
    repeat (split; [reflexivity |]).
    split.
    + intros name Hs. cbn [QueryResult.attrs]. now apply transfer_to_fresh.
    + apply keyed_consistent; [exact Hq' | now apply Hrev].
Qed.

Lemma sort_without_key_is_structural_witness :
  (exists q1,
     QueryResult.sort None true true Examples.qresult = (Ok None, q1) /\
     QueryResult._hits_get q1 = [Examples.hit3; Examples.hit2; Examples.hit1]) /\
  (exists obj,
     QueryResult.sort None true false Examples.qresult
       = (Ok (Some obj), Examples.qresult) /\
     QueryResult._hits_get obj = [Examples.hit3; Examples.hit2; Examples.hit1]).
Proof.
  destruct (sort_without_key_is_structural Examples.qresult true)
    as (Hplace & Hnew).
  destruct (Hplace _ eq_refl (proj2 qresult_consistent))
    as (q1 & Hsort & Hhits & _).
  destruct (Hnew qresult_consistent) as (obj & Hsort' & Hhits' & _).
  split.
  - exists q1. split; [exact Hsort | exact Hhits].
  - exists obj. split; [exact Hsort' | exact Hhits'].
Defined.

End DerivedContainerClaims.

(** ** Filtering and mapping HSPs *)

Section FilterFacts.
Import Invariants.

(** Building a Hit from HSPs that carry its two ids stores them all. *)
Lemma hit_for_each_append (i qi de : string) (at_ : BaseSearchObject.dict)
    (hs acc : list hsp_object) :
  Forall (fun o => hsp_hit_id o = i /\ hsp_query_id o = qi) hs ->
  for_each (map Inst hs) Hit.append (Hit.mk i qi de acc at_)
  = (Ok tt, Hit.mk i qi de (acc ++ hs)%list at_).
Proof.
  revert acc. induction hs as [| o hs IH]; intros acc Hall.
  - simpl. now rewrite app_nil_r.
  - inversion Hall as [| ? ? [Hi Hq] Hall']; subst.
    cbn [map for_each]. unfold bind at 1.
    unfold Hit.append, Hit._validate_hsp, Hit._id_get, Hit._query_id_get.
    cbn [Hit._id Hit._query_id Hit._desc Hit._hsps Hit.attrs].
    rewrite !String.eqb_refl. cbn [negb].
    rewrite IH by exact Hall'. now rewrite <- app_assoc.
Qed.

Lemma hit_init_ok (i qi : string) (hs : list hsp_object) :
  Forall (fun o => hsp_hit_id o = i /\ hsp_query_id o = qi) hs ->
  Hit.__init__ (Some i) (Some qi) (map Inst hs) = Ok (Hit.mk i qi "" hs []).
Proof.
  intros Hall. unfold Hit.__init__, construct.
  now rewrite (hit_for_each_append i qi "" [] hs [] Hall).
Qed.

(** A successful construction of a Hit stores one HSP per object it was
    given. *)
Lemma hit_for_each_length (objs : list (pyobj hsp_object)) (s s' : Hit.t) :
  for_each objs Hit.append s = (Ok tt, s') ->
  List.length (Hit._hsps s') = (List.length (Hit._hsps s) + List.length objs)%nat.
Proof.
  revert s. induction objs as [| o objs IH]; intros s H.
  - simpl in H. injection H as <-. simpl. lia.
  - cbn [for_each] in H. unfold bind at 1 in H.
    unfold Hit.append at 1 in H.
    destruct (Hit._validate_hsp s o) as [x | e]; [| discriminate].
    apply IH in H. cbn [Hit._hsps] in H. rewrite length_app in H.
    simpl in *. lia.
Qed.

Lemma hit_init_length (i qi : option string) (objs : list (pyobj hsp_object))
    (h : Hit.t) :
  Hit.__init__ i qi objs = Ok h -> List.length (Hit._hsps h) = List.length objs.
Proof.
  unfold Hit.__init__, construct.
  destruct i as [i |]; [| discriminate]. destruct qi as [qi |]; [| discriminate].
  destruct (for_each objs Hit.append _) as [[[] | e] s'] eqn:E; [| discriminate].
  intros [= <-]. now apply hit_for_each_length in E.
Qed.

(** [Hit.filter] on a consistent Hit. *)
Lemma hit_filter_ok (h : Hit.t) (func : hsp_object -> bool) :
  hit_consistent h ->
  Hit.filter h func
  = Ok (match List.filter func (Hit._hsps h) with
        | [] => None
        | hsps => Some (derived_hit h hsps)
        end).
Proof.
  intros Hc. unfold Hit.filter, Hit._hsps_get.
  assert (Hall : Forall (fun o => hsp_hit_id o = Hit._id h /\
                                  hsp_query_id o = Hit._query_id h)
                        (List.filter func (Hit._hsps h))).
  { apply Forall_forall. intros o Hin. apply filter_In in Hin.
    destruct Hin as [Hin _]. unfold hit_consistent in Hc.
    rewrite Forall_forall in Hc. now apply Hc. }
  destruct (List.filter func (Hit._hsps h)) as [| o l] eqn:E; [reflexivity |].
  unfold Hit._id_get, Hit._query_id_get.
  now rewrite (hit_init_ok _ _ (o :: l) Hall).
Qed.

(** [Hit.map] on a consistent Hit, for a function returning HSPs that
    keep the ids of their argument. *)
Lemma hit_map_ok (h : Hit.t) (g : hsp_object -> hsp_object) :
  hit_consistent h ->
  (forall o, hsp_hit_id (g o) = hsp_hit_id o /\ hsp_query_id (g o) = hsp_query_id o) ->
  Hit.map h (fun o => Inst (g o))
  = Ok (match List.map g (Hit._hsps h) with
        | [] => None
        | hsps => Some (derived_hit h hsps)
        end).
Proof.
  intros Hc Hg. unfold Hit.map, Hit._hsps_get.
  assert (Hall : Forall (fun o => hsp_hit_id o = Hit._id h /\
                                  hsp_query_id o = Hit._query_id h)
                        (List.map g (Hit._hsps h))).
  { apply Forall_forall. intros o Hin. apply in_map_iff in Hin.
    destruct Hin as (o0 & <- & Hin). unfold hit_consistent in Hc.
    rewrite Forall_forall in Hc. destruct (Hg o0) as [-> ->]. now apply Hc. }
  rewrite <- (map_map g Inst).
  destruct (List.map g (Hit._hsps h)) as [| o l] eqn:E; [reflexivity |].
  unfold Hit._id_get, Hit._query_id_get.
  now rewrite (hit_init_ok _ _ (o :: l) Hall).
Qed.

Lemma map_result_ok {A B} (f : A -> result B) (g : A -> B) (l : list A) :
  Forall (fun x => f x = Ok (g x)) l -> map_result f l = Ok (map g l).
Proof.
  induction 1 as [| x l Hx _ IH]; simpl; [reflexivity |].
  now rewrite Hx, IH.
Qed.

(** Every Hit that survives [filter(None, ...)] owns an HSP. *)
Lemma filter_None_nonempty (l : list (option Hit.t)) :
  Forall (fun x => Hit._hsps x <> []) (QueryResult.filter_None l).
Proof.
  induction l as [| [h |] l IH]; simpl; [constructor | | exact IH].
  unfold Hit.__nonzero__. destruct (Hit._hsps h) eqn:E; [exact IH |].
  constructor; [congruence | exact IH].
Qed.

Lemma filter_None_derived (sel : Hit.t -> list hsp_object) (l : list Hit.t) :
  QueryResult.filter_None
    (map (fun h => match sel h with
                   | [] => None
                   | hsps => Some (derived_hit h hsps)
                   end) l)
  = map (fun h => derived_hit h (sel h))
        (List.filter (fun h => nonempty (sel h)) l).
Proof.
  induction l as [| h l IH]; [reflexivity |].
  cbn [map List.filter QueryResult.filter_None].
  destruct (sel h) as [| o hsps] eqn:E; cbn [nonempty]; [exact IH |].
  unfold Hit.__nonzero__ at 1, derived_hit at 1, Hit._transfer_attrs at 1.
  cbn [Hit._hsps map]. now rewrite IH, E.
Qed.

Lemma NoDup_map_filter {A B} (f : A -> B) (p : A -> bool) (l : list A) :
  NoDup (map f l) -> NoDup (map f (List.filter p l)).
Proof.
  induction l as [| x l IH]; simpl; [auto |].
  intros Hnd. inversion Hnd as [| ? ? Hx Hnd']; subst.
  destruct (p x); simpl; [| auto].
  constructor; [| auto].
  intros Hin. apply Hx. apply in_map_iff in Hin.
  destruct Hin as (y & Hy & Hin). apply filter_In in Hin.
  apply in_map_iff. exists y. tauto.
Qed.

(** A successful append stores the hit behind those already there. *)
Lemma append_values (h : Hit.t) (s s' : QueryResult.t) :
  QueryResult.append h s = (Ok tt, s') ->
  QueryResult._hits_get s' = (QueryResult._hits_get s ++ [h])%list.
Proof.
  unfold QueryResult.append, QueryResult.__contains__, OrderedDict.contains.
  set (k := match QueryResult._hit_key_function s with
            | Some f => f h
            | None => Hit._id_get h
            end).
  destruct (OrderedDict.get (QueryResult._hits s) k) eqn:Hget; [discriminate |].
  unfold QueryResult.__setitem__.
  destruct (negb _); [discriminate |]. intros [= <-].
  unfold QueryResult._hits_get, QueryResult.set__hits, OrderedDict.values.
  cbn [QueryResult._hits].
  assert (Hset : forall d : OrderedDict.t Hit.t,
             OrderedDict.get d k = None ->
             OrderedDict.set d k h = (d ++ [(k, h)])%list).
  { induction d as [| [k' w] d IH]; simpl; [reflexivity |].
    destruct (String.eqb k' k); [discriminate |].
    intros Hd. now rewrite IH. }
  rewrite Hset by exact Hget. now rewrite map_app.
Qed.

Lemma for_each_append_values (hits : list Hit.t) (s s' : QueryResult.t) :
  for_each hits QueryResult.append s = (Ok tt, s') ->
  QueryResult._hits_get s' = (QueryResult._hits_get s ++ hits)%list.
Proof.
  revert s. induction hits as [| h hits IH]; intros s H.
  - simpl in H. injection H as <-. now rewrite app_nil_r.
  - cbn [for_each] in H. unfold bind at 1 in H.
    destruct (QueryResult.append h s) as [[[] | e] s1] eqn:E; [| discriminate].
    apply IH in H. apply append_values in E. rewrite H, E.
    now rewrite <- app_assoc.
Qed.

(** Whatever QueryResult is rebuilt holds exactly the hits it was
    rebuilt from. *)
Lemma rebuild_values (self obj : QueryResult.t) (hits : list Hit.t) :
  QueryResult.rebuild self hits = Ok obj -> QueryResult._hits_get obj = hits.
Proof.
  unfold QueryResult.rebuild, QueryResult.__init__, construct.
  destruct (for_each hits QueryResult.append _) as [[[] | e] s'] eqn:E;
    [| discriminate].
  intros [= <-]. apply for_each_append_values in E.
  unfold QueryResult._hits_get, QueryResult._transfer_attrs in *.
  cbn [QueryResult._hits] in *. exact E.
Qed.

(** Rebuilding a consistent QueryResult from the Hits derived from its
    own hits by a choice [sel] of HSPs. *)
Lemma rebuild_derived (q : QueryResult.t) (sel : Hit.t -> list hsp_object) :
  query_consistent q -> keyed_by_id q ->
  exists q',
    QueryResult.rebuild q
      (map (fun h => derived_hit h (sel h))
           (List.filter (fun h => nonempty (sel h)) (QueryResult._hits_get q)))
    = Ok q' /\
    QueryResult._hits_get q'
    = map (fun h => derived_hit h (sel h))
          (List.filter (fun h => nonempty (sel h)) (QueryResult._hits_get q)) /\
    QueryResult._id_get q' = QueryResult._id_get q.
Proof.
  intros (Hq & Hnd) Hk.
  eexists. split; [apply (rebuild_ok q) |].
  - apply Forall_forall. intros h' Hin. apply in_map_iff in Hin.
    destruct Hin as (h & <- & Hin). apply filter_In in Hin.
    rewrite Forall_forall in Hq. simpl. now apply Hq.
  - rewrite map_map.
    rewrite (map_ext _ (hit_key q)) by (intros h; now apply Hk).
    now apply NoDup_map_filter.
  - unfold QueryResult._hits_get at 1. cbn [QueryResult._hits].
    rewrite values_of_keyed. split; reflexivity.
Qed.
End FilterFacts.

Section FilterClaims.
Import Invariants.

Lemma example_hits_consistent :
  Forall hit_consistent (QueryResult._hits_get Examples.qresult).
Proof. repeat constructor. Defined.

Lemma example_keyed_by_id : keyed_by_id Examples.qresult.
Proof. intros x y Hxy. exact Hxy. Defined.

(** Claim C8: [h.filter(func)] and [h.map(fn)] return nothing when the
    resulting list of HSPs is empty, and a Hit they do return is never
    empty; whatever [hsp_filter] and [hsp_map] rebuild holds only hits
    that own an HSP.  On a consistent QueryResult of consistent hits,
    keyed by hit id, [hsp_filter] does return a QueryResult: it holds,
    in order, the derived Hit of every hit with an HSP passing [func],
    owning the passing HSPs, and no other hit; likewise [hsp_map], for
    a function returning HSPs that keep the ids of their argument,
    keeps the hits that own an HSP and drops the others. *)
Theorem empty_hits_are_dropped (h : Hit.t) (q : QueryResult.t)
    (func : hsp_object -> bool) (fn : hsp_object -> pyobj hsp_object)
    (g : hsp_object -> hsp_object) :
  (List.filter func (Hit._hsps h) = [] -> Hit.filter h func = Ok None) /\
  (List.map fn (Hit._hsps h) = [] -> Hit.map h fn = Ok None) /\
  (forall h', Hit.filter h func = Ok (Some h') -> Hit._hsps h' <> []) /\
  (forall h', Hit.map h fn = Ok (Some h') -> Hit._hsps h' <> []) /\
  (forall q', QueryResult.hsp_filter q func = Ok q' ->
              Forall (fun x => Hit._hsps x <> []) (QueryResult._hits_get q')) /\
  (forall q', QueryResult.hsp_map q fn = Ok q' ->
              Forall (fun x => Hit._hsps x <> []) (QueryResult._hits_get q')) /\
  (query_consistent q -> keyed_by_id q ->
   Forall hit_consistent (QueryResult._hits_get q) ->
   (exists q',
      QueryResult.hsp_filter q func = Ok q' /\
      QueryResult._id_get q' = QueryResult._id_get q /\
      QueryResult._hits_get q'
      = map (fun x => derived_hit x (List.filter func (Hit._hsps x)))
            (List.filter (fun x => nonempty (List.filter func (Hit._hsps x)))
                         (QueryResult._hits_get q))) /\
   ((forall o, hsp_hit_id (g o) = hsp_hit_id o /\
               hsp_query_id (g o) = hsp_query_id o) ->
    exists q',
      QueryResult.hsp_map q (fun o => Inst (g o)) = Ok q' /\
      QueryResult._id_get q' = QueryResult._id_get q /\
      QueryResult._hits_get q'
      = map (fun x => derived_hit x (List.map g (Hit._hsps x)))
            (List.filter (fun x => nonempty (Hit._hsps x))
                         (QueryResult._hits_get q)))).
Proof.
  assert (Hlen : forall objs h',
    match Hit.__init__ (Some (Hit._id_get h)) (Some (Hit._query_id_get h)) objs with
    | Raise e => Raise e
    | Ok obj => Ok (Some (Hit._transfer_attrs h obj))
    end = Ok (Some h') ->
    List.length (Hit._hsps h') = List.length objs).
  { intros objs h' H.
    destruct (Hit.__init__ _ _ objs) as [obj | e] eqn:E; [| discriminate].
    injection H as <-. apply hit_init_length in E. exact E. }
  split.
  { intros H. unfold Hit.filter, Hit._hsps_get. now rewrite H. }
  split.
  { intros H. unfold Hit.map, Hit._hsps_get. now rewrite H. }
  split.
  { intros h'. unfold Hit.filter, Hit._hsps_get.
    destruct (List.filter func (Hit._hsps h)) as [| o l]; [discriminate |].
    intros H. apply Hlen in H. destruct (Hit._hsps h'); [discriminate |].
    discriminate. }
  split.
  { intros h'. unfold Hit.map, Hit._hsps_get.
    destruct (List.map fn (Hit._hsps h)) as [| o l]; [discriminate |].
    intros H. apply Hlen in H. destruct (Hit._hsps h'); [discriminate |].
    discriminate. }
  split.
  { intros q'. unfold QueryResult.hsp_filter.
    destruct (map_result _ _) as [hits | e]; [| discriminate].
    intros H. apply rebuild_values in H. rewrite H.
    apply filter_None_nonempty. }
  split.
  { intros q'. unfold QueryResult.hsp_map.
    destruct (map_result _ _) as [hits | e]; [| discriminate].
    intros H. apply rebuild_values in H. rewrite H.
    apply filter_None_nonempty. }
  intros Hc Hk Hhits. split.
  - destruct (rebuild_derived q (fun x => List.filter func (Hit._hsps x)) Hc Hk)
      as (q' & Hre & Hv & Hid).
    exists q'. split; [| split; assumption].
    unfold QueryResult.hsp_filter.
    rewrite (map_result_ok _
               (fun x => match List.filter func (Hit._hsps x) with
                         | [] => None
                         | hsps => Some (derived_hit x hsps)
                         end)).
    + now rewrite filter_None_derived.
    + eapply Forall_impl; [| exact Hhits].
      intros x Hx. now apply hit_filter_ok.
  - intros Hg.
    destruct (rebuild_derived q (fun x => List.map g (Hit._hsps x)) Hc Hk)
      as (q' & Hre & Hv & Hid).
    assert (Hne : forall l : list Hit.t,
               List.filter (fun x => nonempty (List.map g (Hit._hsps x))) l
               = List.filter (fun x => nonempty (Hit._hsps x)) l).
    { intros l. apply filter_ext. intros x. now destruct (Hit._hsps x). }
    rewrite Hne in Hre, Hv.
    exists q'. split; [| split; assumption].
    unfold QueryResult.hsp_map.
    rewrite (map_result_ok _
               (fun x => match List.map g (Hit._hsps x) with
                         | [] => None
                         | hsps => Some (derived_hit x hsps)
                         end)).
    + now rewrite filter_None_derived, Hne.
    + eapply Forall_impl; [| exact Hhits].
      intros x Hx. now apply hit_map_ok.
Qed.

Lemma empty_hits_are_dropped_witness :
  Hit.filter Examples.hit2 Examples.has_ali_len = Ok None /\
  (exists q',
     QueryResult.hsp_filter Examples.qresult Examples.has_ali_len = Ok q' /\
     QueryResult._hits_get q'
     = [derived_hit Examples.hit1 [Examples.long_hsp_of "hit1"]]).
Proof.
  destruct (empty_hits_are_dropped Examples.hit2 Examples.qresult
              Examples.has_ali_len (fun o => Inst o) (fun o => o))
    as (Hfilter & _ & _ & _ & _ & _ & Hrebuilt).
  split; [exact (Hfilter eq_refl) |].
  destruct (Hrebuilt qresult_consistent example_keyed_by_id
              example_hits_consistent)
    as ((q' & Hq' & _ & Hhits) & _).
  exists q'. split; [exact Hq' | exact Hhits].
Defined.

End FilterClaims.

(** ** The HSP variants *)

Section VariantClaims.

(** Whatever alphabet a ContiguousHSP or SegmentedHSP is constructed
    with, its [alphabet] attribute is [single_letter_alphabet]. *)
Lemma contiguous_alphabet_is_default (hit_id query_id : option string)
    (hit_seq query_seq : seq_arg) (tag : Alphabet) (c : ContiguousHSP.t) :
  ContiguousHSP.__init__ hit_id query_id hit_seq query_seq tag = Ok c ->
  HSP.alphabet (ContiguousHSP.base c) = single_letter_alphabet.
Proof.
  unfold ContiguousHSP.__init__, HSP.__init__, construct.
  destruct hit_id as [hid |]; [| discriminate].
  destruct query_id as [qid |]; [| discriminate].
  unfold bind, ContiguousHSP._query_set, ContiguousHSP._hit_set, ret.
  destruct (seq_arg_truth query_seq), (seq_arg_truth hit_seq);
    destruct query_seq, hit_seq; simpl; intros [= <-]; reflexivity.
Qed.

Lemma segmented_alphabet_is_default (hit_id query_id : option string)
    (blocks : list (seq_arg * seq_arg)) (tag : Alphabet) (s : SegmentedHSP.t) :
  SegmentedHSP.__init__ hit_id query_id blocks tag = Ok s ->
  HSP.alphabet (SegmentedHSP.base s) = single_letter_alphabet.
Proof.
  unfold SegmentedHSP.__init__, HSP.__init__, construct.
  destruct hit_id as [hid |]; [| discriminate].
  destruct query_id as [qid |]; [| discriminate].
  destruct blocks as [| b blocks]; [intros [= <-]; reflexivity |].
  unfold bind, SegmentedHSP._query_set, SegmentedHSP._hit_set.
  cbn [SegmentedHSP.base].
  destruct (map_result _ (map fst (b :: blocks))) as [qs | e]; [| discriminate].
  cbn [SegmentedHSP.base].
  destruct (map_result _ (map snd (b :: blocks))) as [hs | e]; [| discriminate].
  intros [= <-]. reflexivity.
Qed.

(** Claim C6 fails on the code:
    [ContiguousHSP('hit1', 'query1', 'ACGT', 'AC-T', generic_dna)] and
    [SegmentedHSP('hit1', 'query1', [('AC-T', 'ACGT')], generic_dna)]
    are constructed, but their [alphabet] attribute and the alphabet of
    the sequence records built for their query and hit sequences are
    [single_letter_alphabet], not the tag [generic_dna] they were given. *)
Theorem alphabet_argument_is_dropped :
  (exists c q h,
     ContiguousHSP.__init__ (Some "hit1") (Some "query1")
       (ArgStr "ACGT") (ArgStr "AC-T") generic_dna = Ok c /\
     HSP.alphabet (ContiguousHSP.base c) = single_letter_alphabet /\
     ContiguousHSP._query c = Some q /\
     seq_alphabet (seq q) = single_letter_alphabet /\
     ContiguousHSP._hit c = Some h /\
     seq_alphabet (seq h) = single_letter_alphabet) /\
  (exists s q h,
     SegmentedHSP.__init__ (Some "hit1") (Some "query1")
       [(ArgStr "AC-T", ArgStr "ACGT")] generic_dna = Ok s /\
     HSP.alphabet (SegmentedHSP.base s) = single_letter_alphabet /\
     SegmentedHSP._query s = Some [q] /\
     seq_alphabet (seq q) = single_letter_alphabet /\
     SegmentedHSP._hit s = Some [h] /\
     seq_alphabet (seq h) = single_letter_alphabet) /\
  generic_dna <> single_letter_alphabet.
Proof.
  split; [| split].
  - do 3 eexists. repeat split.
  - do 3 eexists. repeat split.
  - discriminate.
Qed.

(** Claim C9 as stated fails: after
    [hsp = SegmentedHSP('hit1', 'query1', [('AAA', 'AAT'), ('CC', 'CG')])],
    a read of [hsp.alignment] and the assignment [hsp.query = ['AAA']],
    the query list has one block and the hit list two, and reading
    [hsp.alignment] yields the two alignments cached by the first read,
    not one. *)
Lemma cached_alignment_survives_reassignment :
  SegmentedHSP.__init__ (Some "hit1") (Some "query1")
    [(ArgStr "AAA", ArgStr "AAT"); (ArgStr "CC", ArgStr "CG")]
    single_letter_alphabet = Ok Examples.segmented_hsp /\
  option_map (@List.length SeqRecord)
    (SegmentedHSP._query Examples.reassigned_segmented_hsp) = Some 1%nat /\
  option_map (@List.length SeqRecord)
    (SegmentedHSP._hit Examples.reassigned_segmented_hsp) = Some 2%nat /\
  exists al,
    fst (SegmentedHSP._alignment_get Examples.reassigned_segmented_hsp) = Ok al /\
    List.length al = 2%nat /\
    List.length al <> Nat.min 1 2.
Proof.
  repeat split. eexists. repeat split. simpl. discriminate.
Qed.

(** An assignment to [query] or [hit] of a SegmentedHSP, from strings
    or from objects it refuses, leaves a kept alignment where it is,
    whether it succeeds or raises. *)
Lemma segmented_set_keeps_alignment (v : list seq_arg) (t : SegmentedHSP.t) :
  forallb Laws.not_a_record v = true ->
  SegmentedHSP._alignment (snd (SegmentedHSP._query_set v t))
    = SegmentedHSP._alignment t /\
  SegmentedHSP._alignment (snd (SegmentedHSP._hit_set v t))
    = SegmentedHSP._alignment t.
Proof.
  intros _. unfold SegmentedHSP._query_set, SegmentedHSP._hit_set.
  split; destruct (map_result _ v); reflexivity.
Qed.

(** A kept alignment is what a read returns, and the read changes
    nothing. *)
Lemma segmented_alignment_kept (t : SegmentedHSP.t)
    (al : list MultipleSeqAlignment) :
  SegmentedHSP._alignment t = Some al ->
  SegmentedHSP._alignment_get t = (Ok al, t).
Proof. intros H. destruct t as [b h q a]. simpl in H. subst. reflexivity. Qed.

(** The records [_prep_seq] builds from a list of strings. *)
Lemma prep_seq_of_strings (b : HSP.t) (seq_id : string) (ty : seq_type)
    (ws : list string) :
  map_result (fun s => HSP._prep_seq b s seq_id ty "") (map ArgStr ws)
  = Ok (map (Laws.record_of (HSP.alphabet b) seq_id ty) ws).
Proof.
  induction ws as [| w ws IH]; [reflexivity |].
  cbn [map map_result]. rewrite IH. reflexivity.
Qed.

(** Claim C9, amended: for every SegmentedHSP whose query and hit block
    lists are set and whose alignment has not been read yet (no cached
    [_alignment]), reading the alignment succeeds and yields one paired
    alignment per pair of corresponding blocks, as many as the shorter
    of the two lists has blocks, whatever the two lengths are; the list
    is cached, and the next read returns it again.  From then on every
    read returns that list, also after [query] or [hit] has been
    reassigned, in any order and any number of times, from lists of
    strings (which do replace the block list) or of objects the
    assignment refuses: an assignment never touches a kept alignment. *)
Theorem segmented_alignment_truncates (s : SegmentedHSP.t)
    (qs hs : list SeqRecord) :
  SegmentedHSP._query s = Some qs ->
  SegmentedHSP._hit s = Some hs ->
  SegmentedHSP._alignment s = None ->
  exists al s',
    SegmentedHSP._alignment_get s = (Ok al, s') /\
    al = map (fun qh => mkMultipleSeqAlignment [fst qh; snd qh]
                          (HSP.alphabet (SegmentedHSP.base s)))
             (combine qs hs) /\
    List.length al = Nat.min (List.length qs) (List.length hs) /\
    SegmentedHSP._alignment s' = Some al /\
    SegmentedHSP._query s' = Some qs /\
    SegmentedHSP._hit s' = Some hs /\
    SegmentedHSP._alignment_get s' = (Ok al, s') /\
    (forall vq vh : list seq_arg,
       forallb Laws.not_a_record vq = true ->
       forallb Laws.not_a_record vh = true ->
       fst (SegmentedHSP._alignment_get (snd (SegmentedHSP._query_set vq s')))
         = Ok al /\
       fst (SegmentedHSP._alignment_get (snd (SegmentedHSP._hit_set vh s')))
         = Ok al /\
       fst (SegmentedHSP._alignment_get
              (snd (SegmentedHSP._hit_set vh
                      (snd (SegmentedHSP._query_set vq s')))))
         = Ok al /\
       fst (SegmentedHSP._alignment_get
              (snd (SegmentedHSP._query_set vq
                      (snd (SegmentedHSP._hit_set vh s')))))
         = Ok al) /\
    (forall t : SegmentedHSP.t,
       SegmentedHSP._alignment t = Some al ->
       SegmentedHSP._alignment_get t = (Ok al, t) /\
       forall v : list seq_arg,
         forallb Laws.not_a_record v = true ->
         SegmentedHSP._alignment (snd (SegmentedHSP._query_set v t)) = Some al /\
         SegmentedHSP._alignment (snd (SegmentedHSP._hit_set v t)) = Some al) /\
    (forall ws : list string,
       SegmentedHSP._query (snd (SegmentedHSP._query_set (map ArgStr ws) s'))
         = Some (map (Laws.record_of (HSP.alphabet (SegmentedHSP.base s))
                        (HSP.query_id (SegmentedHSP.base s)) query_type) ws) /\
       SegmentedHSP._hit (snd (SegmentedHSP._hit_set (map ArgStr ws) s'))
         = Some (map (Laws.record_of (HSP.alphabet (SegmentedHSP.base s))
                        (HSP.hit_id (SegmentedHSP.base s)) hit_type) ws)).
Proof.
  intros Hq Hh Ha. destruct s as [b h q a]. simpl in Hq, Hh, Ha. subst.
  set (al := map (fun qh => mkMultipleSeqAlignment [fst qh; snd qh] (HSP.alphabet b))
                 (combine qs hs)).
  assert (Hkeep : forall t : SegmentedHSP.t,
            SegmentedHSP._alignment t = Some al ->
            forall v : list seq_arg,
              forallb Laws.not_a_record v = true ->
              SegmentedHSP._alignment (snd (SegmentedHSP._query_set v t)) = Some al /\
              SegmentedHSP._alignment (snd (SegmentedHSP._hit_set v t)) = Some al).
  { intros t Ht v Hv. destruct (segmented_set_keeps_alignment v t Hv) as (H1 & H2).
    rewrite H1, H2. split; exact Ht. }
  assert (Hread : forall t : SegmentedHSP.t,
            SegmentedHSP._alignment t = Some al ->
            fst (SegmentedHSP._alignment_get t) = Ok al).
  { intros t Ht. now rewrite (segmented_alignment_kept t al Ht). }
  exists al, (SegmentedHSP.mk b (Some hs) (Some qs) (Some al)).
  split; [reflexivity |]. split; [reflexivity |].
  split; [unfold al; now rewrite length_map, length_combine |].
  split; [reflexivity |]. split; [reflexivity |]. split; [reflexivity |].
  split; [reflexivity |].
  split; [| split].
  - intros vq vh Hvq Hvh.
    pose proof (Hkeep (SegmentedHSP.mk b (Some hs) (Some qs) (Some al))
                      eq_refl vq Hvq) as (Hq1 & _).
    pose proof (Hkeep (SegmentedHSP.mk b (Some hs) (Some qs) (Some al))
                      eq_refl vh Hvh) as (_ & Hh1).
    pose proof (Hkeep _ Hq1 vh Hvh) as (_ & Hqh).
    pose proof (Hkeep _ Hh1 vq Hvq) as (Hhq & _).
    repeat split; apply Hread; assumption.
  - intros t Ht. split; [now apply segmented_alignment_kept |].
    intros v Hv. now apply Hkeep.
  - intros ws. unfold SegmentedHSP._query_set, SegmentedHSP._hit_set.
    cbn [SegmentedHSP.base]. rewrite !prep_seq_of_strings. split; reflexivity.
Qed.

Lemma segmented_alignment_truncates_witness :
  exists al s',
    SegmentedHSP._alignment_get Examples.uneven_segmented_hsp = (Ok al, s') /\
    List.length al = 1%nat /\
    option_map (@List.length SeqRecord)
      (SegmentedHSP._query
         (snd (SegmentedHSP._query_set [ArgStr "AAA"; ArgStr "CC"] s')))
      = Some 2%nat /\
    fst (SegmentedHSP._alignment_get
           (snd (SegmentedHSP._query_set [ArgStr "AAA"; ArgStr "CC"] s')))
      = Ok al.
Proof.
  destruct (segmented_alignment_truncates Examples.uneven_segmented_hsp
              _ _ eq_refl eq_refl eq_refl)
    as (al & s' & Hget & _ & Hlen & _ & _ & _ & _ & Hre & _ & Hnew).
  exists al, s'. split; [exact Hget |]. split; [exact Hlen |].
  split.
  - exact (f_equal (option_map (@List.length SeqRecord))
                   (proj1 (Hnew ["AAA"; "CC"]))).
  - exact (proj1 (Hre [ArgStr "AAA"; ArgStr "CC"] [] eq_refl eq_refl)).
Defined.

(** Claim C10: a SegmentedHSP constructed with no blocks has neither a
    query nor a hit list; its [__len__] catches the AttributeError of
    the alignment and returns an empty list, so [len(hsp)] raises a
    TypeError and does not return 0. *)
Theorem len_without_blocks_is_not_zero
    (hit_id query_id : string) (tag : Alphabet) :
  exists s,
    SegmentedHSP.__init__ (Some hit_id) (Some query_id) [] tag = Ok s /\
    SegmentedHSP._query s = None /\
    SegmentedHSP._hit s = None /\
    (exists msg, SegmentedHSP._alignment_get s = (Raise (AttributeError msg), s)) /\
    SegmentedHSP.__len__ s = (Ok (ListValue []), s) /\
    (exists msg, SegmentedHSP.len s = (Raise (TypeError msg), s)) /\
    fst (SegmentedHSP.len s) <> Ok 0.
Proof.
  eexists. split; [reflexivity |]. repeat split.
  - eexists; reflexivity.
  - eexists; reflexivity.
  - discriminate.
Qed.

End VariantClaims.

(** * Further properties of the code *)

(** ** The golden rule, for all metric properties *)

Section GoldenRule.
Import HSP Invariants Laws.

(** A property whose attribute is present is read as it is. *)
Lemma read_present (m : metric) (v : number) (h : t) :
  slot m h = Some v -> read m h = (Ok v, h).
Proof.
  intros H. destruct h. destruct m; simpl in H;
    match type of H with
    | option_map _ ?o = _ => destruct o; [| discriminate]
    end; injection H as <-; reflexivity.
Qed.

Section PresentValue.
Variables (m : metric) (v : number).

Lemma kept_by_assign {A} (set : A -> t -> t) (a : A) :
  (forall h, slot m (set a h) = slot m h) ->
  preserves (fun h => slot m h = Some v) (assign set a).
Proof. intros Hset h H. unfold assign; simpl. now rewrite Hset. Qed.

Lemma kept_by_read_of_same :
  preserves (fun h => slot m h = Some v) (read m).
Proof. intros h H. now rewrite (read_present m v h H). Qed.
End PresentValue.

(** The getter of a property leaves the attribute of that property alone
    when it is present. *)
Lemma kept_by_own_getter (v : number) :
  preserves (fun h => slot ali_len h = Some v) _ali_len_get /\
  preserves (fun h => slot ident_num h = Some v) _ident_num_get /\
  preserves (fun h => slot mismatch_num h = Some v) _mismatch_num_get /\
  preserves (fun h => slot gap_num h = Some v) _gap_num_get /\
  preserves (fun h => slot ident_pct h = Some v) _ident_pct_get /\
  preserves (fun h => slot pos_pct h = Some v) _pos_pct_get /\
  preserves (fun h => slot gap_pct h = Some v) _gap_pct_get.
Proof.
  repeat split; intros h H; destruct h; simpl in H;
    match type of H with
    | option_map _ ?o = _ => destruct o; [| discriminate]
    end; exact H.
Qed.

Ltac kept_step v :=
  first
    [ apply (proj1 (kept_by_own_getter v))
    | apply (proj1 (proj2 (kept_by_own_getter v)))
    | apply (proj1 (proj2 (proj2 (kept_by_own_getter v))))
    | apply (proj1 (proj2 (proj2 (proj2 (kept_by_own_getter v)))))
    | apply (proj1 (proj2 (proj2 (proj2 (proj2 (kept_by_own_getter v))))))
    | apply (proj1 (proj2 (proj2 (proj2 (proj2 (proj2 (kept_by_own_getter v)))))))
    | apply (proj2 (proj2 (proj2 (proj2 (proj2 (proj2 (kept_by_own_getter v)))))))
    | apply preserves_int_div_float
    | apply preserves_float_mul_int
    | apply preserves_py_float
    | apply preserves_try
    | apply preserves_hasattr
    | apply preserves_getattr
    | apply preserves_ret
    | apply preserves_raise
    | apply kept_by_assign; intros; reflexivity
    | match goal with |- preserves _ (if ?b then _ else _) => destruct b end
    | apply preserves_bind; [ | intros ? ] ].

Lemma kept_by_every_read (m m' : metric) (v : number) :
  preserves (fun h => slot m h = Some v) (read m').
Proof.
  destruct m, m'; unfold read, percentage; repeat kept_step v.
Qed.

Lemma kept_by_reads (m : metric) (v : number) (ms : list metric) (h : t) :
  slot m h = Some v -> slot m (after_reads ms h) = Some v.
Proof.
  revert h. induction ms as [| m' ms IH]; intros h H; simpl; [exact H |].
  apply IH. now apply (kept_by_every_read m m' v).
Qed.

(** X1: a metric property whose attribute is present (parsed, assigned
    or cached) is never overwritten by reading: after any series of
    reads of any of the seven properties it still holds the same value,
    and reading it returns that value and changes nothing. *)
Theorem present_value_survives_reads (h : t) (m : metric) (v : number)
    (ms : list metric) :
  slot m h = Some v ->
  slot m (after_reads ms h) = Some v /\
  read m (after_reads ms h) = (Ok v, after_reads ms h).
Proof.
  intros H. pose proof (kept_by_reads m v ms h H) as H'.
  split; [exact H' | now apply read_present].
Qed.

Lemma present_value_survives_reads_witness :
  read ident_num
    (after_reads [ident_pct; ali_len; gap_pct; pos_pct] Examples.counted_hsp)
  = (Ok (Int 90),
     after_reads [ident_pct; ali_len; gap_pct; pos_pct] Examples.counted_hsp).
Proof.
  exact (proj2 (present_value_survives_reads Examples.counted_hsp ident_num
                  (Int 90) [ident_pct; ali_len; gap_pct; pos_pct] eq_refl)).
Defined.

(** X2: reading one of the four counts whose attribute is absent, on an
    HSP where the other three are present, returns the value the relation
    [ali_len = ident_num + mismatch_num + gap_num] gives it, stores it,
    leaves every other attribute as it was, and the four counts now
    satisfy the relation. *)
Theorem missing_count_is_derived (h : t) (m : metric) :
  is_count m = true ->
  stored m h = None ->
  (forall m', is_count m' = true -> m' <> m -> stored m' h <> None) ->
  exists v h',
    read m h = (Ok (Int v), h') /\
    stored m h' = Some v /\
    (forall m', m' <> m -> slot m' h' = slot m' h) /\
    golden h'.
Proof.
  intros Hc Hm Hothers.
  assert (Ha : m <> ali_len -> exists a, _ali_len h = Some a).
  { intros Hne. specialize (Hothers ali_len eq_refl (not_eq_sym Hne)).
    simpl in Hothers. destruct (_ali_len h); [eauto | congruence]. }
  assert (Hi : m <> ident_num -> exists a, _ident_num h = Some a).
  { intros Hne. specialize (Hothers ident_num eq_refl (not_eq_sym Hne)).
    simpl in Hothers. destruct (_ident_num h); [eauto | congruence]. }
  assert (Hx : m <> mismatch_num -> exists a, _mismatch_num h = Some a).
  { intros Hne. specialize (Hothers mismatch_num eq_refl (not_eq_sym Hne)).
    simpl in Hothers. destruct (_mismatch_num h); [eauto | congruence]. }
  assert (Hg : m <> gap_num -> exists a, _gap_num h = Some a).
  { intros Hne. specialize (Hothers gap_num eq_refl (not_eq_sym Hne)).
    simpl in Hothers. destruct (_gap_num h); [eauto | congruence]. }
  clear Hothers. destruct h.
  destruct m; try discriminate; simpl in Hm, Ha, Hi, Hx, Hg; subst.
  - destruct Hi as (i & ->); [discriminate |].
    destruct Hx as (x & ->); [discriminate |].
    destruct Hg as (g & ->); [discriminate |].
    do 2 eexists. split; [reflexivity |]. split; [reflexivity |]. split.
    + intros m' Hne. destruct m'; try reflexivity. congruence.
    + exists (i + x + g), i, x, g. simpl. repeat split.
  - destruct Ha as (a & ->); [discriminate |].
    destruct Hx as (x & ->); [discriminate |].
    destruct Hg as (g & ->); [discriminate |].
    do 2 eexists. split; [reflexivity |]. split; [reflexivity |]. split.
    + intros m' Hne. destruct m'; try reflexivity. congruence.
    + exists a, (a - x - g), x, g. simpl. repeat split. lia.
  - destruct Ha as (a & ->); [discriminate |].
    destruct Hi as (i & ->); [discriminate |].
    destruct Hg as (g & ->); [discriminate |].
    do 2 eexists. split; [reflexivity |]. split; [reflexivity |]. split.
    + intros m' Hne. destruct m'; try reflexivity. congruence.
    + exists a, i, (a - i - g), g. simpl. repeat split. lia.
  - destruct Ha as (a & ->); [discriminate |].
    destruct Hi as (i & ->); [discriminate |].
    destruct Hx as (x & ->); [discriminate |].
    do 2 eexists. split; [reflexivity |]. split; [reflexivity |]. split.
    + intros m' Hne. destruct m'; try reflexivity. congruence.
    + exists a, i, x, (a - i - x). simpl. repeat split. lia.
Qed.

(** X3: reading one of the four counts whose attribute is absent, on an
    HSP where another of the four is absent too, raises the
    AttributeError "Not enough is known ..." of the property read and
    leaves the HSP as it was. *)
Theorem missing_count_needs_the_other_three (h : t) (m m' : metric) :
  is_count m = true -> is_count m' = true -> m' <> m ->
  stored m h = None -> stored m' h = None ->
  read m h = (Raise (AttributeError (insufficiency_message m)), h).
Proof.
  intros Hc Hc' Hne Hm Hm'. destruct h.
  destruct m; try discriminate; destruct m'; try discriminate;
    try congruence; simpl in Hm, Hm'; subst;
    repeat match goal with
           | |- context [HSP.mk _ _ _ _ ?a ?i ?x ?g _ _ _ _] =>
               first [ is_var a; destruct a | is_var i; destruct i
                     | is_var x; destruct x | is_var g; destruct g ]
           end; reflexivity.
Qed.

(** X4: reading a percentage whose attribute is absent on an HSP with a
    present numerator and an alignment length of 0 raises
    ZeroDivisionError (OverflowError when the numerator is beyond the
    range of a float), not the AttributeError of insufficient
    information, and leaves the HSP as it was. *)
Theorem percentage_of_empty_alignment (h : t) (m : metric) (n : Z) :
  is_count m = false -> own_value_unset m h ->
  numerator m h = Some n -> _ali_len h = Some 0 ->
  read m h
  = (Raise (match float_of_Z n with
            | S754_infinity _ =>
                OverflowError "long int too large to convert to float"
            | _ => ZeroDivisionError "float division by zero"
            end), h).
Proof.
  intros Hc Ho Hn Ha. destruct h.
  destruct m; try discriminate; simpl in Ho, Hn, Ha; subst;
    unfold read, _ident_pct_get, _pos_pct_get, _gap_pct_get, percentage,
      _ident_num_get, _gap_num_get, _ali_len_get, int_div_float, py_float,
      try_except_AttributeError, bind, hasattr, getattr, ret, raise;
    cbn -[float_of_Z];
    change (float_of_Z 0) with (S754_zero false); cbn -[float_of_Z];
    destruct (float_of_Z n); reflexivity.
Qed.
End GoldenRule.

Section GoldenRuleWitnesses.
Import HSP Invariants Laws.

Lemma missing_count_is_derived_witness :
  exists v h',
    read mismatch_num Examples.measured_hsp = (Ok (Int v), h') /\
    stored mismatch_num h' = Some v /\
    (forall m', m' <> mismatch_num ->
                slot m' h' = slot m' Examples.measured_hsp) /\
    golden h'.
Proof.
  apply (missing_count_is_derived Examples.measured_hsp mismatch_num);
    [reflexivity | reflexivity |].
  intros m' Hc Hne. destruct m'; try discriminate; try congruence.
Defined.

Lemma missing_count_needs_the_other_three_witness :
  read ali_len Examples.bare_hsp
  = (Raise (AttributeError "Not enough is known to compute initial length"),
     Examples.bare_hsp).
Proof.
  apply (missing_count_needs_the_other_three Examples.bare_hsp ali_len gap_num);
    [reflexivity | reflexivity | discriminate | reflexivity | reflexivity].
Defined.

Lemma percentage_of_empty_alignment_witness :
  read ident_pct Examples.empty_alignment_hsp
  = (Raise (ZeroDivisionError "float division by zero"),
     Examples.empty_alignment_hsp).
Proof.
  exact (percentage_of_empty_alignment Examples.empty_alignment_hsp ident_pct 0
           eq_refl eq_refl eq_refl eq_refl).
Defined.
End GoldenRuleWitnesses.

(** ** Strand and frame *)

Section StrandFacts.
Import Strand.

Lemma frame_sign (f : Z) : f <> 0 -> f / Z.abs f = Z.sgn f.
Proof.
  intros Hf. destruct f as [| p | p]; [congruence | |]; simpl Z.abs; simpl Z.sgn.
  - apply Z.div_same. discriminate.
  - symmetry. apply (Z.div_unique (Z.neg p) (Z.pos p) (-1) 0); lia.
Qed.

Lemma strand_get_from_frame (strand : t -> option Z) (set : Z -> t -> t)
    (attr fname msg : string) (frame : t -> option (option Z)) (s : t) (f : Z) :
  (forall v s0, strand (set v s0) = Some v) ->
  strand s = None -> frame s = Some (Some f) ->
  strand_get strand set attr fname frame msg s = (Ok (Z.sgn f), set (Z.sgn f) s).
Proof.
  intros Hset Hs Hf. unfold strand_get, bind, hasattr, getattr, frame_quotient.
  rewrite Hs. cbn [negb]. cbv beta. rewrite Hf.
  destruct (Z.eqb_spec (Z.abs f) 0) as [H0 | Hn0].
  - assert (f = 0) by lia. subst f. cbn. now rewrite Hset.
  - rewrite frame_sign by lia. now rewrite Hset.
Qed.

Lemma strand_get_without_frame (strand : t -> option Z) (set : Z -> t -> t)
    (attr fname msg : string) (frame : t -> option (option Z)) (s : t) :
  strand s = None -> frame s = None \/ frame s = Some None ->
  strand_get strand set attr fname frame msg s = (Raise (AttributeError msg), s).
Proof.
  intros Hs Hf. unfold strand_get, bind, hasattr, getattr, frame_quotient.
  rewrite Hs. cbn [negb]. cbv beta. destruct Hf as [-> | ->]; reflexivity.
Qed.

(** X5: reading a strand that was never assigned derives it from the
    frame: an integer frame [f] gives its sign (-1, 0 or 1; 0 for a
    frame of 0), which is cached as the strand; a frame that is absent
    or [None] raises the AttributeError of the getter and leaves the
    attributes as they were. *)
Theorem strand_is_sign_of_frame (s : t) (f : Z) :
  (_hit_strand s = None -> hit_frame s = Some (Some f) ->
   _hit_strand_get s = (Ok (Z.sgn f), set__hit_strand (Z.sgn f) s)) /\
  (_query_strand s = None -> query_frame s = Some (Some f) ->
   _query_strand_get s = (Ok (Z.sgn f), set__query_strand (Z.sgn f) s)) /\
  (_hit_strand s = None -> hit_frame s = None \/ hit_frame s = Some None ->
   _hit_strand_get s
   = (Raise (AttributeError "Not enought is known to compute hit strand"), s)) /\
  (_query_strand s = None -> query_frame s = None \/ query_frame s = Some None ->
   _query_strand_get s
   = (Raise (AttributeError "Not enough is known to compute query strand"), s)).
Proof.
  repeat split; intros Hs Hf.
  - now apply strand_get_from_frame.
  - now apply strand_get_from_frame.
  - now apply strand_get_without_frame.
  - now apply strand_get_without_frame.
Qed.

Lemma strand_is_sign_of_frame_witness :
  _hit_strand_get Examples.framed
    = (Ok (-1), set__hit_strand (-1) Examples.framed) /\
  _query_strand_get Examples.framed
    = (Raise (AttributeError "Not enough is known to compute query strand"),
       Examples.framed).
Proof.
  destruct (strand_is_sign_of_frame Examples.framed (-2)) as (Hh & _ & _ & Hq).
  split; [exact (Hh eq_refl eq_refl) | exact (Hq eq_refl (or_introl eq_refl))].
Defined.

(** X6: a strand assignment is accepted exactly for -1, 0 and 1: then
    the value is stored and read back whatever the frame says; any other
    integer, and [None], raises a ValueError and leaves the attributes
    as they were. *)
Theorem strand_assignment_is_validated (s : t) (v : Z) :
  (v = -1 \/ v = 0 \/ v = 1 ->
   _hit_strand_set (Some v) s = (Ok tt, set__hit_strand v s) /\
   _hit_strand_get (set__hit_strand v s) = (Ok v, set__hit_strand v s) /\
   _query_strand_set (Some v) s = (Ok tt, set__query_strand v s) /\
   _query_strand_get (set__query_strand v s) = (Ok v, set__query_strand v s)) /\
  (v <> -1 -> v <> 0 -> v <> 1 ->
   _hit_strand_set (Some v) s
   = (Raise (ValueError ("Strand should be -1, 0, 1, or None; not " +++ repr_int v)), s) /\
   _query_strand_set (Some v) s
   = (Raise (ValueError ("Strand should be -1, 0, 1, or None; not " +++ repr_int v)), s)) /\
  _hit_strand_set None s
  = (Raise (ValueError "Strand should be -1, 0, 1, or None; not None"), s) /\
  _query_strand_set None s
  = (Raise (ValueError "Strand should be -1, 0, 1, or None; not None"), s).
Proof.
  split; [| split; [| split; reflexivity]].
  - intros [-> | [-> | ->]]; repeat split.
  - intros H1 H0 H2.
    unfold _hit_strand_set, _query_strand_set, strand_set. cbn [existsb].
    destruct (Z.eqb_spec v (-1)); [contradiction |].
    destruct (Z.eqb_spec v 0); [contradiction |].
    destruct (Z.eqb_spec v 1); [contradiction |].
    split; reflexivity.
Qed.

Lemma strand_assignment_is_validated_witness :
  _hit_strand_get (snd (_hit_strand_set (Some 1) Examples.framed))
    = (Ok 1, set__hit_strand 1 Examples.framed) /\
  _hit_strand_set (Some 2) Examples.framed
    = (Raise (ValueError "Strand should be -1, 0, 1, or None; not 2"),
       Examples.framed).
Proof.
  destruct (strand_assignment_is_validated Examples.framed 1) as (Hok & _).
  destruct (Hok (or_intror (or_intror eq_refl))) as (Hset & Hget & _).
  destruct (strand_assignment_is_validated Examples.framed 2) as (_ & Hbad & _).
  split.
  - rewrite Hset. exact Hget.
  - apply Hbad; discriminate.
Defined.

Lemma sgn_valid (f : Z) : strand_valid (Some (Z.sgn f)).
Proof. destruct f; simpl; auto. Qed.

Lemma strand_get_valid (strand : t -> option Z) (set : Z -> t -> t)
    (attr fname msg : string) (frame : t -> option (option Z)) (s s' : t) (v : Z) :
  (forall x s0, strand (set x s0) = Some x) ->
  strand_valid (strand s) ->
  strand_get strand set attr fname frame msg s = (Ok v, s') ->
  strand_valid (Some v) /\ (s' = s \/ s' = set v s).
Proof.
  intros Hset Hv. destruct (strand s) as [x |] eqn:Hs.
  - unfold strand_get, bind, hasattr, getattr. rewrite Hs. cbn. rewrite Hs.
    intros [= <- <-]. split; [exact Hv | now left].
  - destruct (frame s) as [[f |] |] eqn:Hf.
    + rewrite (strand_get_from_frame strand set attr fname msg frame s f Hset Hs Hf).
      intros [= <- <-]. split; [apply sgn_valid | now right].
    + rewrite strand_get_without_frame by auto. discriminate.
    + rewrite strand_get_without_frame by auto. discriminate.
Qed.

Lemma strand_get_failure (strand : t -> option Z) (set : Z -> t -> t)
    (attr fname msg : string) (frame : t -> option (option Z)) (s s' : t) (e : exn) :
  (forall x s0, strand (set x s0) = Some x) ->
  strand_get strand set attr fname frame msg s = (Raise e, s') -> s' = s.
Proof.
  intros Hset. destruct (strand s) as [x |] eqn:Hs.
  - unfold strand_get, bind, hasattr, getattr. rewrite Hs. cbn. rewrite Hs.
    discriminate.
  - destruct (frame s) as [[f |] |] eqn:Hf.
    + rewrite (strand_get_from_frame strand set attr fname msg frame s f Hset Hs Hf).
      discriminate.
    + rewrite strand_get_without_frame by auto. now intros [= _ <-].
    + rewrite strand_get_without_frame by auto. now intros [= _ <-].
Qed.

(** X7: the strands stay within -1, 0, 1: on attributes whose strands,
    if present, are among these values, every strand read that succeeds
    returns one of them, and neither the getters nor the setters,
    whatever their argument and outcome, lead out of such attributes. *)
Theorem strands_stay_valid (s : t) :
  valid s ->
  (forall v s', _hit_strand_get s = (Ok v, s') ->
                (v = -1 \/ v = 0 \/ v = 1) /\ valid s') /\
  (forall v s', _query_strand_get s = (Ok v, s') ->
                (v = -1 \/ v = 0 \/ v = 1) /\ valid s') /\
  valid (snd (_hit_strand_get s)) /\
  valid (snd (_query_strand_get s)) /\
  (forall value, valid (snd (_hit_strand_set value s))) /\
  (forall value, valid (snd (_query_strand_set value s))).
Proof.
  intros [Hh Hq].
  assert (Hhit : forall v s', _hit_strand_get s = (Ok v, s') ->
                   (v = -1 \/ v = 0 \/ v = 1) /\ valid s').
  { intros v s' H.
    apply (strand_get_valid _hit_strand set__hit_strand) in H;
      [| reflexivity | exact Hh].
    destruct H as [Hv [-> | ->]]; split; try exact Hv; split; assumption. }
  assert (Hquery : forall v s', _query_strand_get s = (Ok v, s') ->
                     (v = -1 \/ v = 0 \/ v = 1) /\ valid s').
  { intros v s' H.
    apply (strand_get_valid _query_strand set__query_strand) in H;
      [| reflexivity | exact Hq].
    destruct H as [Hv [-> | ->]]; split; try exact Hv; split; assumption. }
  split; [exact Hhit |]. split; [exact Hquery |].
  split; [| split; [| split]].
  - destruct (_hit_strand_get s) as [[v | e] s'] eqn:E; simpl.
    + now apply (Hhit v).
    + apply (strand_get_failure _hit_strand set__hit_strand) in E;
        [subst; split; assumption | reflexivity].
  - destruct (_query_strand_get s) as [[v | e] s'] eqn:E; simpl.
    + now apply (Hquery v).
    + apply (strand_get_failure _query_strand set__query_strand) in E;
        [subst; split; assumption | reflexivity].
  - intros [v |]; [| split; assumption].
    unfold _hit_strand_set, strand_set. cbn [existsb].
    destruct (Z.eqb_spec v (-1)); [subst; split; simpl; auto |].
    destruct (Z.eqb_spec v 0); [subst; split; simpl; auto |].
    destruct (Z.eqb_spec v 1); [subst; split; simpl; auto |].
    split; assumption.
  - intros [v |]; [| split; assumption].
    unfold _query_strand_set, strand_set. cbn [existsb].
    destruct (Z.eqb_spec v (-1)); [subst; split; simpl; auto |].
    destruct (Z.eqb_spec v 0); [subst; split; simpl; auto |].
    destruct (Z.eqb_spec v 1); [subst; split; simpl; auto |].
    split; assumption.
Qed.

Lemma strands_stay_valid_witness :
  fst (_hit_strand_get Examples.framed) = Ok (-1) /\
  valid (snd (_hit_strand_get Examples.framed)) /\
  valid (snd (_query_strand_set (Some 2) Examples.framed)).
Proof.
  destruct (strands_stay_valid Examples.framed (conj I I))
    as (Hread & _ & _ & _ & _ & Hset).
  split; [reflexivity |].
  split; [exact (proj2 (Hread _ _ eq_refl)) | exact (Hset (Some 2))].
Defined.
End StrandFacts.

(** ** The Hit container *)

Section HitFacts.
Import Invariants Laws.

Lemma list_slice_all {A} (l : list A) : list_slice l None None = l.
Proof.
  unfold list_slice, clamp_index. rewrite Z.sub_0_r, Nat2Z.id. simpl.
  apply firstn_all.
Qed.

(** What a successful series of appends has stored. *)
Lemma hit_for_each_success (objs : list (pyobj hsp_object)) (s s' : Hit.t) :
  for_each objs Hit.append s = (Ok tt, s') ->
  exists hs,
    objs = map Inst hs /\
    Forall (fun o => hsp_hit_id o = Hit._id s /\ hsp_query_id o = Hit._query_id s) hs /\
    s' = Hit.set__hsps (Hit._hsps s ++ hs)%list s.
Proof.
  revert s. induction objs as [| obj objs IH]; intros s H.
  - simpl in H. injection H as <-. exists []. repeat split; [constructor |].
    destruct s. unfold Hit.set__hsps. simpl. now rewrite app_nil_r.
  - cbn [for_each] in H. unfold bind at 1 in H.
    unfold Hit.append at 1, Hit._validate_hsp in H.
    destruct obj as [o | | | |]; try discriminate.
    unfold Hit._id_get, Hit._query_id_get in H.
    destruct (String.eqb_spec (hsp_hit_id o) (Hit._id s)) as [Hi |]; [| discriminate].
    destruct (String.eqb_spec (hsp_query_id o) (Hit._query_id s)) as [Hq |];
      [| discriminate].
    cbn [negb] in H. apply IH in H. destruct H as (hs & -> & Hall & ->).
    cbn [Hit._id Hit._query_id Hit._hsps] in *.
    exists (o :: hs). repeat split.
    + constructor; [split; assumption | exact Hall].
    + unfold Hit.set__hsps. cbn. now rewrite <- app_assoc.
Qed.

(** X8: [Hit(id, query_id, hsps)] succeeds exactly when every object
    given is an HSP carrying that hit id and query id.  The Hit built
    holds these HSPs in the order given, has an empty description and
    is consistent; without an id or a query id the constructor raises a
    ValueError. *)
Theorem hit_constructor_validates (i qi : string) (objs : list (pyobj hsp_object)) :
  (forall hs,
     objs = map Inst hs ->
     Forall (fun o => hsp_hit_id o = i /\ hsp_query_id o = qi) hs ->
     Hit.__init__ (Some i) (Some qi) objs = Ok (Hit.mk i qi "" hs [])) /\
  (forall h,
     Hit.__init__ (Some i) (Some qi) objs = Ok h ->
     objs = map Inst (Hit._hsps h) /\ h = Hit.mk i qi "" (Hit._hsps h) [] /\
     hit_consistent h) /\
  (exists msg, Hit.__init__ None (Some qi) objs = Raise (ValueError msg)) /\
  (exists msg, Hit.__init__ (Some i) None objs = Raise (ValueError msg)).
Proof.
  split; [| split; [| split; eexists; reflexivity]].
  - intros hs -> Hall. now apply hit_init_ok.
  - intros h. unfold Hit.__init__, construct.
    destruct (for_each objs Hit.append _) as [[[] | e] s'] eqn:E; [| discriminate].
    intros [= <-]. apply hit_for_each_success in E.
    destruct E as (hs & -> & Hall & ->). cbn in *. repeat split. exact Hall.
Qed.

Lemma hit_constructor_validates_witness :
  Hit.__init__ (Some "hit2") (Some "query1") [Inst (Examples.hsp_of "hit2")]
  = Ok Examples.hit2.
Proof.
  apply (proj1 (hit_constructor_validates "hit2" "query1"
                  [Inst (Examples.hsp_of "hit2")]) [Examples.hsp_of "hit2"]);
    [reflexivity | repeat constructor].
Defined.

(** X9: [hit.append(hsp)] stores an HSP that carries the ids of the Hit
    behind the HSPs already there and keeps a consistent Hit consistent;
    an HSP with another hit id or query id raises a ValueError, an
    object that is no HSP a TypeError, and the Hit is left as it was. *)
Theorem hit_append_validates (h : Hit.t) (o : hsp_object) (obj : pyobj hsp_object) :
  (hsp_hit_id o = Hit._id h -> hsp_query_id o = Hit._query_id h ->
   Hit.append (Inst o) h = (Ok tt, Hit.set__hsps (Hit._hsps h ++ [o])%list h) /\
   (hit_consistent h ->
    hit_consistent (Hit.set__hsps (Hit._hsps h ++ [o])%list h))) /\
  (hsp_hit_id o <> Hit._id h \/ hsp_query_id o <> Hit._query_id h ->
   exists msg, Hit.append (Inst o) h = (Raise (ValueError msg), h)) /\
  ((forall x, obj <> Inst x) ->
   Hit.append obj h
   = (Raise (TypeError "Hit objects can only contain HSP objects."), h)).
Proof.
  split; [| split].
  - intros Hi Hq. split.
    + unfold Hit.append, Hit._validate_hsp, Hit._id_get, Hit._query_id_get.
      rewrite Hi, Hq, !String.eqb_refl. reflexivity.
    + intros Hc. unfold hit_consistent, Hit.set__hsps in *. cbn.
      apply Forall_app. split; [exact Hc | repeat constructor; assumption].
  - intros Hne. unfold Hit.append, Hit._validate_hsp, Hit._id_get, Hit._query_id_get.
    destruct (String.eqb_spec (hsp_hit_id o) (Hit._id h)) as [Hi | Hi]; cbn [negb];
      [| eexists; reflexivity].
    destruct (String.eqb_spec (hsp_query_id o) (Hit._query_id h)) as [Hq | Hq];
      cbn [negb]; [| eexists; reflexivity].
    destruct Hne; contradiction.
  - intros Hno. destruct obj; try reflexivity. now destruct (Hno x).
Qed.

Lemma hit_append_validates_witness :
  Hit.append (Inst (Examples.hsp_of "hit2")) Examples.hit2
    = (Ok tt, Hit.set__hsps [Examples.hsp_of "hit2"; Examples.hsp_of "hit2"]
                            Examples.hit2) /\
  (exists msg, Hit.append (Inst (Examples.hsp_of "hit1")) Examples.hit2
               = (Raise (ValueError msg), Examples.hit2)) /\
  Hit.append PyNone Examples.hit2
    = (Raise (TypeError "Hit objects can only contain HSP objects."), Examples.hit2).
Proof.
  split; [| split].
  - exact (proj1 (proj1 (hit_append_validates Examples.hit2
                           (Examples.hsp_of "hit2") PyNone) eq_refl eq_refl)).
  - apply (proj1 (proj2 (hit_append_validates Examples.hit2
                           (Examples.hsp_of "hit1") PyNone))).
    left. discriminate.
  - apply (proj2 (proj2 (hit_append_validates Examples.hit2
                           (Examples.hsp_of "hit1") PyNone))).
    discriminate.
Defined.

(** X10: assigning [hit.id] or [hit.query_id] keeps a consistent Hit
    consistent, and assigning both makes any Hit consistent, whatever
    ids its HSPs carried before. *)
Theorem hit_id_setters_keep_consistency (h : Hit.t) (X Y : string) :
  (hit_consistent h ->
   hit_consistent (snd (Hit._id_set X h)) /\
   hit_consistent (snd (Hit._query_id_set Y h))) /\
  hit_consistent (snd (Hit._query_id_set Y (snd (Hit._id_set X h)))) /\
  hit_consistent (snd (Hit._id_set X (snd (Hit._query_id_set Y h)))).
Proof.
  assert (Hid : forall h0 : Hit.t,
            Forall (fun o => hsp_query_id o = Hit._query_id h0) (Hit._hsps h0) ->
            hit_consistent (snd (Hit._id_set X h0))).
  { intros h0 Hq. unfold hit_consistent. simpl. apply Forall_forall.
    intros o Hin. apply in_map_iff in Hin. destruct Hin as (o0 & <- & Hin).
    destruct (hsp_update_hit_id X o0) as [-> ->]. split; [reflexivity |].
    rewrite Forall_forall in Hq. now apply Hq. }
  assert (Hqid : forall h0 : Hit.t,
            Forall (fun o => hsp_hit_id o = Hit._id h0) (Hit._hsps h0) ->
            hit_consistent (snd (Hit._query_id_set Y h0))).
  { intros h0 Hi. rewrite hit_query_id_set_eq. unfold hit_consistent. simpl.
    apply Forall_forall.
    intros o Hin. apply in_map_iff in Hin. destruct Hin as (o0 & <- & Hin).
    destruct (hsp_update_query_id Y o0) as [-> ->]. split; [| reflexivity].
    rewrite Forall_forall in Hi. now apply Hi. }
  split; [| split].
  - intros Hc. split.
    + apply Hid. eapply Forall_impl; [| exact Hc]. intros o [_ Hq]. exact Hq.
    + apply Hqid. eapply Forall_impl; [| exact Hc]. intros o [Hi _]. exact Hi.
  - apply Hqid. simpl. apply Forall_forall. intros o Hin.
    apply in_map_iff in Hin. destruct Hin as (o0 & <- & _).
    apply hsp_update_hit_id.
  - apply Hid. rewrite hit_query_id_set_eq. simpl. apply Forall_forall.
    intros o Hin. apply in_map_iff in Hin. destruct Hin as (o0 & <- & _).
    apply hsp_update_query_id.
Qed.

Lemma hit_id_setters_keep_consistency_witness :
  hit_consistent (snd (Hit._id_set "hit9" Examples.hit1)) /\
  hit_consistent (snd (Hit._query_id_set "query9" Examples.hit1)).
Proof.
  apply (proj1 (hit_id_setters_keep_consistency Examples.hit1 "hit9" "query9")).
  repeat constructor.
Defined.

(** The Hit rebuilt from HSPs that carry the ids of [h]. *)
Lemma hit_rebuild_ok (h : Hit.t) (hsps : list hsp_object) :
  Forall (fun o => hsp_hit_id o = Hit._id h /\ hsp_query_id o = Hit._query_id h) hsps ->
  Hit.rebuild h hsps = Ok (derived_hit h hsps).
Proof.
  intros Hall. unfold Hit.rebuild, Hit._id_get, Hit._query_id_get.
  now rewrite (hit_init_ok _ _ hsps Hall).
Qed.

Lemma derived_hit_facts (h : Hit.t) (hsps : list hsp_object) :
  Forall (fun o => hsp_hit_id o = Hit._id h /\ hsp_query_id o = Hit._query_id h) hsps ->
  Hit._hsps (derived_hit h hsps) = hsps /\
  Hit._id (derived_hit h hsps) = Hit._id h /\
  Hit._query_id (derived_hit h hsps) = Hit._query_id h /\
  Hit._desc (derived_hit h hsps) = Hit._desc h /\
  (forall name,
     BaseSearchObject.is_sticky Hit._NON_STICKY_ATTRS name = true ->
     BaseSearchObject.lookup name (Hit.attrs (derived_hit h hsps))
     = BaseSearchObject.lookup name (Hit.attrs h)) /\
  hit_consistent (derived_hit h hsps).
Proof.
  intros Hall. repeat split; try reflexivity.
  - intros name Hs. unfold derived_hit, Hit._transfer_attrs. cbn [Hit.attrs].
    now apply transfer_to_fresh.
  - exact Hall.
Qed.

(** X11: slicing a consistent Hit, [hit[a:b]], returns a new consistent
    Hit that owns the slice [a:b] of the HSPs in order, with the id,
    query id, description and sticky outside attributes of [hit]; the
    full slice [hit[:]] owns all the HSPs; [hit] is left as it was. *)
Theorem hit_slice_is_consistent (h : Hit.t) (a b : option Z) :
  hit_consistent h ->
  exists h',
    Hit.__getitem__ (AtSlice a b) h = (Ok (Hit.SlicedHit h'), h) /\
    Hit._hsps h' = list_slice (Hit._hsps h) a b /\
    (a = None -> b = None -> Hit._hsps h' = Hit._hsps h) /\
    Hit._id h' = Hit._id h /\
    Hit._query_id h' = Hit._query_id h /\
    Hit._desc h' = Hit._desc h /\
    (forall name,
       BaseSearchObject.is_sticky Hit._NON_STICKY_ATTRS name = true ->
       BaseSearchObject.lookup name (Hit.attrs h')
       = BaseSearchObject.lookup name (Hit.attrs h)) /\
    hit_consistent h'.
Proof.
  intros Hc.
  pose proof (Forall_list_slice _ _ a b Hc) as Hall.
  exists (derived_hit h (list_slice (Hit._hsps h) a b)). split.
  { unfold Hit.__getitem__, Hit.slice. now rewrite (hit_rebuild_ok h _ Hall). }
  destruct (derived_hit_facts h _ Hall) as (H1 & H2 & H3 & H4 & H5 & H6).
  repeat split; try assumption.
  intros -> ->. rewrite H1. apply list_slice_all.
Qed.

Lemma hit_slice_is_consistent_witness :
  exists h',
    Hit.__getitem__ (AtSlice (Some (-1)) None) Examples.hit1
      = (Ok (Hit.SlicedHit h'), Examples.hit1) /\
    Hit._hsps h' = [Examples.hsp_of "hit1"].
Proof.
  destruct (hit_slice_is_consistent Examples.hit1 (Some (-1)) None)
    as (h' & Hget & Hhsps & _); [repeat constructor |].
  exists h'. split; [exact Hget | exact Hhsps].
Defined.
End HitFacts.

Section HitListFacts.
Import Invariants Laws.

Lemma Forall_remove_at {A} (P : A -> Prop) (l : list A) (j : nat) :
  Forall P l -> Forall P (list_remove_at l j).
Proof.
  intros H. unfold list_remove_at. apply Forall_app. split.
  - rewrite <- (firstn_skipn j l) in H. apply Forall_app in H. tauto.
  - rewrite <- (firstn_skipn (Datatypes.S j) l) in H. apply Forall_app in H. tauto.
Qed.

Lemma remove_at_last {A} (l : list A) (x : A) :
  list_remove_at (l ++ [x]) (List.length l) = l.
Proof.
  unfold list_remove_at. induction l as [| y l IH]; [reflexivity |].
  cbn [List.length firstn app]. f_equal.
  change (skipn (Datatypes.S (Datatypes.S (List.length l))) (y :: l ++ [x]))
    with (skipn (Datatypes.S (List.length l)) (l ++ [x])).
  exact IH.
Qed.

Lemma list_pop_last {A} (l : list A) (x : A) :
  list_pop (l ++ [x]) (-1) = Ok (x, l).
Proof.
  unfold list_pop. rewrite length_app. cbn [List.length].
  change (-1 <? 0) with true. cbv iota.
  replace (-1 + Z.of_nat (List.length l + 1)) with (Z.of_nat (List.length l))
    by lia.
  destruct (l ++ [x])%list eqn:E; [now destruct l |]. rewrite <- E.
  destruct (Z.ltb_spec (Z.of_nat (List.length l)) 0); [lia |].
  destruct (Z.leb_spec (Z.of_nat (List.length l + 1)) (Z.of_nat (List.length l)));
    [lia |].
  cbn [orb]. rewrite Nat2Z.id, nth_error_app2, Nat.sub_diag by lia. simpl.
  now rewrite remove_at_last.
Qed.

(** X12: [hit.pop(i)] returns what [hit[i]] returns and leaves the Hit
    as [del hit[i]] leaves it; when it fails it raises an IndexError and
    leaves the Hit as it was.  [hit.pop()] on a Hit owning [l ++ [o]]
    returns [o] and leaves [l]; on a Hit without HSPs it raises the
    IndexError "pop from empty list".  Popping keeps a consistent Hit
    consistent. *)
Theorem hit_pop_is_get_then_delete (h : Hit.t) (i : Z) :
  (forall o h',
     Hit.pop i h = (Ok o, h') <->
     Hit.__getitem__ (AtIndex i) h = (Ok (Hit.HSPItem o), h) /\
     Hit.__delitem__ (AtIndex i) h = (Ok tt, h')) /\
  (forall e h',
     Hit.pop i h = (Raise e, h') -> h' = h /\ exists msg, e = IndexError msg) /\
  (forall l o,
     Hit._hsps h = (l ++ [o])%list ->
     Hit.pop Hit.default_pop_index h = (Ok o, Hit.set__hsps l h)) /\
  (Hit._hsps h = [] ->
   Hit.pop i h = (Raise (IndexError "pop from empty list"), h)) /\
  (hit_consistent h -> hit_consistent (snd (Hit.pop i h))).
Proof.
  split; [| split; [| split; [| split]]].
  - intros o h'.
    unfold Hit.pop, Hit.__getitem__, Hit.__delitem__, list_pop, list_index,
      list_del_index.
    set (j := if i <? 0 then i + Z.of_nat (List.length (Hit._hsps h)) else i).
    destruct (Hit._hsps h) as [| x l] eqn:E.
    { split; [discriminate |]. intros [H _]. simpl in H.
      destruct ((j <? 0) || (0 <=? j)); [discriminate |].
      destruct (Z.to_nat j); discriminate. }
    destruct ((j <? 0) || (Z.of_nat (List.length (x :: l)) <=? j)) eqn:Hr.
    { split; [discriminate | intros [H _]; discriminate]. }
    destruct (nth_error (x :: l) (Z.to_nat j)) as [y |] eqn:Hn.
    + split.
      * intros [= <- <-]. split; reflexivity.
      * intros [[= <-] [= <-]]. reflexivity.
    + split; [discriminate | intros [H _]; discriminate].
  - intros e h'. unfold Hit.pop, list_pop.
    destruct (Hit._hsps h) as [| x l].
    { intros [= <- <-]. split; eauto. }
    destruct (_ || _).
    { intros [= <- <-]. split; eauto. }
    destruct (nth_error _ _); [discriminate |].
    intros [= <- <-]. split; eauto.
  - intros l o E. unfold Hit.pop, Hit.default_pop_index.
    now rewrite E, list_pop_last.
  - intros E. unfold Hit.pop, list_pop. now rewrite E.
  - intros Hc. unfold Hit.pop, list_pop.
    destruct (Hit._hsps h) as [| x l] eqn:E; [exact Hc |].
    destruct (_ || _); [exact Hc |].
    destruct (nth_error _ _); [| exact Hc].
    unfold hit_consistent in *. cbn. rewrite <- E. apply Forall_remove_at.
    exact Hc.
Qed.

Lemma hit_pop_is_get_then_delete_witness :
  Hit.pop Hit.default_pop_index Examples.hit1
    = (Ok (Examples.hsp_of "hit1"),
       Hit.set__hsps [Examples.long_hsp_of "hit1"] Examples.hit1) /\
  Hit.pop 0 Examples.hit3
    = (Raise (IndexError "pop from empty list"), Examples.hit3).
Proof.
  split.
  - exact (proj1 (proj2 (proj2 (hit_pop_is_get_then_delete Examples.hit1 0)))
             [Examples.long_hsp_of "hit1"] (Examples.hsp_of "hit1") eq_refl).
  - exact (proj1 (proj2 (proj2 (proj2 (hit_pop_is_get_then_delete
                                         Examples.hit3 0)))) eq_refl).
Defined.

(** X13: [hit.reverse()] applied twice gives the Hit back as it was;
    on a consistent Hit, [reversed(hit)] returns a new consistent Hit
    that owns the HSPs in the order [hit.reverse()] leaves them, with
    the ids and description of [hit]. *)
Theorem hit_reverse_involutive (h : Hit.t) :
  snd (Hit.reverse (snd (Hit.reverse h))) = h /\
  (hit_consistent h ->
   hit_consistent (snd (Hit.reverse h)) /\
   exists r,
     Hit.__reversed__ h = Ok r /\
     Hit._hsps r = Hit._hsps (snd (Hit.reverse h)) /\
     Hit._hsps r = rev (Hit._hsps h) /\
     Hit._id r = Hit._id h /\ Hit._query_id r = Hit._query_id h /\
     Hit._desc r = Hit._desc h /\
     hit_consistent r).
Proof.
  split.
  - destruct h. unfold Hit.reverse, Hit.set__hsps. simpl.
    now rewrite rev_involutive.
  - intros Hc.
    assert (Hall : Forall (fun o => hsp_hit_id o = Hit._id h /\
                                    hsp_query_id o = Hit._query_id h)
                          (rev (Hit._hsps h))) by now apply Forall_rev.
    split; [exact Hall |].
    exists (derived_hit h (rev (Hit._hsps h))). split.
    { unfold Hit.__reversed__. now apply hit_rebuild_ok. }
    destruct (derived_hit_facts h _ Hall) as (H1 & H2 & H3 & H4 & _ & H6).
    repeat split; assumption.
Qed.

Lemma hit_reverse_involutive_witness :
  exists r,
    Hit.__reversed__ Examples.hit1 = Ok r /\
    Hit._hsps r = [Examples.hsp_of "hit1"; Examples.long_hsp_of "hit1"].
Proof.
  destruct (proj2 (hit_reverse_involutive Examples.hit1))
    as (_ & r & Hr & _ & Hhsps & _); [repeat constructor |].
  exists r. split; [exact Hr | exact Hhsps].
Defined.
End HitListFacts.

(** ** Sorting *)

Section SortFacts.
Import Laws.
Context {A : Type} (key : A -> Z).

Lemma insert_by_perm (x : A) (l : list A) :
  Permutation (insert_by key x l) (x :: l).
Proof.
  induction l as [| y l IH]; simpl; [reflexivity |].
  destruct (key x <=? key y); [reflexivity |].
  rewrite IH. apply perm_swap.
Qed.

Lemma stable_sort_perm (l : list A) : Permutation (stable_sort key l) l.
Proof.
  induction l as [| x l IH]; simpl; [reflexivity |].
  unfold stable_sort in *. simpl. rewrite insert_by_perm. now constructor.
Qed.

Lemma insert_by_ascending (x : A) (l : list A) :
  StronglySorted (fun a b => key a <= key b) l ->
  StronglySorted (fun a b => key a <= key b) (insert_by key x l).
Proof.
  induction 1 as [| y l Hs IH Hy]; simpl.
  - constructor; constructor.
  - destruct (Z.leb_spec (key x) (key y)) as [Hle | Hgt].
    + constructor.
      * now constructor.
      * constructor; [exact Hle |].
        eapply Forall_impl; [| exact Hy]. intros b Hb. simpl in *. lia.
    + constructor; [exact IH |].
      eapply Permutation_Forall.
      * symmetry. apply insert_by_perm.
      * constructor; [lia | exact Hy].
Qed.

Lemma stable_sort_ascending (l : list A) :
  StronglySorted (fun a b => key a <= key b) (stable_sort key l).
Proof.
  induction l as [| x l IH]; simpl; [constructor |].
  unfold stable_sort in *. simpl. now apply insert_by_ascending.
Qed.

Lemma strongly_sorted_snoc (R : A -> A -> Prop) (l : list A) (x : A) :
  StronglySorted R l -> Forall (fun y => R y x) l ->
  StronglySorted R (l ++ [x]).
Proof.
  induction 1 as [| y l Hs IH Hy]; intros Hx; simpl.
  - constructor; constructor.
  - inversion Hx as [| ? ? Hyx Hlx]; subst. constructor; [now apply IH |].
    apply Forall_app. split; [exact Hy | now constructor].
Qed.

Lemma strongly_sorted_rev (R : A -> A -> Prop) (l : list A) :
  StronglySorted R l -> StronglySorted (fun a b => R b a) (rev l).
Proof.
  induction 1 as [| y l Hs IH Hy]; simpl; [constructor |].
  apply strongly_sorted_snoc; [exact IH |].
  apply Forall_rev. exact Hy.
Qed.

Lemma insert_by_stable (x : A) (l : list A) (v : Z) :
  filter (fun y => key y =? v) (insert_by key x l)
  = filter (fun y => key y =? v) (x :: l).
Proof.
  induction l as [| y l IH]; [reflexivity |].
  cbn [insert_by]. destruct (Z.leb_spec (key x) (key y)) as [Hle | Hgt];
    [reflexivity |].
  cbn [filter] in *. rewrite IH.
  destruct (Z.eqb_spec (key x) v), (Z.eqb_spec (key y) v); try reflexivity.
  lia.
Qed.

Lemma stable_sort_stable (l : list A) : stable key l (stable_sort key l).
Proof.
  intros v. induction l as [| x l IH]; [reflexivity |].
  unfold stable_sort in *. cbn [fold_right]. rewrite insert_by_stable.
  cbn [filter]. now rewrite IH.
Qed.

(** [sorted] rearranges the list, in ascending order of the key, or in
    descending order when reversed; items of equal key keep their
    order either way. *)
Lemma sorted_spec (l : list A) (reverse : bool) :
  Permutation (sorted l key reverse) l /\
  (if reverse then descending key (sorted l key reverse)
   else ascending key (sorted l key reverse)) /\
  stable key l (sorted l key reverse).
Proof.
  unfold sorted, ascending, descending. split; [| split].
  - destruct reverse; [| apply stable_sort_perm].
    rewrite <- Permutation_rev, stable_sort_perm. symmetry. apply Permutation_rev.
  - destruct reverse.
    + apply StronglySorted_Sorted.
      apply (strongly_sorted_rev (fun a b => key a <= key b)).
      apply stable_sort_ascending.
    + apply StronglySorted_Sorted, stable_sort_ascending.
  - destruct reverse; [| apply stable_sort_stable].
    intros v. rewrite filter_rev, stable_sort_stable, filter_rev.
    apply rev_involutive.
Qed.
End SortFacts.

Section HitSortFacts.
Import Invariants Laws.

(** X14: [hit.sort(key=key, reverse=r)] returns nothing and leaves the
    Hit owning the same HSPs rearranged: in ascending order of [key],
    or descending when [r] is true, HSPs of equal key keeping the order
    they had.  With [in_place=False] a consistent Hit is left as it was
    and a new consistent Hit with its ids and description is returned,
    that owns the HSPs in that order. *)
Theorem hit_sort_orders_hsps (h : Hit.t) (key : hsp_object -> Z) (reverse : bool) :
  let ordered := sorted (Hit._hsps h) key reverse in
  Hit.sort key reverse true h = (Ok None, Hit.set__hsps ordered h) /\
  Permutation ordered (Hit._hsps h) /\
  (if reverse then descending key ordered else ascending key ordered) /\
  stable key (Hit._hsps h) ordered /\
  (hit_consistent h ->
   hit_consistent (Hit.set__hsps ordered h) /\
   exists r,
     Hit.sort key reverse false h = (Ok (Some r), h) /\
     Hit._hsps r = ordered /\
     Hit._id r = Hit._id h /\ Hit._query_id r = Hit._query_id h /\
     Hit._desc r = Hit._desc h /\
     hit_consistent r).
Proof.
  intros ordered.
  destruct (sorted_spec key (Hit._hsps h) reverse) as (Hperm & Hord & Hst).
  split; [reflexivity |]. split; [exact Hperm |]. split; [exact Hord |].
  split; [exact Hst |].
  intros Hc.
  assert (Hall : Forall (fun o => hsp_hit_id o = Hit._id h /\
                                  hsp_query_id o = Hit._query_id h) ordered).
  { eapply Permutation_Forall; [symmetry; exact Hperm | exact Hc]. }
  split; [exact Hall |].
  exists (derived_hit h ordered). split.
  { unfold Hit.sort, Hit._hsps_get. fold ordered.
    now rewrite (hit_rebuild_ok h ordered Hall). }
  destruct (derived_hit_facts h _ Hall) as (H1 & H2 & H3 & H4 & _ & H6).
  repeat split; assumption.
Qed.

Lemma hit_sort_orders_hsps_witness :
  Hit.sort Examples.by_ali_len false true Examples.hit1
    = (Ok None,
       Hit.set__hsps [Examples.hsp_of "hit1"; Examples.long_hsp_of "hit1"]
                     Examples.hit1) /\
  exists r,
    Hit.sort Examples.by_ali_len true false Examples.hit1
      = (Ok (Some r), Examples.hit1) /\
    Hit._hsps r = [Examples.long_hsp_of "hit1"; Examples.hsp_of "hit1"].
Proof.
  split.
  - exact (proj1 (hit_sort_orders_hsps Examples.hit1 Examples.by_ali_len false)).
  - destruct (proj2 (proj2 (proj2 (proj2
        (hit_sort_orders_hsps Examples.hit1 Examples.by_ali_len true)))))
      as (_ & r & Hr & Hhsps & _); [repeat constructor |].
    exists r. split; [exact Hr | exact Hhsps].
Defined.
End HitSortFacts.

(** ** The ordered mapping of a QueryResult *)

Section OrderedDictLaws.
Context {V : Type}.

Lemma od_get_present (d : OrderedDict.t V) (k : string) :
  In k (OrderedDict.keys d) -> exists v, OrderedDict.get d k = Some v.
Proof.
  induction d as [| [k' v] d IH]; simpl; [tauto |].
  intros [-> | Hin].
  - rewrite String.eqb_refl. eauto.
  - destruct (String.eqb k' k); eauto.
Qed.

Lemma od_get_Some_key (d : OrderedDict.t V) (k : string) (v : V) :
  OrderedDict.get d k = Some v -> In k (OrderedDict.keys d).
Proof.
  induction d as [| [k' w] d IH]; simpl; [discriminate |].
  destruct (String.eqb_spec k' k) as [-> | Hne]; [now left |].
  intros H. right. now apply IH.
Qed.

Lemma od_contains_spec (d : OrderedDict.t V) (k : string) :
  OrderedDict.contains d k = true <-> In k (OrderedDict.keys d).
Proof.
  unfold OrderedDict.contains. split.
  - destruct (OrderedDict.get d k) eqn:E; [| discriminate].
    intros _. eapply od_get_Some_key; eauto.
  - intros Hin. destruct (od_get_present d k Hin) as (v & ->). reflexivity.
Qed.

Lemma od_contains_false (d : OrderedDict.t V) (k : string) :
  OrderedDict.contains d k = false <-> ~ In k (OrderedDict.keys d).
Proof.
  rewrite <- od_contains_spec. destruct (OrderedDict.contains d k); split;
    congruence.
Qed.

Lemma od_get_set_same (d : OrderedDict.t V) (k : string) (v : V) :
  OrderedDict.get (OrderedDict.set d k v) k = Some v.
Proof.
  induction d as [| [k' w] d IH]; simpl.
  - now rewrite String.eqb_refl.
  - destruct (String.eqb_spec k' k) as [-> | Hne]; simpl.
    + now rewrite String.eqb_refl.
    + apply String.eqb_neq in Hne. now rewrite Hne.
Qed.

Lemma od_get_set_other (d : OrderedDict.t V) (k k' : string) (v : V) :
  k <> k' -> OrderedDict.get (OrderedDict.set d k v) k' = OrderedDict.get d k'.
Proof.
  intros Hne. induction d as [| [k0 w] d IH]; simpl.
  - apply String.eqb_neq in Hne. now rewrite Hne.
  - destruct (String.eqb_spec k0 k) as [-> | Hne0]; simpl.
    + apply String.eqb_neq in Hne. now rewrite Hne.
    + now rewrite IH.
Qed.

Lemma od_set_present (d : OrderedDict.t V) (k : string) (v : V) :
  In k (OrderedDict.keys d) ->
  OrderedDict.keys (OrderedDict.set d k v) = OrderedDict.keys d.
Proof.
  induction d as [| [k' w] d IH]; simpl; [tauto |].
  intros Hin. destruct (String.eqb_spec k' k) as [-> | Hne]; [reflexivity |].
  simpl. f_equal. apply IH. destruct Hin; [contradiction | assumption].
Qed.

Lemma od_set_keys (d : OrderedDict.t V) (k : string) (v : V) :
  OrderedDict.keys (OrderedDict.set d k v)
  = if OrderedDict.contains d k then OrderedDict.keys d
    else (OrderedDict.keys d ++ [k])%list.
Proof.
  destruct (OrderedDict.contains d k) eqn:E.
  - apply od_set_present. now apply od_contains_spec.
  - apply od_contains_false in E. rewrite od_set_absent by exact E.
    unfold OrderedDict.keys. now rewrite map_app.
Qed.

Lemma od_set_NoDup (d : OrderedDict.t V) (k : string) (v : V) :
  NoDup (OrderedDict.keys d) -> NoDup (OrderedDict.keys (OrderedDict.set d k v)).
Proof.
  intros Hnd. rewrite od_set_keys.
  destruct (OrderedDict.contains d k) eqn:E; [exact Hnd |].
  apply od_contains_false in E.
  apply NoDup_rev in Hnd. rewrite <- (rev_involutive (_ ++ [k])%list).
  apply NoDup_rev. rewrite rev_app_distr. simpl. constructor; [| exact Hnd].
  now rewrite <- in_rev.
Qed.


Lemma od_get_middle (pre post : OrderedDict.t V) (k : string) (v : V) :
  ~ In k (OrderedDict.keys pre) ->
  OrderedDict.get (pre ++ (k, v) :: post)%list k = Some v.
Proof.
  revert post. induction pre as [| [k' w] pre IH]; simpl; intros post Hnin.
  - now rewrite String.eqb_refl.
  - destruct (String.eqb_spec k' k) as [-> | Hne]; [tauto |].
    apply IH. tauto.
Qed.

Lemma od_remove_middle (pre post : OrderedDict.t V) (k : string) (v : V) :
  ~ In k (OrderedDict.keys pre) ->
  OrderedDict.remove (pre ++ (k, v) :: post)%list k = (pre ++ post)%list.
Proof.
  revert post. induction pre as [| [k' w] pre IH]; simpl; intros post Hnin.
  - now rewrite String.eqb_refl.
  - destruct (String.eqb_spec k' k) as [-> | Hne]; [tauto |].
    f_equal. apply IH. tauto.
Qed.

(** The entry at a position of an ordered mapping with distinct keys is
    the one its key retrieves. *)
Lemma od_nth_entry (d : OrderedDict.t V) (j : nat) (k : string) :
  nth_error (OrderedDict.keys d) j = Some k ->
  exists pre v post,
    d = (pre ++ (k, v) :: post)%list /\ List.length pre = j /\
    nth_error (OrderedDict.values d) j = Some v.
Proof.
  unfold OrderedDict.keys, OrderedDict.values. rewrite !nth_error_map.
  destruct (nth_error d j) as [[k' v] |] eqn:E; [| discriminate].
  intros [= <-]. destruct (nth_error_split _ _ E) as (pre & post & -> & Hlen).
  exists pre, v, post. repeat split; assumption.
Qed.

Lemma NoDup_keys_middle (pre post : OrderedDict.t V) (k : string) (v : V) :
  NoDup (OrderedDict.keys (pre ++ (k, v) :: post)%list) ->
  ~ In k (OrderedDict.keys pre) /\ ~ In k (OrderedDict.keys post) /\
  NoDup (OrderedDict.keys (pre ++ post)%list).
Proof.
  unfold OrderedDict.keys. rewrite !map_app. simpl. intros Hnd.
  pose proof (NoDup_remove_1 _ _ _ Hnd) as H1.
  pose proof (NoDup_remove_2 _ _ _ Hnd) as H2.
  repeat split; [| | exact H1]; intros Hin; apply H2, in_or_app; tauto.
Qed.
End OrderedDictLaws.

Section IndexFacts.

Lemma list_index_nth {A} (l : list A) (i : Z) (x : A) :
  list_index l i = Ok x ->
  exists j, nth_error l j = Some x /\
            Z.of_nat j = (if i <? 0 then i + Z.of_nat (List.length l) else i).
Proof.
  unfold list_index.
  set (j := if i <? 0 then i + Z.of_nat (List.length l) else i).
  destruct (Z.ltb_spec j 0); [discriminate |].
  destruct (Z.leb_spec (Z.of_nat (List.length l)) j); [discriminate |].
  cbn [orb]. destruct (nth_error l (Z.to_nat j)) eqn:E; [| discriminate].
  intros [= <-]. exists (Z.to_nat j). split; [exact E | lia].
Qed.

Lemma list_index_last {A} (l : list A) (x : A) :
  list_index (l ++ [x]) (-1) = Ok x.
Proof.
  unfold list_index. rewrite length_app. cbn [List.length].
  change (-1 <? 0) with true. cbv iota.
  replace (-1 + Z.of_nat (List.length l + 1)) with (Z.of_nat (List.length l))
    by lia.
  destruct (Z.ltb_spec (Z.of_nat (List.length l)) 0); [lia |].
  destruct (Z.leb_spec (Z.of_nat (List.length l + 1)) (Z.of_nat (List.length l)));
    [lia |].
  cbn [orb]. now rewrite Nat2Z.id, nth_error_app2, Nat.sub_diag by lia.
Qed.

Lemma list_index_map {A B} (f : A -> B) (l : list A) (i : Z) :
  list_index (map f l) i
  = match list_index l i with Ok x => Ok (f x) | Raise e => Raise e end.
Proof.
  unfold list_index. rewrite length_map.
  destruct (_ || _); [reflexivity |].
  rewrite nth_error_map. now destruct (nth_error l _).
Qed.

(** [l.index(x)] is the first position of [x]. *)
Lemma list_find_spec (l : list string) (x : string) :
  match list_find l x with
  | Some i =>
      exists pre post, l = (pre ++ x :: post)%list /\ ~ In x pre /\
                       i = Z.of_nat (List.length pre)
  | None => ~ In x l
  end.
Proof.
  induction l as [| y l IH]; simpl; [tauto |].
  destruct (String.eqb_spec y x) as [-> | Hne].
  - exists [], l. repeat split. tauto.
  - destruct (list_find l x) as [i |].
    + destruct IH as (pre & post & -> & Hnin & ->).
      exists (y :: pre), post. repeat split.
      * simpl. intros [? | ?]; [contradiction | tauto].
      * simpl List.length. lia.
    + intros [? | ?]; [contradiction | tauto].
Qed.

Lemma list_find_absent (l : list string) (x : string) :
  ~ In x l -> list_find (l ++ [x]) x = Some (Z.of_nat (List.length l)).
Proof.
  induction l as [| y l IH]; simpl; intros Hnin.
  - now rewrite String.eqb_refl.
  - destruct (String.eqb_spec y x) as [-> | Hne]; [tauto |].
    rewrite IH by tauto. f_equal. lia.
Qed.
End IndexFacts.

(** ** Building a QueryResult *)

Section QueryResultFacts.
Import Invariants Laws.

(** The three outcomes of [append]. *)
Lemma append_spec (h : Hit.t) (q : QueryResult.t) :
  QueryResult.append h q
  = if OrderedDict.contains (QueryResult._hits q) (hit_key q h) then
      (Raise (ValueError ("Hit '" +++ hit_key q h +++
                          "' already present in this QueryResult.")), q)
    else if negb (String.eqb (Hit._query_id h) (QueryResult._id q)) then
      (Raise (ValueError ("Expected Hit with query ID '" +++ QueryResult._id q +++
                          "', found '" +++ Hit._query_id h +++ "' instead.")), q)
    else
      (Ok tt,
       QueryResult.set__hits
         (QueryResult._hits q ++ [(hit_key q h, h)])%list q).
Proof.
  unfold QueryResult.append, QueryResult.__contains__.
  change (match QueryResult._hit_key_function q with
          | Some f => f h
          | None => Hit._id_get h
          end) with (hit_key q h).
  destruct (OrderedDict.contains (QueryResult._hits q) (hit_key q h)) eqn:E;
    [reflexivity |].
  unfold QueryResult.__setitem__, Hit._query_id_get, QueryResult._id_get.
  destruct (negb _); [reflexivity |].
  apply od_contains_false in E. now rewrite od_set_absent.
Qed.

Lemma append_success (h : Hit.t) (q q' : QueryResult.t) :
  QueryResult.append h q = (Ok tt, q') <->
  Hit._query_id h = QueryResult._id q /\
  ~ In (hit_key q h) (QueryResult._hit_keys_get q) /\
  q' = QueryResult.set__hits
         (QueryResult._hits q ++ [(hit_key q h, h)])%list q.
Proof.
  rewrite append_spec. unfold QueryResult._hit_keys_get.
  destruct (OrderedDict.contains (QueryResult._hits q) (hit_key q h)) eqn:E.
  - apply od_contains_spec in E. split; [discriminate | tauto].
  - apply od_contains_false in E.
    destruct (String.eqb_spec (Hit._query_id h) (QueryResult._id q)) as [Hq | Hq];
      cbn [negb].
    + split; [intros [= <-]; auto | intros (_ & _ & ->); reflexivity].
    + split; [discriminate | tauto].
Qed.

Lemma append_failure (h : Hit.t) (q q' : QueryResult.t) (e : exn) :
  QueryResult.append h q = (Raise e, q') ->
  q' = q /\ exists msg, e = ValueError msg.
Proof.
  rewrite append_spec.
  destruct (OrderedDict.contains _ _); [intros [= <- <-]; eauto |].
  destruct (negb _); [intros [= <- <-]; eauto | discriminate].
Qed.

Lemma hit_key_set_hits (d : OrderedDict.t Hit.t) (q : QueryResult.t) :
  hit_key (QueryResult.set__hits d q) = hit_key q.
Proof. reflexivity. Qed.

(** What a run of [append]s that succeeds says about the hits. *)
Lemma for_each_append_inv (hits : list Hit.t) (s s' : QueryResult.t) :
  for_each hits QueryResult.append s = (Ok tt, s') ->
  Forall (fun h => Hit._query_id h = QueryResult._id s) hits /\
  NoDup (map (hit_key s) hits) /\
  Forall (fun h => ~ In (hit_key s h) (QueryResult._hit_keys_get s)) hits.
Proof.
  revert s. induction hits as [| h hits IH]; intros s H.
  - repeat split; constructor.
  - cbn [for_each] in H. unfold bind at 1 in H.
    destruct (QueryResult.append h s) as [[[] | e] s1] eqn:E; [| discriminate].
    apply append_success in E. destruct E as (Hq & Hnin & ->).
    apply IH in H. destruct H as (Hqs & Hnd & Hout).
    rewrite hit_key_set_hits in *.
    unfold QueryResult._hit_keys_get, QueryResult.set__hits, OrderedDict.keys in Hout.
    cbn [QueryResult._hits QueryResult._id] in *.
    rewrite Forall_forall in Hout.
    repeat split.
    + constructor; assumption.
    + cbn [map]. constructor; [| exact Hnd].
      intros Hin. apply in_map_iff in Hin. destruct Hin as (h' & Heq & Hin).
      apply (Hout h' Hin). rewrite map_app. apply in_or_app. right.
      simpl. now left.
    + constructor; [exact Hnin |].
      apply Forall_forall. intros h' Hin Hin'. apply (Hout h' Hin).
      rewrite map_app. apply in_or_app. now left.
Qed.

Lemma for_each_append_failure (hits : list Hit.t) (s s' : QueryResult.t) (e : exn) :
  for_each hits QueryResult.append s = (Raise e, s') ->
  exists msg, e = ValueError msg.
Proof.
  revert s. induction hits as [| h hits IH]; intros s H; [discriminate |].
  cbn [for_each] in H. unfold bind at 1 in H.
  destruct (QueryResult.append h s) as [[[] | e1] s1] eqn:E.
  - eapply IH; eauto.
  - injection H as <- <-. apply append_failure in E. tauto.
Qed.

(** X15: [QueryResult(id, hits, hit_key_function)] succeeds exactly when
    every hit carries [id] as query id and the keys of the hits are
    pairwise distinct; the object then holds the hits in the order
    given, each under its key, with the defaults for program, target,
    version and description, and satisfies the invariant.  Any other
    list of hits raises a ValueError, as does a missing id. *)
Theorem qresult_constructor_validates (i : string) (hits : list Hit.t)
    (kf : option (Hit.t -> string)) :
  ((exists q, QueryResult.__init__ (Some i) hits kf = Ok q) <->
   Forall (fun h => Hit._query_id h = i) hits /\ NoDup (map (key_of kf) hits)) /\
  (forall q,
     QueryResult.__init__ (Some i) hits kf = Ok q ->
     QueryResult._id q = i /\
     QueryResult._hit_key_function q = kf /\
     QueryResult._hits_get q = hits /\
     QueryResult._hit_keys_get q = map (key_of kf) hits /\
     QueryResult.__len__ q = Z.of_nat (List.length hits) /\
     QueryResult.program q = "<unknown>" /\
     QueryResult.target q = "<unknown>" /\
     QueryResult.version q = "<unknown>" /\
     QueryResult._desc q = "" /\
     query_consistent q /\ unique_keys q) /\
  (forall e,
     QueryResult.__init__ (Some i) hits kf = Raise e ->
     exists msg, e = ValueError msg) /\
  QueryResult.__init__ None hits kf
  = Raise (ValueError "Query ID string is required for QueryResult creation").
Proof.
  set (fresh := QueryResult.mk i kf [] "<unknown>" "<unknown>" "<unknown>" "" []).
  assert (Hinv : forall q,
            QueryResult.__init__ (Some i) hits kf = Ok q ->
            Forall (fun h => Hit._query_id h = i) hits /\
            NoDup (map (key_of kf) hits)).
  { intros q. unfold QueryResult.__init__, construct. fold fresh.
    destruct (for_each hits QueryResult.append fresh) as [[[] | e] s'] eqn:E;
      [| discriminate].
    intros _. apply for_each_append_inv in E. tauto. }
  assert (Hok : Forall (fun h => Hit._query_id h = i) hits ->
                NoDup (map (key_of kf) hits) ->
                QueryResult.__init__ (Some i) hits kf
                = Ok (QueryResult.mk i kf (map (fun h => (key_of kf h, h)) hits)
                        "<unknown>" "<unknown>" "<unknown>" "" [])).
  { intros Hq Hnd. unfold QueryResult.__init__, construct.
    now rewrite (for_each_append kf i _ _ _ _ _ hits [] Hq Hnd). }
  split; [| split; [| split]].
  - split; [intros (q & Hq); eauto | intros (Hq & Hnd); eauto].
  - intros q Hq. destruct (Hinv q Hq) as (Hall & Hnd).
    rewrite (Hok Hall Hnd) in Hq. injection Hq as <-.
    unfold QueryResult._hits_get, QueryResult._hit_keys_get, QueryResult.__len__,
      unique_keys, OrderedDict.keys.
    cbn [QueryResult._id QueryResult._hit_key_function QueryResult._hits
         QueryResult.program QueryResult.target QueryResult.version
         QueryResult._desc].
    rewrite values_of_keyed, map_map, length_map. cbn [fst].
    repeat (split; [reflexivity |]).
    split; [now apply keyed_consistent |].
    unfold QueryResult._hit_keys_get, OrderedDict.keys.
    cbn [QueryResult._hits]. rewrite map_map. exact Hnd.
  - intros e. unfold QueryResult.__init__, construct. fold fresh.
    destruct (for_each hits QueryResult.append fresh) as [[[] | e1] s'] eqn:E;
      [discriminate |].
    intros [= <-]. eapply for_each_append_failure; eauto.
  - reflexivity.
Qed.

Lemma qresult_constructor_validates_witness :
  (exists q,
     QueryResult.__init__ (Some "query1")
       [Examples.hit1; Examples.hit2; Examples.hit3]
       QueryResult.default_hit_key_function = Ok q /\
     QueryResult._hit_keys_get q = ["hit1"; "hit2"; "hit3"] /\
     QueryResult.__len__ q = 3) /\
  exists msg,
    QueryResult.__init__ (Some "query1") [Examples.hit1; Examples.foreign_hit]
      QueryResult.default_hit_key_function
    = Raise (ValueError msg).
Proof.
  pose proof (qresult_constructor_validates "query1"
                [Examples.hit1; Examples.hit2; Examples.hit3]
                QueryResult.default_hit_key_function) as (Hiff & Hok & _).
  pose proof (qresult_constructor_validates "query1"
                [Examples.hit1; Examples.foreign_hit]
                QueryResult.default_hit_key_function) as (_ & _ & Herr & _).
  split.
  - destruct (proj2 Hiff) as (q & Hq).
    { split; [repeat constructor |].
      simpl. repeat constructor; simpl; intuition discriminate. }
    destruct (Hok q Hq) as (_ & _ & _ & Hkeys & Hlen & _).
    exists q. split; [exact Hq |]. split; [exact Hkeys | exact Hlen].
  - destruct (Herr _ eq_refl) as (msg & Hmsg).
    exists msg. rewrite <- Hmsg. reflexivity.
Defined.

(** X16: [q.append(h)] succeeds exactly when [h] carries [q.id] as query
    id and its key is not yet a key of [q].  After it, [h] is the last
    hit, found under its key and at position [-1] and [len(q) - 1]; a
    second [append] of [h] raises a ValueError; and [q.pop()] returns
    [h] and leaves [q] exactly as it was before the [append]. *)
Theorem append_then_pop_round_trip (q : QueryResult.t) (h : Hit.t) :
  ((exists q', QueryResult.append h q = (Ok tt, q')) <->
   Hit._query_id h = QueryResult._id q /\
   QueryResult.__contains__ q (QueryResult.KeyStr (hit_key q h)) = Ok false) /\
  (forall q',
     QueryResult.append h q = (Ok tt, q') ->
     QueryResult._hits_get q' = (QueryResult._hits_get q ++ [h])%list /\
     QueryResult._hit_keys_get q'
       = (QueryResult._hit_keys_get q ++ [hit_key q h])%list /\
     QueryResult.__len__ q' = QueryResult.__len__ q + 1 /\
     QueryResult.__contains__ q' (QueryResult.KeyStr (hit_key q h)) = Ok true /\
     QueryResult.__getitem__ (QueryResult.KeyStr (hit_key q h)) q'
       = (Ok (QueryResult.HitItem h), q') /\
     QueryResult.__getitem__ (QueryResult.KeyInt (-1)) q'
       = (Ok (QueryResult.HitItem h), q') /\
     QueryResult.index q' (QueryResult.KeyStr (hit_key q h))
       = QueryResult.__len__ q /\
     (exists msg, QueryResult.append h q' = (Raise (ValueError msg), q')) /\
     QueryResult.pop QueryResult.default_pop_key None q' = (Ok (Inst h), q)) /\
  (forall e q',
     QueryResult.append h q = (Raise e, q') ->
     q' = q /\ exists msg, e = ValueError msg).
Proof.
  split; [| split].
  - unfold QueryResult.__contains__. split.
    + intros (q' & Hq'). apply append_success in Hq'.
      destruct Hq' as (Hq & Hnin & _). split; [exact Hq |].
      f_equal. now apply od_contains_false.
    + intros (Hq & Hc). injection Hc as Hc. apply od_contains_false in Hc.
      eexists. apply append_success. repeat split; assumption.
  - intros q' Hq'. apply append_success in Hq'. destruct Hq' as (Hq & Hnin & ->).
    set (k := hit_key q h) in *.
    unfold QueryResult._hit_keys_get in Hnin.
    assert (Hget : OrderedDict.get (QueryResult._hits q ++ [(k, h)])%list k
                   = Some h) by now apply od_get_middle.
    unfold QueryResult._hits_get, QueryResult._hit_keys_get, QueryResult.__len__,
      QueryResult.__contains__, QueryResult.__getitem__, QueryResult.index,
      QueryResult._hits_get, QueryResult._hit_keys_get,
      OrderedDict.contains, OrderedDict.values, OrderedDict.keys.
    cbn [QueryResult.set__hits QueryResult._hits].
    rewrite Hget, !map_app, length_app. cbn [map fst snd List.length].
    split; [reflexivity |]. split; [reflexivity |]. split; [lia |].
    split; [reflexivity |]. split; [reflexivity |].
    split; [now rewrite list_index_last |].
    split; [now rewrite (list_find_absent (map fst (QueryResult._hits q)) k Hnin),
                        length_map |].
    split.
    + rewrite append_spec. rewrite hit_key_set_hits. fold k.
      unfold OrderedDict.contains. cbn [QueryResult.set__hits QueryResult._hits].
      rewrite Hget. eauto.
    + assert (Hnz : QueryResult.__nonzero__
                      (QueryResult.set__hits
                         (QueryResult._hits q ++ [(k, h)])%list q) = true).
      { unfold QueryResult.__nonzero__. cbn [QueryResult.set__hits QueryResult._hits].
        now destruct (QueryResult._hits q). }
      unfold QueryResult.pop, QueryResult.default_pop_key. rewrite Hnz.
      unfold QueryResult._hit_keys_get, OrderedDict.keys.
      cbn [negb QueryResult.set__hits QueryResult._hits].
      rewrite map_app. cbn [map fst].
      rewrite list_index_last. unfold QueryResult.pop_key.
      change (QueryResult._hits
                (QueryResult.set__hits (QueryResult._hits q ++ [(k, h)])%list q))
        with (QueryResult._hits q ++ [(k, h)])%list.
      rewrite Hget.
      rewrite od_remove_middle by exact Hnin. rewrite app_nil_r.
      now destruct q.
  - intros e q'. apply append_failure.
Qed.

Lemma append_then_pop_round_trip_witness :
  exists q',
    QueryResult.append Examples.hit4 Examples.qresult = (Ok tt, q') /\
    QueryResult._hit_keys_get q' = ["hit1"; "hit2"; "hit3"; "hit4"] /\
    QueryResult.index q' (QueryResult.KeyStr "hit4") = 3 /\
    QueryResult.pop QueryResult.default_pop_key None q'
      = (Ok (Inst Examples.hit4), Examples.qresult).
Proof.
  pose proof (append_then_pop_round_trip Examples.qresult Examples.hit4)
    as (Hiff & Hok & _).
  destruct (proj2 Hiff) as (q' & Hq'); [split; reflexivity |].
  destruct (Hok q' Hq') as (_ & Hkeys & _ & _ & _ & _ & Hidx & _ & Hpop).
  exists q'. repeat split; assumption.
Defined.
End QueryResultFacts.

(** ** Looking hits up *)

Section QueryResultLookup.
Import Invariants Laws.

Lemma list_index_middle {A} (pre post : list A) (x : A) :
  list_index (pre ++ x :: post) (Z.of_nat (List.length pre)) = Ok x.
Proof.
  unfold list_index. rewrite length_app. cbn [List.length].
  destruct (Z.ltb_spec (Z.of_nat (List.length pre)) 0); [lia |].
  destruct (Z.ltb_spec (Z.of_nat (List.length pre)) 0); [lia |].
  destruct (Z.leb_spec (Z.of_nat (List.length pre + Datatypes.S (List.length post)))
                       (Z.of_nat (List.length pre))); [lia |].
  cbn [orb]. now rewrite Nat2Z.id, nth_error_app2, Nat.sub_diag by lia.
Qed.

(** The entries of an ordered mapping in front of, at and behind the
    first position of a key. *)
Lemma od_split_at_key {V} (d : OrderedDict.t V) (pre post : list string)
    (k : string) :
  OrderedDict.keys d = (pre ++ k :: post)%list ->
  exists dpre v dpost,
    d = (dpre ++ (k, v) :: dpost)%list /\
    OrderedDict.keys dpre = pre /\ OrderedDict.keys dpost = post.
Proof.
  unfold OrderedDict.keys. intros H.
  apply map_eq_app in H. destruct H as (dpre & drest & -> & Hpre & Hrest).
  apply map_eq_cons in Hrest. destruct Hrest as ([k' v] & dpost & -> & Hk & Hpost).
  cbn [fst] in Hk. subst k'. exists dpre, v, dpost. repeat split; assumption.
Qed.

(** X17: after [q[k] = h] has succeeded, [q[k]] is [h] and [k in q]
    holds; every other key retrieves what it retrieved before; a key
    that was present keeps its position and the number of hits, a new
    one goes last; and the keys stay pairwise distinct. *)
Theorem setitem_then_getitem (q q' : QueryResult.t) (k : string) (h : Hit.t) :
  QueryResult.__setitem__ (QueryResult.KeyStr k) (Inst h) q = (Ok tt, q') ->
  QueryResult.__getitem__ (QueryResult.KeyStr k) q'
    = (Ok (QueryResult.HitItem h), q') /\
  QueryResult.__contains__ q' (QueryResult.KeyStr k) = Ok true /\
  (forall k', k' <> k ->
     fst (QueryResult.__getitem__ (QueryResult.KeyStr k') q')
     = fst (QueryResult.__getitem__ (QueryResult.KeyStr k') q)) /\
  (QueryResult.__contains__ q (QueryResult.KeyStr k) = Ok true ->
   QueryResult._hit_keys_get q' = QueryResult._hit_keys_get q /\
   QueryResult.__len__ q' = QueryResult.__len__ q /\
   QueryResult.index q' (QueryResult.KeyStr k)
     = QueryResult.index q (QueryResult.KeyStr k)) /\
  (QueryResult.__contains__ q (QueryResult.KeyStr k) = Ok false ->
   QueryResult._hit_keys_get q' = (QueryResult._hit_keys_get q ++ [k])%list /\
   QueryResult._hits_get q' = (QueryResult._hits_get q ++ [h])%list /\
   QueryResult.__len__ q' = QueryResult.__len__ q + 1 /\
   QueryResult.index q' (QueryResult.KeyStr k) = QueryResult.__len__ q) /\
  (unique_keys q -> unique_keys q') /\
  Hit._query_id h = QueryResult._id q.
Proof.
  unfold QueryResult.__setitem__, Hit._query_id_get, QueryResult._id_get.
  destruct (String.eqb_spec (Hit._query_id h) (QueryResult._id q)) as [Hq | Hq];
    [| discriminate].
  cbn [negb]. intros [= <-].
  assert (Hlen : forall d : OrderedDict.t Hit.t,
             List.length d = List.length (OrderedDict.keys d)).
  { intros d. unfold OrderedDict.keys. now rewrite length_map. }
  unfold QueryResult.__getitem__, QueryResult.__contains__, QueryResult.index,
    QueryResult._hit_keys_get, QueryResult._hits_get, QueryResult.__len__,
    unique_keys, QueryResult._hit_keys_get.
  cbn [QueryResult.set__hits QueryResult._hits].
  split; [now rewrite od_get_set_same |].
  split; [unfold OrderedDict.contains; now rewrite od_get_set_same |].
  split; [intros k' Hne; rewrite od_get_set_other by congruence;
          now destruct (OrderedDict.get _ k') |].
  split; [| split; [| split; [apply od_set_NoDup | exact Hq]]].
  - intros [= Hc]. rewrite !Hlen, od_set_keys, Hc. auto.
  - intros [= Hc]. rewrite !Hlen, od_set_keys, Hc.
    apply od_contains_false in Hc.
    rewrite (od_set_absent _ _ _ Hc), length_app.
    unfold OrderedDict.values. rewrite map_app.
    rewrite (list_find_absent _ k Hc). cbn [map snd List.length].
    repeat split. lia.
Qed.

Lemma setitem_then_getitem_witness :
  exists q',
    QueryResult.__setitem__ (QueryResult.KeyStr "hit2") (Inst Examples.hit4)
      Examples.qresult = (Ok tt, q') /\
    QueryResult.__getitem__ (QueryResult.KeyStr "hit2") q'
      = (Ok (QueryResult.HitItem Examples.hit4), q') /\
    QueryResult._hit_keys_get q' = ["hit1"; "hit2"; "hit3"] /\
    QueryResult.index q' (QueryResult.KeyStr "hit2") = 1.
Proof.
  eexists. split; [reflexivity |].
  destruct (setitem_then_getitem Examples.qresult _ "hit2" Examples.hit4 eq_refl)
    as (Hget & _ & _ & Hpresent & _).
  destruct (Hpresent eq_refl) as (Hkeys & _ & Hidx).
  split; [exact Hget |]. split; [exact Hkeys | exact Hidx].
Defined.

(** X18: [q.index(k)] for a string [k] is [-1] exactly when [k] is not
    a key of [q], and [q[k]] then raises the KeyError of [k]; otherwise
    it is a position in the range of [q], the key at that position is
    [k], and [q[q.index(k)]] is the hit [q[k]].  For a Hit, [index]
    looks up the id of the hit, whatever the key function is. *)
Theorem index_agrees_with_lookup (q : QueryResult.t) (k : string) :
  let i := QueryResult.index q (QueryResult.KeyStr k) in
  ((i = -1 /\
    QueryResult.__contains__ q (QueryResult.KeyStr k) = Ok false /\
    QueryResult.__getitem__ (QueryResult.KeyStr k) q = (Raise (KeyError k), q)) \/
   (0 <= i < QueryResult.__len__ q /\
    QueryResult.__contains__ q (QueryResult.KeyStr k) = Ok true /\
    list_index (QueryResult._hit_keys_get q) i = Ok k /\
    exists hit,
      QueryResult.__getitem__ (QueryResult.KeyStr k) q
        = (Ok (QueryResult.HitItem hit), q) /\
      QueryResult.__getitem__ (QueryResult.KeyInt i) q
        = (Ok (QueryResult.HitItem hit), q))) /\
  (forall h : Hit.t,
     QueryResult.index q (QueryResult.KeyHit h)
     = QueryResult.index q (QueryResult.KeyStr (Hit._id h))).
Proof.
  split; [| reflexivity].
  unfold QueryResult.index, QueryResult.__contains__, QueryResult.__getitem__,
    QueryResult.__len__, QueryResult._hit_keys_get, QueryResult._hits_get.
  pose proof (list_find_spec (OrderedDict.keys (QueryResult._hits q)) k) as Hspec.
  destruct (list_find (OrderedDict.keys (QueryResult._hits q)) k) as [i |].
  - right. destruct Hspec as (pre & post & Hkeys & Hnin & ->).
    destruct (od_split_at_key _ _ _ _ Hkeys) as (dpre & v & dpost & Hd & <- & <-).
    rewrite Hd. rewrite <- Hd at 1.
    assert (Hl : List.length (OrderedDict.keys dpre) = List.length dpre).
    { unfold OrderedDict.keys. apply length_map. }
    split.
    { rewrite Hd, length_app, Hl. cbn [List.length]. lia. }
    unfold OrderedDict.contains. rewrite (od_get_middle dpre dpost k v Hnin).
    split; [reflexivity |]. split.
    { unfold OrderedDict.keys at 1. rewrite map_app. cbn [map fst].
      fold (OrderedDict.keys dpre). fold (OrderedDict.keys dpost).
      apply list_index_middle. }
    exists v. rewrite <- Hd. split; [reflexivity |].
    rewrite Hd at 1. unfold OrderedDict.values. rewrite map_app. cbn [map snd].
    replace (List.length (OrderedDict.keys dpre))
      with (List.length (map snd dpre)) by (rewrite Hl; apply length_map).
    now rewrite list_index_middle.
  - left. split; [reflexivity |].
    unfold OrderedDict.contains. now rewrite (od_get_absent _ _ Hspec).
Qed.
End QueryResultLookup.

(** ** Removing hits *)

Section QueryResultRemoval.
Import Invariants Laws.

Lemma list_slice_map {A B} (f : A -> B) (l : list A) (a b : option Z) :
  list_slice (map f l) a b = map f (list_slice l a b).
Proof.
  unfold list_slice. now rewrite length_map, skipn_map, firstn_map.
Qed.


(** A list falls into what is in front of a slice, the slice and what
    is behind it; deleting the slice leaves the two outer parts. *)
Lemma list_slice_split {A} (l : list A) (a b : option Z) :
  exists pre post,
    l = (pre ++ list_slice l a b ++ post)%list /\
    list_del_slice l a b = (pre ++ post)%list.
Proof.
  unfold list_slice, list_del_slice.
  set (lo := Z.to_nat (clamp_index (Z.of_nat (List.length l)) a 0)).
  set (w := Z.to_nat (clamp_index (Z.of_nat (List.length l)) b
                                  (Z.of_nat (List.length l))
                      - clamp_index (Z.of_nat (List.length l)) a 0)).
  exists (firstn lo l), (skipn (lo + w) l). split; [| reflexivity].
  rewrite (Nat.add_comm lo w), <- skipn_skipn, firstn_skipn.
  symmetry. apply firstn_skipn.
Qed.

Lemma list_index_raises {A} (l : list A) (i : Z) (e : exn) :
  list_index l i = Raise e -> e = IndexError "list index out of range".
Proof.
  unfold list_index. destruct (_ || _); [congruence |].
  destruct (nth_error _ _); congruence.
Qed.


Lemma list_index_split {A} (l : list A) (i : Z) (x : A) :
  list_index l i = Ok x -> exists pre post, l = (pre ++ x :: post)%list.
Proof.
  intros H. apply list_index_nth in H. destruct H as (j & Hj & _).
  destruct (nth_error_split _ _ Hj) as (pre & post & -> & _). eauto.
Qed.


(** With pairwise distinct keys, an entry of the mapping is the one its
    key retrieves. *)
Lemma od_get_entry {V} (pre post : OrderedDict.t V) (k : string) (v : V) :
  NoDup (OrderedDict.keys (pre ++ (k, v) :: post)%list) ->
  OrderedDict.get (pre ++ (k, v) :: post)%list k = Some v /\
  OrderedDict.remove (pre ++ (k, v) :: post)%list k = (pre ++ post)%list /\
  OrderedDict.contains (pre ++ post)%list k = false /\
  NoDup (OrderedDict.keys (pre ++ post)%list).
Proof.
  intros Hnd. destruct (NoDup_keys_middle _ _ _ _ Hnd) as (Hpre & Hpost & Hnd').
  split; [now apply od_get_middle |]. split; [now apply od_remove_middle |].
  split; [| exact Hnd'].
  apply od_contains_false. unfold OrderedDict.keys in *. rewrite map_app.
  intros Hin. apply in_app_or in Hin. tauto.
Qed.

Lemma set_hits_twice (d d' : OrderedDict.t Hit.t) (q : QueryResult.t) :
  QueryResult.set__hits d (QueryResult.set__hits d' q) = QueryResult.set__hits d q.
Proof. reflexivity. Qed.

Lemma set_hits_same (q : QueryResult.t) :
  QueryResult.set__hits (QueryResult._hits q) q = q.
Proof. now destruct q. Qed.

(** Deleting the keys of a run of entries, one after the other, removes
    the run. *)
Lemma for_each_del_keys (mid pre post : OrderedDict.t Hit.t) (q : QueryResult.t) :
  NoDup (OrderedDict.keys (pre ++ mid ++ post)%list) ->
  for_each (OrderedDict.keys mid) QueryResult.del_key
    (QueryResult.set__hits (pre ++ mid ++ post)%list q)
  = (Ok tt, QueryResult.set__hits (pre ++ post)%list q).
Proof.
  induction mid as [| [k v] mid IH]; intros Hnd; [reflexivity |].
  cbn [OrderedDict.keys map fst for_each]. unfold bind at 1.
  unfold QueryResult.del_key at 1.
  change (QueryResult._hits (QueryResult.set__hits ?d q)) with d.
  cbn [app] in Hnd |- *.
  destruct (od_get_entry pre (mid ++ post)%list k v Hnd) as (Hget & Hrem & _ & Hnd').
  unfold OrderedDict.contains. rewrite Hget, Hrem, set_hits_twice.
  now apply IH.
Qed.

(** What the three positional operations do on the entry at a
    position. *)
Lemma at_position (q : QueryResult.t) (i : Z) (default : option (pyobj Hit.t)) :
  unique_keys q ->
  match list_index (QueryResult._hits q) i with
  | Ok (k, v) =>
      QueryResult.__getitem__ (QueryResult.KeyInt i) q
        = (Ok (QueryResult.HitItem v), q) /\
      QueryResult.__getitem__ (QueryResult.KeyStr k) q
        = (Ok (QueryResult.HitItem v), q) /\
      QueryResult.__delitem__ (QueryResult.KeyInt i) q
        = (Ok tt, QueryResult.set__hits
                    (OrderedDict.remove (QueryResult._hits q) k) q) /\
      QueryResult.pop (QueryResult.KeyInt i) default q
        = (Ok (Inst v), QueryResult.set__hits
                          (OrderedDict.remove (QueryResult._hits q) k) q)
  | Raise e =>
      QueryResult.__getitem__ (QueryResult.KeyInt i) q = (Raise e, q) /\
      QueryResult.__delitem__ (QueryResult.KeyInt i) q = (Raise e, q) /\
      exists msg,
        QueryResult.pop (QueryResult.KeyInt i) default q
        = (Raise (IndexError msg), q)
  end.
Proof.
  intros Hnd. unfold unique_keys, QueryResult._hit_keys_get in Hnd.
  unfold QueryResult.__getitem__, QueryResult.__delitem__, QueryResult.pop,
    QueryResult._hits_get, QueryResult._hit_keys_get, OrderedDict.values,
    OrderedDict.keys.
  rewrite !list_index_map.
  destruct (list_index (QueryResult._hits q) i) as [[k v] | e] eqn:E.
  - destruct (list_index_split _ _ _ E) as (pre & post & Hd).
    rewrite Hd in Hnd. destruct (od_get_entry pre post k v Hnd) as (Hget & _).
    rewrite <- Hd in Hget.
    assert (Hnz : QueryResult.__nonzero__ q = true).
    { unfold QueryResult.__nonzero__. rewrite Hd. now destruct pre. }
    rewrite Hnz. cbn [fst snd negb for_each]. unfold bind, ret.
    unfold QueryResult.pop_key, QueryResult.del_key, OrderedDict.contains.
    rewrite Hget. repeat split.
  - repeat split. destruct (negb (QueryResult.__nonzero__ q)); [eauto |].
    rewrite (list_index_raises _ _ _ E). eauto.
Qed.




End QueryResultRemoval.

(** ** QueryResults derived from a QueryResult *)

Section QueryResultDerived.
Import Invariants Laws.

Lemma well_keyed_hits (q : QueryResult.t) :
  well_keyed q ->
  QueryResult._hits q
  = map (fun h => (hit_key q h, h)) (QueryResult._hits_get q).
Proof.
  intros (_ & Hall). unfold QueryResult._hits_get, OrderedDict.values.
  induction (QueryResult._hits q) as [| [k v] d IH]; [reflexivity |].
  inversion Hall as [| ? ? (Hk & _) Hall']; subst. cbn [map fst snd] in *.
  rewrite Hk at 1. f_equal. now apply IH.
Qed.

Lemma well_keyed_consistent (q : QueryResult.t) :
  well_keyed q -> query_consistent q.
Proof.
  intros Hw. pose proof (well_keyed_hits q Hw) as Hd.
  destruct Hw as (Hnd & Hall). split.
  - unfold QueryResult._hits_get, OrderedDict.values.
    apply Forall_forall. intros h Hin. apply in_map_iff in Hin.
    destruct Hin as (kv & <- & Hin). rewrite Forall_forall in Hall.
    now apply Hall.
  - unfold unique_keys, QueryResult._hit_keys_get, OrderedDict.keys in Hnd.
    rewrite Hd, map_map in Hnd. exact Hnd.
Qed.

Lemma keyed_well_keyed (q : QueryResult.t) (hits : list Hit.t) :
  Forall (fun h => Hit._query_id h = QueryResult._id q) hits ->
  NoDup (map (hit_key q) hits) ->
  well_keyed (QueryResult.set__hits (map (fun h => (hit_key q h, h)) hits) q).
Proof.
  intros Hq Hnd. split.
  - unfold unique_keys, QueryResult._hit_keys_get, OrderedDict.keys.
    cbn [QueryResult.set__hits QueryResult._hits]. now rewrite map_map.
  - cbn [QueryResult.set__hits QueryResult._hits QueryResult._id].
    apply Forall_forall. intros kv Hin. apply in_map_iff in Hin.
    destruct Hin as (h & <- & Hin). rewrite Forall_forall in Hq.
    split; [reflexivity | now apply Hq].
Qed.

(** The QueryResult every deriving method builds from hits that carry
    the query id and have pairwise distinct keys. *)
Lemma rebuild_facts (q : QueryResult.t) (hits : list Hit.t) :
  Forall (fun h => Hit._query_id h = QueryResult._id q) hits ->
  NoDup (map (hit_key q) hits) ->
  exists q',
    QueryResult.rebuild q hits = Ok q' /\
    QueryResult._hits_get q' = hits /\
    QueryResult._hit_keys_get q' = map (hit_key q) hits /\
    QueryResult.__len__ q' = Z.of_nat (List.length hits) /\
    QueryResult._id q' = QueryResult._id q /\
    QueryResult._hit_key_function q' = QueryResult._hit_key_function q /\
    QueryResult.program q' = QueryResult.program q /\
    QueryResult.target q' = QueryResult.target q /\
    QueryResult.version q' = QueryResult.version q /\
    QueryResult._desc q' = QueryResult._desc q /\
    (forall name,
       BaseSearchObject.is_sticky QueryResult._NON_STICKY_ATTRS name = true ->
       BaseSearchObject.lookup name (QueryResult.attrs q')
       = BaseSearchObject.lookup name (QueryResult.attrs q)) /\
    well_keyed q'.
Proof.
  intros Hq Hnd. eexists. split; [now apply rebuild_ok |].
  unfold QueryResult._hits_get, QueryResult._hit_keys_get, QueryResult.__len__,
    OrderedDict.keys.
  cbn [QueryResult._hits QueryResult._id QueryResult._hit_key_function
       QueryResult.program QueryResult.target QueryResult.version
       QueryResult._desc QueryResult.attrs].
  rewrite values_of_keyed, map_map, length_map. cbn [fst].
  repeat (split; [reflexivity |]).
  split; [intros name Hs; now apply transfer_to_fresh |].
  split.
  - unfold unique_keys, QueryResult._hit_keys_get, OrderedDict.keys.
    cbn [QueryResult._hits]. now rewrite map_map.
  - cbn [QueryResult._hits QueryResult._id].
    apply Forall_forall. intros kv Hin. apply in_map_iff in Hin.
    destruct Hin as (h & <- & Hin). rewrite Forall_forall in Hq.
    split; [reflexivity | now apply Hq].
Qed.

(** X21: on a QueryResult [q] whose hits carry [q.id] and have pairwise
    distinct keys, [reversed(q)] is a new QueryResult with the id, key
    function and attributes of [q] that holds the hits in the reverse
    order, each under its key, and satisfies the same invariant;
    reversing it again gives the hits of [q] in their own order. *)
Theorem reversed_reverses_hits (q : QueryResult.t) :
  query_consistent q ->
  exists r,
    QueryResult.__reversed__ q = Ok r /\
    QueryResult._hits_get r = rev (QueryResult._hits_get q) /\
    QueryResult._hit_keys_get r = rev (map (hit_key q) (QueryResult._hits_get q)) /\
    QueryResult.__len__ r = QueryResult.__len__ q /\
    QueryResult._id r = QueryResult._id q /\
    QueryResult._hit_key_function r = QueryResult._hit_key_function q /\
    QueryResult.program r = QueryResult.program q /\
    QueryResult.target r = QueryResult.target q /\
    QueryResult.version r = QueryResult.version q /\
    QueryResult._desc r = QueryResult._desc q /\
    query_consistent r /\
    exists r2,
      QueryResult.__reversed__ r = Ok r2 /\
      QueryResult._hits_get r2 = QueryResult._hits_get q /\
      QueryResult._id r2 = QueryResult._id q.
Proof.
  intros (Hq & Hnd).
  assert (Hq' : Forall (fun h => Hit._query_id h = QueryResult._id q)
                       (rev (QueryResult._hits_get q))) by now apply Forall_rev.
  assert (Hnd' : NoDup (map (hit_key q) (rev (QueryResult._hits_get q)))).
  { rewrite map_rev. now apply NoDup_rev. }
  destruct (rebuild_facts q _ Hq' Hnd')
    as (r & Hr & Hhits & Hkeys & Hlen & Hid & Hkf & Hp & Ht & Hv & Hd & _ & Hw).
  exists r. split; [exact Hr |]. split; [exact Hhits |].
  split; [now rewrite Hkeys, map_rev |].
  split.
  { rewrite Hlen, length_rev. unfold QueryResult.__len__, QueryResult._hits_get,
      OrderedDict.values. now rewrite length_map. }
  repeat (split; [assumption |]).
  split; [now apply well_keyed_consistent |].
  assert (Hkey : hit_key r = hit_key q) by (unfold hit_key; now rewrite Hkf).
  destruct (rebuild_facts r (QueryResult._hits_get q))
    as (r2 & Hr2 & Hhits2 & _ & _ & Hid2 & _).
  { now rewrite Hid. }
  { now rewrite Hkey. }
  exists r2. unfold QueryResult.__reversed__. rewrite Hhits, rev_involutive.
  split; [exact Hr2 |]. split; [exact Hhits2 | congruence].
Qed.

Lemma reversed_reverses_hits_witness :
  exists r,
    QueryResult.__reversed__ Examples.qresult = Ok r /\
    QueryResult._hits_get r = [Examples.hit3; Examples.hit2; Examples.hit1] /\
    QueryResult._hit_keys_get r = ["hit3"; "hit2"; "hit1"].
Proof.
  destruct (reversed_reverses_hits Examples.qresult qresult_consistent)
    as (r & Hr & Hhits & Hkeys & _).
  exists r. split; [exact Hr |]. split; [exact Hhits | exact Hkeys].
Defined.

Lemma filter_both {A} (f g : A -> bool) (l : list A) :
  List.filter g (List.filter f l) = List.filter (fun h => f h && g h) l.
Proof.
  induction l as [| h l IH]; [reflexivity |].
  cbn [List.filter]. destruct (f h); cbn [List.filter andb]; [| exact IH].
  destruct (g h); now rewrite IH.
Qed.

(** X22: on a QueryResult [q] whose hits carry [q.id] and have pairwise
    distinct keys, [q.hit_filter(f)] is a new QueryResult with the id
    and key function of [q] that holds exactly the hits of [q] on which
    [f] is true, in their order, and satisfies the same invariant; it
    is never longer than [q]; and filtering it with [g] holds the hits,
    under the keys, that filtering [q] with both [f] and [g] holds. *)
Theorem hit_filter_selects (q : QueryResult.t) (f : Hit.t -> bool) :
  query_consistent q ->
  exists q1,
    QueryResult.hit_filter q f = Ok q1 /\
    QueryResult._hits_get q1 = List.filter f (QueryResult._hits_get q) /\
    QueryResult.__len__ q1 <= QueryResult.__len__ q /\
    QueryResult._id q1 = QueryResult._id q /\
    QueryResult._hit_key_function q1 = QueryResult._hit_key_function q /\
    query_consistent q1 /\
    forall g,
      exists q2 q12,
        QueryResult.hit_filter q1 g = Ok q2 /\
        QueryResult.hit_filter q (fun h => f h && g h) = Ok q12 /\
        QueryResult._hits_get q2 = QueryResult._hits_get q12 /\
        QueryResult._hit_keys_get q2 = QueryResult._hit_keys_get q12.
Proof.
  intros (Hq & Hnd).
  assert (Hsel : forall p,
            Forall (fun h => Hit._query_id h = QueryResult._id q)
                   (List.filter p (QueryResult._hits_get q)) /\
            NoDup (map (hit_key q) (List.filter p (QueryResult._hits_get q)))).
  { intros p. split; [| now apply NoDup_map_filter].
    apply Forall_forall. intros h Hin. apply filter_In in Hin.
    rewrite Forall_forall in Hq. now apply Hq. }
  destruct (rebuild_facts q _ (proj1 (Hsel f)) (proj2 (Hsel f)))
    as (q1 & Hq1 & Hhits & Hkeys & Hlen & Hid & Hkf & _ & _ & _ & _ & _ & Hw).
  exists q1. split; [exact Hq1 |]. split; [exact Hhits |].
  split.
  { rewrite Hlen. unfold QueryResult.__len__, QueryResult._hits_get,
      OrderedDict.values. rewrite <- (length_map snd (QueryResult._hits q)).
    apply Nat2Z.inj_le, filter_length_le. }
  split; [exact Hid |]. split; [exact Hkf |].
  split; [now apply well_keyed_consistent |].
  intros g.
  assert (Hkey : hit_key q1 = hit_key q) by (unfold hit_key; now rewrite Hkf).
  pose proof (filter_both f g (QueryResult._hits_get q)) as Hboth.
  destruct (rebuild_facts q _ (proj1 (Hsel (fun h => f h && g h)))
                          (proj2 (Hsel (fun h => f h && g h))))
    as (q12 & Hq12 & Hhits12 & Hkeys12 & _).
  destruct (rebuild_facts q1 (List.filter g (QueryResult._hits_get q1)))
    as (q2 & Hq2 & Hhits2 & Hkeys2 & _).
  { rewrite Hhits, Hboth, Hid. exact (proj1 (Hsel _)). }
  { rewrite Hhits, Hboth, Hkey. exact (proj2 (Hsel _)). }
  exists q2, q12. split; [exact Hq2 |]. split; [exact Hq12 |].
  rewrite Hhits2, Hkeys2, Hhits12, Hkeys12, Hhits, Hboth, Hkey. split; reflexivity.
Qed.

Lemma hit_filter_selects_witness :
  exists q1,
    QueryResult.hit_filter Examples.qresult Examples.has_hsps = Ok q1 /\
    QueryResult._hits_get q1 = [Examples.hit1; Examples.hit2].
Proof.
  destruct (hit_filter_selects Examples.qresult Examples.has_hsps
              qresult_consistent) as (q1 & Hq1 & Hhits & _).
  exists q1. split; [exact Hq1 | exact Hhits].
Defined.

(** X23: [q.sort(key=key, reverse=r)] on a QueryResult whose hits have
    pairwise distinct keys under its key function returns nothing and
    leaves [q] holding the same hits rearranged, each under its key: in
    ascending order of [key], or descending when [r] is true, hits of
    equal key keeping the order they had; nothing else of [q] changes.
    With [in_place=False], on a QueryResult whose hits also carry
    [q.id], [q] is left as it was and a new QueryResult with its id and
    key function is returned, that holds the hits in that order and
    satisfies the invariant. *)
Theorem sort_with_key_orders_hits (q : QueryResult.t) (key : Hit.t -> Z)
    (reverse : bool) :
  let ordered := sorted (QueryResult._hits_get q) key reverse in
  Permutation ordered (QueryResult._hits_get q) /\
  (if reverse then descending key ordered else ascending key ordered) /\
  stable key (QueryResult._hits_get q) ordered /\
  (forall f,
     QueryResult._hit_key_function q = Some f ->
     NoDup (map f (QueryResult._hits_get q)) ->
     exists q1,
       QueryResult.sort (Some key) reverse true q = (Ok None, q1) /\
       q1 = QueryResult.set__hits (map (fun h => (f h, h)) ordered) q /\
       QueryResult._hits_get q1 = ordered /\
       QueryResult._hit_keys_get q1 = map f ordered /\
       QueryResult.__len__ q1 = QueryResult.__len__ q /\
       unique_keys q1) /\
  (query_consistent q ->
   exists obj,
     QueryResult.sort (Some key) reverse false q = (Ok (Some obj), q) /\
     QueryResult._hits_get obj = ordered /\
     QueryResult._id obj = QueryResult._id q /\
     QueryResult._hit_key_function obj = QueryResult._hit_key_function q /\
     query_consistent obj).
Proof.
  intros ordered.
  destruct (sorted_spec key (QueryResult._hits_get q) reverse)
    as (Hperm & Hord & Hst).
  fold ordered in Hperm, Hord, Hst.
  split; [exact Hperm |]. split; [exact Hord |]. split; [exact Hst |].
  assert (Hnodup : forall g : Hit.t -> string,
            NoDup (map g (QueryResult._hits_get q)) -> NoDup (map g ordered)).
  { intros g Hnd. eapply Permutation_NoDup; [| exact Hnd].
    apply Permutation_map. now symmetry. }
  split.
  - intros f Hf Hnd.
    exists (QueryResult.set__hits (map (fun h => (f h, h)) ordered) q).
    pose proof (od_fill f ordered [] (Hnodup f Hnd)) as Hfill.
    split.
    { unfold QueryResult.sort. fold ordered. rewrite Hf.
      destruct ordered as [| h l]; [reflexivity |]. now rewrite Hfill. }
    split; [reflexivity |].
    unfold QueryResult._hits_get at 1, QueryResult._hit_keys_get,
      QueryResult.__len__, unique_keys, QueryResult._hit_keys_get, OrderedDict.keys.
    cbn [QueryResult.set__hits QueryResult._hits].
    rewrite values_of_keyed, map_map, length_map. cbn [fst].
    split; [reflexivity |]. split; [reflexivity |].
    split; [| now apply Hnodup].
    rewrite (Permutation_length Hperm).
    unfold QueryResult._hits_get, OrderedDict.values. now rewrite length_map.
  - intros (Hq & Hnd).
    assert (Hq' : Forall (fun h => Hit._query_id h = QueryResult._id q) ordered).
    { eapply Permutation_Forall; [symmetry; exact Hperm | exact Hq]. }
    destruct (rebuild_facts q ordered Hq' (Hnodup _ Hnd))
      as (obj & Hobj & Hhits & _ & _ & Hid & Hkf & _ & _ & _ & _ & _ & Hw).
    exists obj. split.
    { unfold QueryResult.sort. fold ordered. now rewrite Hobj. }
    split; [exact Hhits |]. split; [exact Hid |]. split; [exact Hkf |].
    now apply well_keyed_consistent.
Qed.

Lemma sort_with_key_orders_hits_witness :
  (exists q1,
     QueryResult.sort (Some Examples.by_hsp_count) false true Examples.qresult
       = (Ok None, q1) /\
     QueryResult._hits_get q1 = [Examples.hit3; Examples.hit2; Examples.hit1]) /\
  (exists obj,
     QueryResult.sort (Some Examples.by_hsp_count) true false Examples.qresult
       = (Ok (Some obj), Examples.qresult) /\
     QueryResult._hits_get obj = [Examples.hit1; Examples.hit2; Examples.hit3]).
Proof.
  split.
  - destruct (sort_with_key_orders_hits Examples.qresult Examples.by_hsp_count false)
      as (_ & _ & _ & Hplace & _).
    destruct (Hplace _ eq_refl (proj2 qresult_consistent))
      as (q1 & Hsort & _ & Hhits & _).
    exists q1. split; [exact Hsort | exact Hhits].
  - destruct (sort_with_key_orders_hits Examples.qresult Examples.by_hsp_count true)
      as (_ & _ & _ & _ & Hnew).
    destruct (Hnew qresult_consistent) as (obj & Hsort & Hhits & _).
    exists obj. split; [exact Hsort | exact Hhits].
Defined.
End QueryResultDerived.

(** ** The invariant of a QueryResult *)

Section QueryResultInvariant.
Import Invariants Laws.

Lemma well_keyed_intro (d : OrderedDict.t Hit.t) (q : QueryResult.t) :
  NoDup (OrderedDict.keys d) ->
  Forall (fun kv => fst kv = hit_key q (snd kv) /\
                    Hit._query_id (snd kv) = QueryResult._id q) d ->
  well_keyed (QueryResult.set__hits d q).
Proof. intros Hnd Hall. split; assumption. Qed.

Lemma od_remove_keys_incl {V} (d : OrderedDict.t V) (k x : string) :
  In x (OrderedDict.keys (OrderedDict.remove d k)) -> In x (OrderedDict.keys d).
Proof.
  induction d as [| [k' v] d IH]; simpl; [tauto |].
  destruct (String.eqb k' k); simpl; tauto.
Qed.

Lemma od_remove_NoDup {V} (d : OrderedDict.t V) (k : string) :
  NoDup (OrderedDict.keys d) -> NoDup (OrderedDict.keys (OrderedDict.remove d k)).
Proof.
  induction d as [| [k' v] d IH]; simpl; [trivial |].
  intros Hnd. inversion Hnd as [| ? ? Hnin Hnd']; subst.
  destruct (String.eqb k' k); [exact Hnd' |].
  simpl. constructor; [| now apply IH].
  intros Hin. apply Hnin. eapply od_remove_keys_incl; eauto.
Qed.

Lemma od_remove_Forall {V} (P : string * V -> Prop) (d : OrderedDict.t V)
    (k : string) :
  Forall P d -> Forall P (OrderedDict.remove d k).
Proof.
  induction 1 as [| [k' v] d Hx Hd IH]; simpl; [constructor |].
  destruct (String.eqb k' k); [exact Hd | now constructor].
Qed.

Lemma od_set_Forall {V} (P : string * V -> Prop) (d : OrderedDict.t V)
    (k : string) (v : V) :
  Forall P d -> P (k, v) -> Forall P (OrderedDict.set d k v).
Proof.
  intros Hd Hv. induction Hd as [| [k' w] d Hx Hd IH]; simpl.
  - constructor; [exact Hv | constructor].
  - destruct (String.eqb_spec k' k) as [-> | Hne]; constructor; auto.
Qed.

Lemma well_keyed_remove (q : QueryResult.t) (k : string) :
  well_keyed q ->
  well_keyed (QueryResult.set__hits (OrderedDict.remove (QueryResult._hits q) k) q).
Proof.
  intros (Hnd & Hall). apply well_keyed_intro.
  - now apply od_remove_NoDup.
  - now apply od_remove_Forall.
Qed.

(** The shape of what the constructor builds. *)
Lemma init_shape (i : string) (hits : list Hit.t) (kf : option (Hit.t -> string))
    (q : QueryResult.t) :
  QueryResult.__init__ (Some i) hits kf = Ok q ->
  Forall (fun h => Hit._query_id h = i) hits /\
  NoDup (map (key_of kf) hits) /\
  q = QueryResult.mk i kf (map (fun h => (key_of kf h, h)) hits)
        "<unknown>" "<unknown>" "<unknown>" "" [].
Proof.
  unfold QueryResult.__init__, construct.
  destruct (for_each hits QueryResult.append _) as [[[] | e] s'] eqn:E;
    [| discriminate].
  intros [= <-]. pose proof (for_each_append_inv _ _ _ E) as (Hq & Hnd & _).
  cbn [QueryResult._id] in Hq.
  change (hit_key (QueryResult.mk i kf [] "<unknown>" "<unknown>" "<unknown>" "" []))
    with (key_of kf) in Hnd.
  rewrite (for_each_append kf i _ _ _ _ _ hits [] Hq Hnd) in E.
  injection E as <-. repeat split; assumption.
Qed.

Lemma del_slice_result (q : QueryResult.t) (a b : option Z) :
  unique_keys q ->
  exists dpre dpost,
    QueryResult.__delitem__ (QueryResult.KeySlice a b) q
      = (Ok tt, QueryResult.set__hits (dpre ++ dpost)%list q) /\
    QueryResult._hits q
      = (dpre ++ list_slice (QueryResult._hits q) a b ++ dpost)%list.
Proof.
  intros Hnd.
  destruct (list_slice_split (QueryResult._hits q) a b) as (dpre & dpost & Hd & _).
  exists dpre, dpost. split; [| exact Hd].
  unfold unique_keys, QueryResult._hit_keys_get in Hnd. rewrite Hd in Hnd.
  unfold QueryResult.__delitem__, QueryResult._hit_keys_get, OrderedDict.keys.
  rewrite list_slice_map.
  fold (OrderedDict.keys (list_slice (QueryResult._hits q) a b)).
  rewrite <- (set_hits_same q) at 2. rewrite Hd at 2.
  now apply for_each_del_keys.
Qed.

(** X24: a QueryResult in which every hit is stored under its own key
    and carries the id of the QueryResult, the keys being pairwise
    distinct, is what the constructor builds, and [append], [del],
    [pop], [sort] in place, an assignment [q[k] = h] under the key of
    [h], and (when the key of a hit depends on its id only) the
    assignment of [q.id] all keep it so, whether they succeed or
    raise.  On such a QueryResult the hits carry its id and have
    pairwise distinct keys, which is what slicing, reversing, filtering
    and sorting into a new object need. *)
Theorem well_keyed_is_maintained :
  (forall i hits kf q,
     QueryResult.__init__ (Some i) hits kf = Ok q -> well_keyed q) /\
  (forall q,
     well_keyed q ->
     query_consistent q /\
     (forall h, well_keyed (snd (QueryResult.append h q))) /\
     (forall h,
        well_keyed (snd (QueryResult.__setitem__
                           (QueryResult.KeyStr (hit_key q h)) (Inst h) q))) /\
     (forall k, well_keyed (snd (QueryResult.__delitem__ k q))) /\
     (forall k default, well_keyed (snd (QueryResult.pop k default q))) /\
     (forall key reverse, well_keyed (snd (QueryResult.sort key reverse true q))) /\
     (keyed_by_id q -> forall X, well_keyed (snd (QueryResult._id_set X q)))).
Proof.
  split.
  { intros i hits kf q Hq. apply init_shape in Hq. destruct Hq as (Hall & Hnd & ->).
    apply (keyed_well_keyed
             (QueryResult.mk i kf [] "<unknown>" "<unknown>" "<unknown>" "" []));
      assumption. }
  intros q Hw. pose proof (well_keyed_consistent q Hw) as Hc.
  pose proof Hw as (Hnd & Hall).
  split; [exact Hc |].
  split; [| split; [| split; [| split; [| split]]]].
  - intros h. rewrite append_spec.
    destruct (OrderedDict.contains _ _) eqn:E; [exact Hw |].
    destruct (String.eqb_spec (Hit._query_id h) (QueryResult._id q)) as [Hq | Hq];
      cbn [negb snd]; [| exact Hw].
    apply od_contains_false in E. apply well_keyed_intro.
    + rewrite <- (od_set_absent _ _ h E). now apply od_set_NoDup.
    + apply Forall_app. split; [exact Hall |].
      constructor; [split; [reflexivity | exact Hq] | constructor].
  - intros h. unfold QueryResult.__setitem__, Hit._query_id_get, QueryResult._id_get.
    destruct (String.eqb_spec (Hit._query_id h) (QueryResult._id q)) as [Hq | Hq];
      cbn [negb snd]; [| exact Hw].
    apply well_keyed_intro; [now apply od_set_NoDup |].
    apply od_set_Forall; [exact Hall |]. split; [reflexivity | exact Hq].
  - intros k. destruct k as [a b | i | k | h |].
    + destruct (del_slice_result q a b Hnd) as (dpre & dpost & -> & Hd).
      cbn [snd]. unfold unique_keys, QueryResult._hit_keys_get in Hnd.
      rewrite Hd in Hnd, Hall. apply well_keyed_intro.
      * unfold OrderedDict.keys in *.
        rewrite !map_app in Hnd. rewrite map_app. revert Hnd.
        generalize (map fst dpre)
                   (map fst (list_slice (QueryResult._hits q) a b))
                   (map fst dpost).
        intros l1 l2 l3. induction l2 as [| x l2 IH]; [trivial |].
        intros H. apply IH. simpl in H. now apply NoDup_remove_1 in H.
      * apply Forall_app in Hall. destruct Hall as (H1 & H2).
        apply Forall_app in H2. apply Forall_app. tauto.
    + pose proof (at_position q i None Hnd) as H.
      destruct (list_index (QueryResult._hits q) i) as [[k v] | e].
      * destruct H as (_ & _ & -> & _). now apply well_keyed_remove.
      * destruct H as (_ & -> & _). exact Hw.
    + unfold QueryResult.__delitem__. cbn [for_each].
      unfold bind, QueryResult.del_key.
      destruct (OrderedDict.contains _ _); [| exact Hw].
      now apply well_keyed_remove.
    + exact Hw.
    + exact Hw.
  - intros k default. destruct k as [a b | i | k | h |].
    + exact Hw.
    + pose proof (at_position q i default Hnd) as H.
      destruct (list_index (QueryResult._hits q) i) as [[k v] | e].
      * destruct H as (_ & _ & _ & ->). now apply well_keyed_remove.
      * destruct H as (_ & _ & msg & ->). exact Hw.
    + unfold QueryResult.pop, QueryResult.pop_key.
      destruct (OrderedDict.get _ _); [now apply well_keyed_remove |].
      now destruct default.
    + unfold QueryResult.pop. now destruct default.
    + unfold QueryResult.pop. now destruct default.
  - intros key reverse. unfold QueryResult.sort.
    set (ordered := match key with
                    | Some k => sorted (QueryResult._hits_get q) k reverse
                    | None => if reverse then rev (QueryResult._hits_get q)
                              else QueryResult._hits_get q
                    end).
    assert (Hperm : Permutation ordered (QueryResult._hits_get q)).
    { unfold ordered. destruct key as [k |]; [apply (sorted_spec k) |].
      destruct reverse; [symmetry; apply Permutation_rev | reflexivity]. }
    destruct Hc as (Hq & Hkeys).
    assert (Hq' : Forall (fun h => Hit._query_id h = QueryResult._id q) ordered).
    { eapply Permutation_Forall; [symmetry; exact Hperm | exact Hq]. }
    assert (Hkeys' : NoDup (map (hit_key q) ordered)).
    { eapply Permutation_NoDup; [| exact Hkeys].
      apply Permutation_map. now symmetry. }
    clearbody ordered.
    destruct (QueryResult._hit_key_function q) as [f |] eqn:Hf.
    + assert (Hkey : hit_key q = f) by (unfold hit_key; now rewrite Hf).
      rewrite Hkey in Hkeys'.
      pose proof (od_fill f ordered [] Hkeys') as Hfill. cbn [app] in Hfill.
      destruct ordered as [| h l]; cbn [snd];
        [apply well_keyed_intro; constructor |].
      rewrite Hfill, <- Hkey. apply keyed_well_keyed; [exact Hq' |].
      now rewrite Hkey.
    + destruct ordered as [| h l]; cbn [snd];
        [apply well_keyed_intro; constructor | exact Hw].
  - intros Hk X. unfold QueryResult._id_set. cbn [snd]. split.
    + unfold unique_keys, QueryResult._hit_keys_get, OrderedDict.keys in *.
      cbn [QueryResult._hits]. rewrite map_map. cbn [fst]. exact Hnd.
    + cbn [QueryResult._hits QueryResult._id].
      apply Forall_forall. intros kv Hin. apply in_map_iff in Hin.
      destruct Hin as ([k h] & <- & Hin). cbn [fst snd].
      rewrite Forall_forall in Hall. destruct (Hall _ Hin) as (Hkh & _).
      cbn [fst snd] in Hkh. rewrite hit_query_id_set_eq. cbn [snd].
      split; [| reflexivity].
      rewrite Hkh. apply Hk. reflexivity.
Qed.

Lemma well_keyed_is_maintained_witness :
  query_consistent Examples.qresult /\
  well_keyed (snd (QueryResult.append Examples.hit4 Examples.qresult)) /\
  well_keyed (snd (QueryResult.pop QueryResult.default_pop_key None
                     Examples.qresult)).
Proof.
  destruct well_keyed_is_maintained as (Hinit & Hkeep).
  destruct (Hkeep Examples.qresult) as (Hc & Happ & _ & _ & Hpop & _).
  { split.
    - unfold unique_keys. simpl. repeat constructor; simpl; intuition discriminate.
    - repeat constructor. }
  split; [exact Hc |]. split; [apply Happ | apply Hpop].
Defined.
End QueryResultInvariant.

(** ** Mapping over the hits, and finding a hit *)

Section QueryResultMap.
Import Invariants Laws.

Lemma map_result_success {A B} (f : A -> result B) (l : list A) (ys : list B) :
  map_result f l = Ok ys -> Forall (fun x => exists y, f x = Ok y) l.
Proof.
  revert ys. induction l as [| x l IH]; intros ys; simpl; [constructor |].
  destruct (f x) as [y | e] eqn:E; [| discriminate].
  destruct (map_result f l) as [ys' | e]; [| discriminate].
  intros _. constructor; eauto.
Qed.

Lemma map_result_failure {A B} (f : A -> result B) (l : list A) (e : exn) :
  map_result f l = Raise e -> exists x, In x l /\ f x = Raise e.
Proof.
  induction l as [| x l IH]; simpl; [discriminate |].
  destruct (f x) as [y | e'] eqn:E.
  - destruct (map_result f l) as [ys | e'']; [discriminate |].
    intros [= <-]. destruct (IH eq_refl) as (x' & Hin & Hx'). eauto.
  - intros [= <-]. eauto.
Qed.

(** The copy [hit[:]] exists exactly for a consistent Hit; otherwise
    the constructor of the copy raises a ValueError. *)
Lemma hit_copy (h : Hit.t) :
  (hit_consistent h ->
   Hit.slice h None None = Ok (derived_hit h (Hit._hsps h))) /\
  (forall c, Hit.slice h None None = Ok c -> hit_consistent h) /\
  (forall e, Hit.slice h None None = Raise e -> exists msg, e = ValueError msg).
Proof.
  unfold Hit.slice. rewrite list_slice_all. split; [| split].
  - intros Hc. now apply hit_rebuild_ok.
  - intros c. unfold Hit.rebuild, Hit.__init__, construct,
      Hit._id_get, Hit._query_id_get.
    destruct (for_each _ Hit.append _) as [[[] | e] s'] eqn:E; [| discriminate].
    intros _. apply hit_for_each_success in E.
    destruct E as (hs & Hmap & Hall & _). cbn [Hit._id Hit._query_id] in Hall.
    assert (Hinj : forall l l' : list hsp_object,
               map Inst l = map Inst l' -> l = l').
    { induction l as [| x l IH]; intros [| y l'] H; try discriminate;
        [reflexivity |].
      injection H as -> H. f_equal. now apply IH. }
    apply Hinj in Hmap. unfold hit_consistent. now rewrite Hmap.
  - intros e. unfold Hit.rebuild, Hit.__init__, construct,
      Hit._id_get, Hit._query_id_get.
    generalize (Hit.mk (Hit._id h) (Hit._query_id h) "" [] []).
    induction (Hit._hsps h) as [| o l IH]; intros s; [discriminate |].
    cbn [map for_each]. unfold bind at 1.
    unfold Hit.append at 1, Hit._validate_hsp.
    destruct (negb (String.eqb (hsp_hit_id o) (Hit._id_get s)));
      [intros [= <-]; eauto |].
    destruct (negb (String.eqb (hsp_query_id o) (Hit._query_id_get s)));
      [intros [= <-]; eauto |].
    apply IH.
Qed.

(** X25: on a QueryResult [q] whose hits are consistent, stored under
    their own keys (which depend on the hit id only), with pairwise
    distinct keys and the query id [q.id], [q.hit_map(func)] for a
    function that returns Hits with the ids of its argument is a new
    QueryResult with the id, keys and length of [q], that holds in
    order the value of [func] on the copy [hit[:]] of every hit.
    Whatever [func] is, a hit of [q] that owns an HSP with another hit
    id or query id makes [hit_map] raise a ValueError. *)
Theorem hit_map_applies_to_copies (q : QueryResult.t) (func : Hit.t -> Hit.t) :
  (well_keyed q -> keyed_by_id q ->
   Forall hit_consistent (QueryResult._hits_get q) ->
   (forall h, Hit._id (func h) = Hit._id h /\
              Hit._query_id (func h) = Hit._query_id h) ->
   exists q',
     QueryResult.hit_map q func = Ok q' /\
     QueryResult._hits_get q'
       = map (fun h => func (derived_hit h (Hit._hsps h))) (QueryResult._hits_get q) /\
     QueryResult._hit_keys_get q' = QueryResult._hit_keys_get q /\
     QueryResult.__len__ q' = QueryResult.__len__ q /\
     QueryResult._id q' = QueryResult._id q /\
     query_consistent q') /\
  (forall h,
     In h (QueryResult._hits_get q) -> ~ hit_consistent h ->
     exists msg, QueryResult.hit_map q func = Raise (ValueError msg)).
Proof.
  split.
  - intros Hw Hk Hhits Hfunc.
    pose proof (well_keyed_hits q Hw) as Hd.
    destruct (well_keyed_consistent q Hw) as (Hq & Hnd).
    set (copy := fun h => func (derived_hit h (Hit._hsps h))).
    assert (Hmap : map_result
                     (fun hit => match Hit.slice hit None None with
                                 | Ok c => Ok (func c)
                                 | Raise e => Raise e
                                 end)
                     (QueryResult._hits_get q)
                   = Ok (map copy (QueryResult._hits_get q))).
    { apply map_result_ok. eapply Forall_impl; [| exact Hhits].
      intros h Hc. cbv beta. now rewrite (proj1 (hit_copy h) Hc). }
    assert (Hkeys : map (hit_key q) (map copy (QueryResult._hits_get q))
                    = map (hit_key q) (QueryResult._hits_get q)).
    { rewrite map_map. apply map_ext. intros h. apply Hk.
      unfold copy. now rewrite (proj1 (Hfunc _)). }
    destruct (rebuild_facts q (map copy (QueryResult._hits_get q)))
      as (q' & Hq' & Hh' & Hk' & Hl' & Hid' & _ & _ & _ & _ & _ & _ & Hw').
    { apply Forall_forall. intros h' Hin. apply in_map_iff in Hin.
      destruct Hin as (h & <- & Hin). unfold copy.
      rewrite (proj2 (Hfunc _)). change (Hit._query_id h = QueryResult._id q).
      rewrite Forall_forall in Hq. now apply Hq. }
    { now rewrite Hkeys. }
    exists q'. unfold QueryResult.hit_map. rewrite Hmap.
    split; [exact Hq' |]. split; [exact Hh' |].
    split.
    { rewrite Hk', Hkeys. unfold QueryResult._hit_keys_get, OrderedDict.keys.
      rewrite Hd, map_map. reflexivity. }
    split.
    { rewrite Hl', length_map. unfold QueryResult.__len__, QueryResult._hits_get,
        OrderedDict.values. now rewrite length_map. }
    split; [exact Hid' | now apply well_keyed_consistent].
  - intros h Hin Hbad. unfold QueryResult.hit_map.
    destruct (map_result _ (QueryResult._hits_get q)) as [hits | e] eqn:E.
    + exfalso. apply map_result_success in E. rewrite Forall_forall in E.
      destruct (E h Hin) as (y & Hy).
      destruct (Hit.slice h None None) as [c |] eqn:Hs; [| discriminate].
      apply Hbad. eapply (proj1 (proj2 (hit_copy h))). exact Hs.
    + apply map_result_failure in E. destruct E as (x & _ & Hx).
      destruct (Hit.slice x None None) as [c | e'] eqn:Hs; [discriminate |].
      injection Hx as <-.
      destruct (proj2 (proj2 (hit_copy x)) e' Hs) as (msg & ->). eauto.
Qed.

Lemma hit_map_applies_to_copies_witness :
  exists q',
    QueryResult.hit_map Examples.qresult (fun h => h) = Ok q' /\
    QueryResult._hit_keys_get q' = ["hit1"; "hit2"; "hit3"] /\
    QueryResult.__len__ q' = 3.
Proof.
  destruct (proj1 (hit_map_applies_to_copies Examples.qresult (fun h => h)))
    as (q' & Hq' & _ & Hkeys & Hlen & _).
  - split.
    + unfold unique_keys. simpl. repeat constructor; simpl; intuition discriminate.
    + repeat constructor.
  - exact example_keyed_by_id.
  - exact example_hits_consistent.
  - intros h. split; reflexivity.
  - exists q'. split; [exact Hq' |]. split; [exact Hkeys | exact Hlen].
Defined.

(** X26: every hit of a QueryResult whose hits are stored under their
    own keys, pairwise distinct, is found again: [q[key(h)]] is [h],
    and with a key function [h in q] holds.  Constructed with
    [hit_key_function=None], a QueryResult answers [h in q] with a
    TypeError for every Hit, although [append] stores hits under their
    id.  [q.index(h)] for a Hit is [q.index(h.id)], whatever the key
    function is. *)
Theorem stored_hits_are_found (q : QueryResult.t) (h : Hit.t) :
  (well_keyed q -> In h (QueryResult._hits_get q) ->
   QueryResult.__getitem__ (QueryResult.KeyStr (hit_key q h)) q
     = (Ok (QueryResult.HitItem h), q) /\
   QueryResult.__contains__ q (QueryResult.KeyStr (hit_key q h)) = Ok true /\
   (QueryResult._hit_key_function q <> None ->
    QueryResult.__contains__ q (QueryResult.KeyHit h) = Ok true) /\
   0 <= QueryResult.index q (QueryResult.KeyStr (hit_key q h))
     < QueryResult.__len__ q) /\
  (QueryResult._hit_key_function q = None ->
   QueryResult.__contains__ q (QueryResult.KeyHit h)
   = Raise (TypeError "'NoneType' object is not callable")) /\
  QueryResult.index q (QueryResult.KeyHit h)
  = QueryResult.index q (QueryResult.KeyStr (Hit._id h)).
Proof.
  split; [| split; [| reflexivity]].
  - intros Hw Hin. pose proof (well_keyed_hits q Hw) as Hd.
    destruct Hw as (Hnd & _).
    apply in_split in Hin. destruct Hin as (l1 & l2 & Hl).
    rewrite Hl, map_app in Hd. cbn [map] in Hd.
    unfold unique_keys, QueryResult._hit_keys_get in Hnd.
    assert (Hget : OrderedDict.get (QueryResult._hits q) (hit_key q h) = Some h).
    { rewrite Hd in Hnd |- *. now apply od_get_entry. }
    unfold QueryResult.__getitem__, QueryResult.__contains__, OrderedDict.contains.
    rewrite Hget. split; [reflexivity |]. split; [reflexivity |].
    split.
    + destruct (QueryResult._hit_key_function q) as [f |] eqn:Hf; [| congruence].
      intros _. assert (Hkey : hit_key q h = f h) by (unfold hit_key; now rewrite Hf).
      rewrite <- Hkey. unfold OrderedDict.contains. now rewrite Hget.
    + unfold QueryResult.index, QueryResult.__len__, QueryResult._hit_keys_get.
      pose proof (list_find_spec (OrderedDict.keys (QueryResult._hits q))
                                 (hit_key q h)) as Hspec.
      destruct (list_find _ _) as [i |].
      * destruct Hspec as (pre & post & Hkeys & _ & ->).
        apply (f_equal (@List.length _)) in Hkeys.
        unfold OrderedDict.keys in Hkeys.
        rewrite length_map, length_app in Hkeys. cbn [List.length] in Hkeys. lia.
      * exfalso. apply Hspec. eapply od_get_Some_key. exact Hget.
  - intros Hf. unfold QueryResult.__contains__. now rewrite Hf.
Qed.

Lemma stored_hits_are_found_witness :
  QueryResult.__getitem__ (QueryResult.KeyStr "hit2") Examples.qresult
    = (Ok (QueryResult.HitItem Examples.hit2), Examples.qresult) /\
  QueryResult.__contains__ Examples.qresult (QueryResult.KeyHit Examples.hit2)
    = Ok true /\
  QueryResult.__contains__ Examples.unkeyed_qresult (QueryResult.KeyHit Examples.hit2)
    = Raise (TypeError "'NoneType' object is not callable").
Proof.
  destruct (stored_hits_are_found Examples.qresult Examples.hit2) as (Hfound & _).
  destruct (stored_hits_are_found Examples.unkeyed_qresult Examples.hit2)
    as (_ & Hnone & _).
  destruct Hfound as (Hget & _ & Hin & _).
  - split.
    + unfold unique_keys. simpl. repeat constructor; simpl; intuition discriminate.
    + repeat constructor.
  - simpl. tauto.
  - split; [exact Hget |]. split; [apply Hin; discriminate | exact (Hnone eq_refl)].
Defined.
End QueryResultMap.

(** ** The alignment of a ContiguousHSP, and deleting HSPs of a Hit *)

Section ContiguousFacts.
Import Invariants.

(** An assignment to [query] or [hit] of a ContiguousHSP, of a string
    or of an object it refuses, leaves a kept alignment where it is,
    whether it succeeds or raises. *)
Lemma contiguous_set_keeps_alignment (v : seq_arg) (t : ContiguousHSP.t) :
  Laws.not_a_record v = true ->
  ContiguousHSP._alignment (snd (ContiguousHSP._query_set v t))
    = ContiguousHSP._alignment t /\
  ContiguousHSP._alignment (snd (ContiguousHSP._hit_set v t))
    = ContiguousHSP._alignment t.
Proof.
  intros Hv. destruct v as [w | r | o]; [| discriminate |]; split; reflexivity.
Qed.

Lemma contiguous_alignment_kept (t : ContiguousHSP.t) (a : MultipleSeqAlignment) :
  ContiguousHSP._alignment t = Some a ->
  ContiguousHSP._alignment_get t = (Ok a, t).
Proof. intros H. destruct t as [b h q al]. simpl in H. subst. reflexivity. Qed.

(** X27: on a ContiguousHSP, [hsp.query = w] and [hsp.hit = w] for a
    string [w] store a new record of [w] under the alphabet of the HSP,
    with the query id or hit id of the HSP as id and the name "aligned
    query sequence" or "aligned hit sequence", and change nothing else;
    an object that is neither a string nor a SeqRecord raises a
    TypeError and changes nothing.  The first read of [hsp.alignment]
    pairs the query record with the hit record under the alphabet of
    the HSP and keeps the result; with the query or the hit missing it
    raises an AttributeError and keeps nothing.  Once an alignment is
    kept, [hsp.alignment] returns it, also after [hsp.query] and
    [hsp.hit] have been assigned strings or objects the assignment
    refuses, in either order. *)
Theorem contiguous_alignment_is_built_once (c : ContiguousHSP.t) :
  (forall w : string,
     ContiguousHSP._query_set (ArgStr w) c
     = (Ok tt,
        ContiguousHSP.mk (ContiguousHSP.base c) (ContiguousHSP._hit c)
          (Some (Laws.record_of (HSP.alphabet (ContiguousHSP.base c))
                   (HSP.query_id (ContiguousHSP.base c)) query_type w))
          (ContiguousHSP._alignment c)) /\
     ContiguousHSP._hit_set (ArgStr w) c
     = (Ok tt,
        ContiguousHSP.mk (ContiguousHSP.base c)
          (Some (Laws.record_of (HSP.alphabet (ContiguousHSP.base c))
                   (HSP.hit_id (ContiguousHSP.base c)) hit_type w))
          (ContiguousHSP._query c) (ContiguousHSP._alignment c)) /\
     seq_name (Laws.record_of (HSP.alphabet (ContiguousHSP.base c))
                 (HSP.query_id (ContiguousHSP.base c)) query_type w)
     = "aligned query sequence" /\
     seq_name (Laws.record_of (HSP.alphabet (ContiguousHSP.base c))
                 (HSP.hit_id (ContiguousHSP.base c)) hit_type w)
     = "aligned hit sequence") /\
  (forall o : Alphabet,
     ContiguousHSP._query_set (ArgAlphabet o) c
     = (Raise (TypeError "Query sequence must be a string or a SeqRecord object."),
        c) /\
     ContiguousHSP._hit_set (ArgAlphabet o) c
     = (Raise (TypeError "Hit sequence must be a string or a SeqRecord object."),
        c)) /\
  (ContiguousHSP._alignment c = None ->
   forall q h,
     ContiguousHSP._query c = Some q -> ContiguousHSP._hit c = Some h ->
     ContiguousHSP._alignment_get c
     = (Ok (mkMultipleSeqAlignment [q; h] (HSP.alphabet (ContiguousHSP.base c))),
        ContiguousHSP.mk (ContiguousHSP.base c) (Some h) (Some q)
          (Some (mkMultipleSeqAlignment [q; h]
                   (HSP.alphabet (ContiguousHSP.base c)))))) /\
  (ContiguousHSP._alignment c = None ->
   ContiguousHSP._query c = None \/ ContiguousHSP._hit c = None ->
   exists msg, ContiguousHSP._alignment_get c = (Raise (AttributeError msg), c)) /\
  (forall a,
     ContiguousHSP._alignment c = Some a ->
     ContiguousHSP._alignment_get c = (Ok a, c) /\
     forall vq vh : seq_arg,
       Laws.not_a_record vq = true -> Laws.not_a_record vh = true ->
       fst (ContiguousHSP._alignment_get (snd (ContiguousHSP._query_set vq c)))
         = Ok a /\
       fst (ContiguousHSP._alignment_get (snd (ContiguousHSP._hit_set vh c)))
         = Ok a /\
       fst (ContiguousHSP._alignment_get
              (snd (ContiguousHSP._hit_set vh
                      (snd (ContiguousHSP._query_set vq c)))))
         = Ok a /\
       fst (ContiguousHSP._alignment_get
              (snd (ContiguousHSP._query_set vq
                      (snd (ContiguousHSP._hit_set vh c)))))
         = Ok a).
Proof.
  split; [| split; [| split; [| split]]].
  - intros w. repeat split.
  - intros o. split; reflexivity.
  - intros Ha q h Hq Hh. destruct c as [b hit query al]. simpl in *. subst.
    reflexivity.
  - intros Ha Hmiss. destruct c as [b hit query al]. simpl in *. subst.
    unfold ContiguousHSP._alignment_get, ContiguousHSP._query_get,
      ContiguousHSP._hit_get, bind, hasattr, getattr. simpl.
    destruct query as [q |]; [| eexists; reflexivity].
    destruct hit as [h |]; [| eexists; reflexivity].
    destruct Hmiss; discriminate.
  - intros a Ha. split; [now apply contiguous_alignment_kept |].
    assert (Hkeep : forall t : ContiguousHSP.t,
              ContiguousHSP._alignment t = Some a ->
              forall v : seq_arg,
                Laws.not_a_record v = true ->
                ContiguousHSP._alignment (snd (ContiguousHSP._query_set v t))
                  = Some a /\
                ContiguousHSP._alignment (snd (ContiguousHSP._hit_set v t))
                  = Some a).
    { intros t Ht v Hv.
      destruct (contiguous_set_keeps_alignment v t Hv) as (H1 & H2).
      rewrite H1, H2. split; exact Ht. }
    assert (Hread : forall t : ContiguousHSP.t,
              ContiguousHSP._alignment t = Some a ->
              fst (ContiguousHSP._alignment_get t) = Ok a).
    { intros t Ht. now rewrite (contiguous_alignment_kept t a Ht). }
    intros vq vh Hvq Hvh.
    pose proof (Hkeep _ Ha vq Hvq) as (Hq1 & _).
    pose proof (Hkeep _ Ha vh Hvh) as (_ & Hh1).
    pose proof (Hkeep _ Hq1 vh Hvh) as (_ & Hqh).
    pose proof (Hkeep _ Hh1 vq Hvq) as (Hhq & _).
    repeat split; apply Hread; assumption.
Qed.

Lemma contiguous_alignment_is_built_once_witness :
  exists c a,
    ContiguousHSP._hit_set (ArgStr "AAT")
      (snd (ContiguousHSP._query_set (ArgStr "AAA") Examples.contiguous_hsp))
      = (Ok tt, c) /\
    fst (ContiguousHSP._alignment_get c) = Ok a /\
    map seq_id (msa_records a) = ["query1"; "hit1"] /\
    fst (ContiguousHSP._alignment_get
           (snd (ContiguousHSP._hit_set (ArgStr "CCC")
                   (snd (ContiguousHSP._query_set (ArgStr "CCG")
                           (snd (ContiguousHSP._alignment_get c)))))))
      = Ok a.
Proof.
  eexists. eexists. split; [reflexivity |].
  match goal with
  | |- fst (ContiguousHSP._alignment_get ?c) = _ /\ _ =>
      pose proof (contiguous_alignment_is_built_once c)
        as (_ & _ & Hbuild & _ & _);
      specialize (Hbuild eq_refl _ _ eq_refl eq_refl);
      pose proof (contiguous_alignment_is_built_once
                    (snd (ContiguousHSP._alignment_get c)))
        as (_ & _ & _ & _ & Hkept)
  end.
  split; [rewrite Hbuild; reflexivity |].
  split; [reflexivity |].
  destruct (proj2 (Hkept _ eq_refl) (ArgStr "CCG") (ArgStr "CCC") eq_refl eq_refl)
    as (_ & _ & Hboth & _).
  exact Hboth.
Defined.

(** X28: [del hit[a:b]] succeeds on every Hit and removes exactly the
    HSPs that the slice [a:b] holds: the HSPs in front of the slice and
    behind it stay in their order, the length drops by the length of
    the slice, the ids, description and attributes stay, and a
    consistent Hit stays consistent.  [del hit[i]] for a position out
    of range raises an IndexError and leaves the Hit as it was. *)
Theorem hit_delitem_removes_slice (h : Hit.t) :
  (forall a b,
     exists pre post,
       Hit.__delitem__ (AtSlice a b) h
         = (Ok tt, Hit.set__hsps (pre ++ post)%list h) /\
       Hit._hsps h = (pre ++ list_slice (Hit._hsps h) a b ++ post)%list /\
       (pre ++ post)%list = list_del_slice (Hit._hsps h) a b /\
       Hit.__len__ (Hit.set__hsps (pre ++ post)%list h)
         = Hit.__len__ h - Z.of_nat (List.length (list_slice (Hit._hsps h) a b)) /\
       (hit_consistent h -> hit_consistent (Hit.set__hsps (pre ++ post)%list h))) /\
  (forall i e h',
     Hit.__delitem__ (AtIndex i) h = (Raise e, h') ->
     h' = h /\ e = IndexError "list assignment index out of range") /\
  (forall i h',
     Hit.__delitem__ (AtIndex i) h = (Ok tt, h') ->
     Hit.__len__ h' = Hit.__len__ h - 1 /\
     (hit_consistent h -> hit_consistent h')) /\
  (forall i,
     i < - Hit.__len__ h \/ Hit.__len__ h <= i ->
     Hit.__delitem__ (AtIndex i) h
     = (Raise (IndexError "list assignment index out of range"), h)) /\
  (forall i,
     - Hit.__len__ h <= i < Hit.__len__ h ->
     exists h', Hit.__delitem__ (AtIndex i) h = (Ok tt, h')).
Proof.
  split; [| split; [| split; [| split]]].
  - intros a b.
    destruct (list_slice_split (Hit._hsps h) a b) as (pre & post & Hd & Hdel).
    exists pre, post. unfold Hit.__delitem__. rewrite Hdel.
    split; [reflexivity |]. split; [exact Hd |]. split; [reflexivity |].
    split.
    + unfold Hit.__len__. cbn [Hit.set__hsps Hit._hsps].
      pose proof (f_equal (@List.length _) Hd) as Hl.
      rewrite !length_app in Hl. rewrite length_app. lia.
    + unfold hit_consistent. cbn [Hit.set__hsps Hit._hsps Hit._id Hit._query_id].
      intros Hc. rewrite Hd in Hc. apply Forall_app in Hc.
      destruct Hc as (H1 & H2). apply Forall_app in H2. apply Forall_app. tauto.
  - intros i e h'. unfold Hit.__delitem__, list_del_index.
    destruct (_ || _); [| discriminate]. intros [= <- <-]. split; reflexivity.
  - intros i h'. unfold Hit.__delitem__, list_del_index.
    set (j := if i <? 0 then i + Z.of_nat (List.length (Hit._hsps h)) else i).
    destruct (Z.ltb_spec j 0); [discriminate |].
    destruct (Z.leb_spec (Z.of_nat (List.length (Hit._hsps h))) j);
      [discriminate |].
    cbn [orb]. intros [= <-]. split.
    + unfold Hit.__len__, list_remove_at. cbn [Hit.set__hsps Hit._hsps].
      rewrite length_app, length_firstn, length_skipn. lia.
    + unfold hit_consistent. cbn [Hit.set__hsps Hit._hsps Hit._id Hit._query_id].
      apply Forall_remove_at.
  - intros i Hi. unfold Hit.__delitem__, list_del_index, Hit.__len__ in *.
    pose proof (Nat2Z.is_nonneg (List.length (Hit._hsps h))) as Hn.
    set (n := Z.of_nat (List.length (Hit._hsps h))) in *.
    assert (Hj : ((if i <? 0 then i + n else i) <? 0)
                 || (n <=? (if i <? 0 then i + n else i)) = true).
    { apply orb_true_iff. destruct (Z.ltb_spec i 0).
      - left. apply Z.ltb_lt. lia.
      - right. apply Z.leb_le. lia. }
    now rewrite Hj.
  - intros i Hi. unfold Hit.__delitem__, list_del_index, Hit.__len__ in *.
    set (n := Z.of_nat (List.length (Hit._hsps h))) in *.
    assert (Hj : ((if i <? 0 then i + n else i) <? 0)
                 || (n <=? (if i <? 0 then i + n else i)) = false).
    { apply orb_false_iff. destruct (Z.ltb_spec i 0).
      - split; [apply Z.ltb_ge | apply Z.leb_gt]; lia.
      - split; [apply Z.ltb_ge | apply Z.leb_gt]; lia. }
    rewrite Hj. eexists; reflexivity.
Qed.

Lemma hit_delitem_removes_slice_witness :
  Hit.__delitem__ (AtIndex 5) Examples.hit1
    = (Raise (IndexError "list assignment index out of range"), Examples.hit1) /\
  exists h',
    Hit.__delitem__ (AtIndex (-1)) Examples.hit1 = (Ok tt, h') /\
    Hit.__len__ h' = 1.
Proof.
  destruct (hit_delitem_removes_slice Examples.hit1)
    as (_ & _ & Hok & Hout & Hin).
  split.
  - apply (Hout 5). right. unfold Hit.__len__. simpl. lia.
  - destruct (Hin (-1)) as (h' & Hh'); [unfold Hit.__len__; simpl; lia |].
    exists h'. split; [exact Hh' |].
    exact (proj1 (Hok (-1) h' Hh')).
Defined.
End ContiguousFacts.
